(** * Lallan Shop inventory and transaction engine (src/services/storage.ts)

    A shallow embedding of the storage service: the QR signing primitive,
    the serial allocator, the unit and bulk ledgers and the checkout,
    fulfilment, cancellation and return flows, with the properties the
    specification states about them.

    Conventions of the embedding.
    - A JavaScript [number] that the engine uses as a count, a quantity or a
      serial is an integer and is modelled as [Z], which is exact for the
      integers a double holds exactly; the 32-bit arithmetic of the signature
      hash has its wrap-around written out.
    - A JavaScript string is a [string]; [charCodeAt] is the character code,
      so the strings of the model are those whose code units are below 256.
    - A field typed [T | undefined] is an [option T].
    - [localStorage] is the record [Store], one field per key; a key that
      was never written reads as the empty collection, as the getters do.
    - [new Date().toISOString().split('T')[0]] is the parameter [today] and
      [generateId()] the parameter [generateId] (or [newId]) of an
      operation. *)

From Stdlib Require Import ZArith List String Ascii Bool Lia Permutation.
From Stdlib Require DecimalString HexadecimalString DecimalPos.
From Stdlib Require Import Hexadecimal HexadecimalN.
Import ListNotations.

Local Open Scope string_scope.
Local Open Scope Z_scope.

(** ** JavaScript primitives used by the service *)

Module JS.

(** Truthiness of a [string | undefined] value: [!x] is [negb (truthy x)]. *)
Definition truthy (x : option string) : bool :=
  match x with
  | Some s => negb (s =? "")%string
  | None => false
  end.

(** [a === b] on [string | undefined] values. *)
Definition strictEq (a b : option string) : bool :=
  match a, b with
  | Some x, Some y => (x =? y)%string
  | None, None => true
  | _, _ => false
  end.

(** [n.toString()] of an integer. *)
Definition toString (n : Z) : string :=
  DecimalString.NilZero.string_of_int (Z.to_int n).

(** [n.toString(16)] of a non-negative integer. *)
Definition toString16 (n : Z) : string :=
  HexadecimalString.NilZero.string_of_uint (N.to_hex_uint (Z.to_N n)).

Definition charCode (c : ascii) : Z := Z.of_N (N_of_ascii c).

(** White space skipped by [parseInt], among the code units below 256. *)
Definition isWhiteSpace (c : ascii) : bool :=
  let n := charCode c in
  ((9 <=? n) && (n <=? 13)) || (n =? 32) || (n =? 160).

Fixpoint trimStart (s : string) : string :=
  match s with
  | String c r => if isWhiteSpace c then trimStart r else s
  | EmptyString => s
  end.

Definition digitValue (radix : Z) (c : ascii) : option Z :=
  let n := charCode c in
  let v :=
    if (48 <=? n) && (n <=? 57) then Some (n - 48)
    else if (97 <=? n) && (n <=? 122) then Some (n - 87)
    else if (65 <=? n) && (n <=? 90) then Some (n - 55)
    else None in
  match v with
  | Some d => if d <? radix then Some d else None
  | None => None
  end.

(** The longest prefix of digits, as a number; [None] when it is empty. *)
Fixpoint parseDigits (radix : Z) (s : string) (acc : option Z) : option Z :=
  match s with
  | String c r =>
      match digitValue radix c with
      | Some d =>
          parseDigits radix r
            (Some (match acc with Some a => a * radix + d | None => d end))
      | None => acc
      end
  | EmptyString => acc
  end.

(** [parseInt(s)] without a radix; [None] is [NaN]. *)
Definition parseInt (s : string) : option Z :=
  let s1 := trimStart s in
  let '(sign, s2) :=
    match s1 with
    | String "-" r => (-1, r)
    | String "+" r => (1, r)
    | _ => (1, s1)
    end in
  let '(radix, s3) :=
    match s2 with
    | String "0" (String "x" r) => (16, r)
    | String "0" (String "X" r) => (16, r)
    | _ => (10, s2)
    end in
  option_map (Z.mul sign) (parseDigits radix s3 None).

(** [ToInt32] and [ToUint32]. *)
Definition toInt32 (x : Z) : Z := (x + 2 ^ 31) mod 2 ^ 32 - 2 ^ 31.
Definition toUint32 (x : Z) : Z := x mod 2 ^ 32.

(** [Math.imul(a, b)], [a ^ b] and [a >>> n]. *)
Definition imul (a b : Z) : Z := toInt32 (toInt32 a * toInt32 b).
Definition xor (a b : Z) : Z := toInt32 (Z.lxor (toInt32 a) (toInt32 b)).
Definition ushr (a n : Z) : Z := Z.shiftr (toUint32 a) (n mod 32).

(** [s.split(sep)] for a one-character separator. *)
Fixpoint split (sep : ascii) (s : string) : list string :=
  match s with
  | EmptyString => [EmptyString]
  | String c r =>
      if Ascii.eqb c sep then EmptyString :: split sep r
      else match split sep r with
           | p :: ps => String c p :: ps
           | [] => [String c EmptyString]
           end
  end.

Definition startsWith (s p : string) : bool := String.prefix p s.

(** [xs.sort((a, b) => a - b)]: the ascending order of the numbers. *)
Fixpoint insert (x : Z) (l : list Z) : list Z :=
  match l with
  | [] => [x]
  | y :: r => if x <=? y then x :: l else y :: insert x r
  end.

Fixpoint sort (l : list Z) : list Z :=
  match l with
  | [] => []
  | x :: r => insert x (sort r)
  end.

(** [xs.slice(0, e)]: a negative [e] counts from the end. *)
Definition slice0 {A} (e : Z) (xs : list A) : list A :=
  if e <? 0 then firstn (Z.to_nat (Z.of_nat (List.length xs) + e)) xs
  else firstn (Z.to_nat e) xs.

(** [xs.includes(x)] on strings and on numbers. *)
Definition includes (xs : list string) (x : string) : bool :=
  existsb (String.eqb x) xs.
Definition includesZ (xs : list Z) (x : Z) : bool :=
  existsb (Z.eqb x) xs.

(** The object [xs.find(p)] returns is the element of the array itself:
    an assignment through it updates the first element satisfying [p]. *)
Fixpoint updateFirst {A} (p : A -> bool) (f : A -> A) (xs : list A) : list A :=
  match xs with
  | [] => []
  | x :: r => if p x then f x :: r else x :: updateFirst p f r
  end.

(** [xs.findIndex(p)], [None] for [-1]. *)
Fixpoint findIndex {A} (p : A -> bool) (xs : list A) : option nat :=
  match xs with
  | [] => None
  | x :: r => if p x then Some O else option_map S (findIndex p r)
  end.

(** [xs.splice(i, 1)]. *)
Fixpoint removeAt {A} (i : nat) (xs : list A) : list A :=
  match xs, i with
  | [], _ => []
  | _ :: r, O => r
  | x :: r, S j => x :: removeAt j r
  end.

End JS.

(** ** QR security logic *)

Definition SYSTEM_SECRET_KEY : string := "LALLAN-ASKE-V1-SECRET".

Definition signatureStep (h : Z) (c : ascii) : Z :=
  JS.imul (JS.xor h (JS.charCode c)) 2654435761.

Definition signatureLoop (str : string) (h : Z) : Z :=
  fold_left signatureStep (list_ascii_of_string str) h.

(** The final mixing [(h ^ h >>> 16) >>> 0]. *)
Definition finalMix (h : Z) : Z := JS.ushr (JS.xor h (JS.ushr h 16)) 0.

Definition generateSyncSignature (str : string) : string :=
  let h := signatureLoop str 3735928559 (* 0xdeadbeef *) in
  JS.toString16 (finalMix h).

Definition getSignedQRData (serialNumber : string) : string :=
  let signature := generateSyncSignature (serialNumber ++ SYSTEM_SECRET_KEY) in
  "LS:" ++ serialNumber ++ ":" ++ signature.

Record QRValidation : Type := mkQRValidation {
  valid : bool;
  qrSerialNumber : option string;
  error : option string
}.

Definition errExternalQR : string :=
  "External QR Code Detected. Please scan a genuine Lallan Shop QR.".
Definition errMalformedQR : string := "Malformed QR Data.".
Definition errForgedQR : string :=
  "Forged QR Code. Signature verification failed.".

Definition validateSignedQR (scannedText : string) : QRValidation :=
  if negb (JS.startsWith scannedText "LS:") then
    mkQRValidation false None (Some errExternalQR)
  else
    match JS.split ":" scannedText with
    | [_; serialNumber; scannedSignature] =>
        let expectedSignature :=
          generateSyncSignature (serialNumber ++ SYSTEM_SECRET_KEY) in
        if negb (scannedSignature =? expectedSignature)%string then
          mkQRValidation false None (Some errForgedQR)
        else mkQRValidation true (Some serialNumber) None
    | _ => mkQRValidation false None (Some errMalformedQR)
    end.

(** ** Data model (src/types.ts) *)

Inductive UnitStatus : Type :=
| IN_FACTORY
| IN_TRANSIT_TO_SELLER
| AT_SELLER
| SOLD_TO_BUYER
| RETURN_REQUESTED
| RETURNED_TO_SELLER
| RETURNED_DEFECTIVE.

Inductive OrderStatus : Type :=
| AwaitingConfirmation
| Confirmed
| Delivered
| ReturnRequested
| Returned.

Definition UnitStatus_eqb (a b : UnitStatus) : bool :=
  match a, b with
  | IN_FACTORY, IN_FACTORY
  | IN_TRANSIT_TO_SELLER, IN_TRANSIT_TO_SELLER
  | AT_SELLER, AT_SELLER
  | SOLD_TO_BUYER, SOLD_TO_BUYER
  | RETURN_REQUESTED, RETURN_REQUESTED
  | RETURNED_TO_SELLER, RETURNED_TO_SELLER
  | RETURNED_DEFECTIVE, RETURNED_DEFECTIVE => true
  | _, _ => false
  end.

Module User.
Record t : Type := mk {
  id : string;
  email : string;
  name : string
}.
End User.

Module ProductUnit.
Record t : Type := mk {
  id : string;
  productId : string;
  serialNumber : string;
  status : UnitStatus;
  uniqueAuthHash : option string;
  manufacturerId : string;
  sellerId : option string;
  buyerId : option string;
  manufacturingDate : string;
  dateSentToSeller : option string;
  dateSold : option string;
  dateReturned : option string
}.

(** [{ ...u, status: st }] and [u.status = st]. *)
Definition withStatus (st : UnitStatus) (u : t) : t :=
  mk (id u) (productId u) (serialNumber u) st (uniqueAuthHash u)
     (manufacturerId u) (sellerId u) (buyerId u) (manufacturingDate u)
     (dateSentToSeller u) (dateSold u) (dateReturned u).

(** [{ ...u, status: st, buyerId: b, dateSold: d }]. *)
Definition withSale (st : UnitStatus) (b d : option string) (u : t) : t :=
  mk (id u) (productId u) (serialNumber u) st (uniqueAuthHash u)
     (manufacturerId u) (sellerId u) b (manufacturingDate u)
     (dateSentToSeller u) d (dateReturned u).
End ProductUnit.

(** The elements of [partialUnits] handed to [saveProductBatch]: the two
    fields the function tests are optional; the cast [as ProductUnit] takes
    the others as present. *)
Module PartialUnit.
Record t : Type := mk {
  id : string;
  productId : string;
  serialNumber : option string;
  status : UnitStatus;
  manufacturerId : option string;
  manufacturingDate : string
}.
End PartialUnit.

Module BulkStock.
Record t : Type := mk {
  id : string;
  productId : string;
  ownerId : string;
  quantity : Z
}.

Definition addQuantity (d : Z) (s : t) : t :=
  mk (id s) (productId s) (ownerId s) (quantity s + d).
Definition subQuantity (d : Z) (s : t) : t :=
  mk (id s) (productId s) (ownerId s) (quantity s - d).
(** The predicate [s.productId === p && s.ownerId === o]. *)
Definition isFor (p o : string) (s : t) : bool :=
  (productId s =? p)%string && (ownerId s =? o)%string.
End BulkStock.

Module Product.
Record t : Type := mk {
  id : string;
  name : string;
  manufacturerId : string;
  isSerialized : bool
}.
End Product.

Module CartItem.
Record t : Type := mk {
  id : string;
  productId : string;
  productName : string;
  quantity : Z;
  isSerialized : bool;
  unitIds : option (list string);
  sellerId : option string
}.
End CartItem.

Module Order.
Record t : Type := mk {
  id : string;
  productId : string;
  productName : string;
  sellerId : string;
  buyerId : string;
  buyerName : string;
  quantity : Z;
  status : OrderStatus;
  assignedUnitIds : option (list string);
  dateOrdered : string;
  dateConfirmed : option string;
  dateDelivered : option string
}.

Definition withStatus (st : OrderStatus) (o : t) : t :=
  mk (id o) (productId o) (productName o) (sellerId o) (buyerId o)
     (buyerName o) (quantity o) st (assignedUnitIds o) (dateOrdered o)
     (dateConfirmed o) (dateDelivered o).
Definition withConfirmation (d : string) (o : t) : t :=
  mk (id o) (productId o) (productName o) (sellerId o) (buyerId o)
     (buyerName o) (quantity o) Confirmed (assignedUnitIds o) (dateOrdered o)
     (Some d) (dateDelivered o).
Definition withAssignedUnitIds (ids : option (list string)) (o : t) : t :=
  mk (id o) (productId o) (productName o) (sellerId o) (buyerId o)
     (buyerName o) (quantity o) (status o) ids (dateOrdered o)
     (dateConfirmed o) (dateDelivered o).
End Order.

(** The serial domain of [GlobalSettings]; the announcement and content
    fields play no part in the engine. *)
Module GlobalSettings.
Record t : Type := mk {
  serialRangeStart : Z;
  serialRangeEnd : Z;
  recycledSerials : list Z
}.
Definition withRecycled (r : list Z) (g : t) : t :=
  mk (serialRangeStart g) (serialRangeEnd g) r.
End GlobalSettings.

(** ** The store *)

Record Store : Type := mkStore {
  products : list Product.t;          (* chaintrack_products *)
  units : list ProductUnit.t;         (* chaintrack_units *)
  bulkStock : list BulkStock.t;       (* chaintrack_bulk_stock *)
  orders : list Order.t;              (* chaintrack_orders *)
  carts : list (string * list CartItem.t);   (* chaintrack_cart_<userId> *)
  settings : option GlobalSettings.t  (* chaintrack_settings *)
}.

Definition setUnits (us : list ProductUnit.t) (s : Store) : Store :=
  mkStore (products s) us (bulkStock s) (orders s) (carts s) (settings s).
Definition setBulkStock (bs : list BulkStock.t) (s : Store) : Store :=
  mkStore (products s) (units s) bs (orders s) (carts s) (settings s).
Definition setOrders (os : list Order.t) (s : Store) : Store :=
  mkStore (products s) (units s) (bulkStock s) os (carts s) (settings s).
Definition setProducts (ps : list Product.t) (s : Store) : Store :=
  mkStore ps (units s) (bulkStock s) (orders s) (carts s) (settings s).
Definition saveGlobalSettings (g : GlobalSettings.t) (s : Store) : Store :=
  mkStore (products s) (units s) (bulkStock s) (orders s) (carts s) (Some g).
(** [localStorage.removeItem(CART_KEY_PREFIX + userId)]. *)
Definition removeCart (userId : string) (s : Store) : Store :=
  mkStore (products s) (units s) (bulkStock s) (orders s)
    (filter (fun kv => negb (fst kv =? userId)%string) (carts s)) (settings s).

Definition getCart (userId : string) (s : Store) : list CartItem.t :=
  match find (fun kv => (fst kv =? userId)%string) (carts s) with
  | Some kv => snd kv
  | None => []
  end.

Definition defaultSettings : GlobalSettings.t :=
  GlobalSettings.mk 100000 100999 [].

Definition getGlobalSettings (s : Store) : GlobalSettings.t :=
  match settings s with
  | Some g => g
  | None => defaultSettings
  end.

(** An operation runs on the store and returns or throws; what it wrote
    before a throw stays written. *)
Inductive Outcome (A : Type) : Type :=
| Return (a : A)
| Throw (message : string).
Arguments Return {A} a.
Arguments Throw {A} message.

Definition Eff (A : Type) : Type := Store -> Store * Outcome A.

Definition ret {A} (a : A) : Eff A := fun s => (s, Return a).
Definition throw {A} (message : string) : Eff A := fun s => (s, Throw message).
Definition bind {A B} (m : Eff A) (k : A -> Eff B) : Eff B :=
  fun s =>
    match m s with
    | (s', Return a) => k a s'
    | (s', Throw e) => (s', Throw e)
    end.
Definition read {A} (f : Store -> A) : Eff A := fun s => (s, Return (f s)).
Definition write (f : Store -> Store) : Eff unit := fun s => (f s, Return tt).

Notation "'let!' x ':=' m 'in' k" := (bind m (fun x => k))
  (at level 10, x name, m at level 100, k at level 200).
Notation "m ;; k" := (bind m (fun _ => k))
  (at level 100, k at level 200, right associativity).

(** ** Global settings and serial logic *)

(** The numeric serials of the live units ([usedNumbers]). *)
Definition usedNumbers (allUnits : list ProductUnit.t) : list Z :=
  flat_map (fun u =>
    match JS.parseInt (ProductUnit.serialNumber u) with
    | Some num => [num]
    | None => []
    end) allUnits.

Definition errRangeExhausted : string :=
  "Serial number range exhausted. Please contact Admin.".

(** The first loop of [generateNextSerialBatch]: take numbers from the front
    of the recycled list while more are wanted; returns [generated] and what
    is left of the list. *)
Fixpoint drainRecycled (used : list Z) (quantity : Z) (generated : list string)
    (recycled : list Z) : list string * list Z :=
  match recycled with
  | [] => (generated, [])
  | candidate :: rest =>
      if Z.of_nat (List.length generated) <? quantity then
        if negb (JS.includesZ used candidate)
        then drainRecycled used quantity
               (generated ++ [JS.toString candidate])%list rest
        else drainRecycled used quantity generated rest
      else (generated, recycled)
  end.

(** The second loop: [remaining] is the number of candidates left in
    [[candidate, serialRangeEnd]], so that [remaining = 0] is the test
    [candidate > settings.serialRangeEnd]. *)
Fixpoint scanRange (used : list Z) (quantity : Z) (remaining : nat)
    (candidate : Z) (generated : list string) : Outcome (list string) :=
  if Z.of_nat (List.length generated) <? quantity then
    match remaining with
    | O => Throw errRangeExhausted
    | S remaining' =>
        scanRange used quantity remaining' (candidate + 1)
          (if negb (JS.includesZ used candidate)
           then (generated ++ [JS.toString candidate])%list
           else generated)
    end
  else Return generated.

(** The same loop with its test as written and fuel for the recursion;
    [None] when the fuel runs out. *)
Fixpoint scanLoop (used : list Z) (quantity rangeEnd : Z) (fuel : nat)
    (candidate : Z) (generated : list string)
    : option (Outcome (list string)) :=
  if Z.of_nat (List.length generated) <? quantity then
    if candidate >? rangeEnd then Some (Throw errRangeExhausted)
    else
      match fuel with
      | O => None
      | S fuel' =>
          scanLoop used quantity rangeEnd fuel' (candidate + 1)
            (if negb (JS.includesZ used candidate)
             then (generated ++ [JS.toString candidate])%list
             else generated)
      end
  else Some (Return generated).

Definition generateNextSerialBatch (quantity : Z) : Eff (list string) :=
  fun s =>
    let settings := getGlobalSettings s in
    let used := usedNumbers (units s) in
    let sorted := JS.sort (GlobalSettings.recycledSerials settings) in
    let '(generated, recycled) := drainRecycled used quantity [] sorted in
    let rangeStart := GlobalSettings.serialRangeStart settings in
    let rangeEnd := GlobalSettings.serialRangeEnd settings in
    match scanRange used quantity (Z.to_nat (rangeEnd + 1 - rangeStart))
            rangeStart generated with
    | Throw e => (s, Throw e)
    | Return generated' =>
        (saveGlobalSettings (GlobalSettings.withRecycled recycled settings) s,
         Return generated')
    end.

(** ** Product and inventory management *)

Section Inventory.

(** [generateSecureHash], a SHA-256 digest the engine only stores. *)
Variable generateSecureHash : string -> string -> string.

Definition finalUnit (u : PartialUnit.t) : list ProductUnit.t :=
  match PartialUnit.serialNumber u, PartialUnit.manufacturerId u with
  | Some sn, Some m =>
      if negb (sn =? "")%string && negb (m =? "")%string then
        [ProductUnit.mk (PartialUnit.id u) (PartialUnit.productId u) sn
           (PartialUnit.status u) (Some (generateSecureHash sn m)) m
           None None (PartialUnit.manufacturingDate u) None None None]
      else []
  | _, _ => []
  end.

Definition saveProductBatch (newId : string) (product : Product.t)
    (quantity : Z) (partialUnits : list PartialUnit.t) (s : Store) : Store :=
  let isIt := fun p => (Product.id p =? Product.id product)%string in
  let products' :=
    match JS.findIndex isIt (products s) with
    | Some _ => JS.updateFirst isIt (fun _ => product) (products s)
    | None => (products s ++ [product])%list
    end in
  let s1 := setProducts products' s in
  if Product.isSerialized product then
    setUnits (units s1 ++ flat_map finalUnit partialUnits)%list s1
  else
    let mine :=
      BulkStock.isFor (Product.id product) (Product.manufacturerId product) in
    match find mine (bulkStock s1) with
    | Some _ =>
        setBulkStock
          (JS.updateFirst mine (BulkStock.addQuantity quantity) (bulkStock s1)) s1
    | None =>
        setBulkStock
          (bulkStock s1 ++
             [BulkStock.mk newId (Product.id product)
                (Product.manufacturerId product) quantity])%list s1
    end.

End Inventory.

Definition transferBulkStock (newId : string) (productId fromOwnerId : string)
    (toOwnerId : option string) (quantity : Z) (s : Store) : Store :=
  let allStock := bulkStock s in
  let source := BulkStock.isFor productId fromOwnerId in
  match find source allStock with
  | Some sourceStock =>
      if BulkStock.quantity sourceStock >=? quantity then
        let allStock1 :=
          JS.updateFirst source (BulkStock.subQuantity quantity) allStock in
        match toOwnerId with
        | Some toOwner =>
            if negb (toOwner =? "")%string then
              let dest := BulkStock.isFor productId toOwner in
              match find dest allStock1 with
              | Some _ =>
                  setBulkStock
                    (JS.updateFirst dest (BulkStock.addQuantity quantity)
                       allStock1) s
              | None =>
                  setBulkStock
                    (allStock1 ++
                       [BulkStock.mk newId productId toOwner quantity])%list s
              end
            else setBulkStock allStock1 s
        | None => setBulkStock allStock1 s
        end
      else setBulkStock allStock s
  | None => setBulkStock allStock s
  end.

Definition hasId (unitId : string) (u : ProductUnit.t) : bool :=
  (ProductUnit.id u =? unitId)%string.

Definition deleteProductUnit (unitId : string) (s : Store) : Store :=
  let allUnits := units s in
  let unitToDelete := find (hasId unitId) allUnits in
  let remainingUnits := filter (fun u => negb (hasId unitId u)) allUnits in
  let s1 := setUnits remainingUnits s in
  match unitToDelete with
  | Some u =>
      match JS.parseInt (ProductUnit.serialNumber u) with
      | Some num =>
          let settings := getGlobalSettings s1 in
          if negb (JS.includesZ (GlobalSettings.recycledSerials settings) num)
          then saveGlobalSettings
                 (GlobalSettings.withRecycled
                    (GlobalSettings.recycledSerials settings ++ [num])%list
                    settings) s1
          else s1
      | None => s1
      end
  | None => s1
  end.

(** ** Returns logic *)

(** [ids.forEach(uid => { const u = units.find(unit => unit.id === uid);
    if (u) ... })]: each id updates the first unit that carries it. *)
Definition forEachUnit (ids : list string) (f : ProductUnit.t -> ProductUnit.t)
    (us : list ProductUnit.t) : list ProductUnit.t :=
  fold_left (fun acc uid => JS.updateFirst (hasId uid) f acc) ids us.

Arguments forEachUnit : simpl never.

Definition returnBulkToManufacturer (productId sellerId : string)
    (quantity : Z) (s : Store) : Store :=
  let allStock := bulkStock s in
  let seller := BulkStock.isFor productId sellerId in
  match find seller allStock with
  | Some sellerStock =>
      if BulkStock.quantity sellerStock >=? quantity then
        let allStock1 :=
          JS.updateFirst seller (BulkStock.subQuantity quantity) allStock in
        match find (fun p => (Product.id p =? productId)%string) (products s) with
        | Some prod =>
            setBulkStock
              (JS.updateFirst
                 (BulkStock.isFor productId (Product.manufacturerId prod))
                 (BulkStock.addQuantity quantity) allStock1) s
        | None => setBulkStock allStock1 s
        end
      else setBulkStock allStock s
  | None => setBulkStock allStock s
  end.

Definition orderHasId (orderId : string) (o : Order.t) : bool :=
  (Order.id o =? orderId)%string.

Definition requestOrderReturn (orderId : string) (s : Store) : Store :=
  match find (orderHasId orderId) (orders s) with
  | Some order =>
      let orders' :=
        JS.updateFirst (orderHasId orderId)
          (Order.withStatus ReturnRequested) (orders s) in
      match Order.assignedUnitIds order with
      | Some ids =>
          setOrders orders'
            (setUnits
               (forEachUnit ids (ProductUnit.withStatus RETURN_REQUESTED)
                  (units s)) s)
      | None => setOrders orders' s
      end
  | None => s
  end.

Definition processBuyerReturn (orderId : string) (accept : bool) (s : Store)
    : Store :=
  match find (orderHasId orderId) (orders s) with
  | Some order =>
      if accept then
        let orders' :=
          JS.updateFirst (orderHasId orderId) (Order.withStatus Returned)
            (orders s) in
        match Order.assignedUnitIds order with
        | Some ids =>
            setOrders orders'
              (setUnits
                 (forEachUnit ids (ProductUnit.withStatus RETURNED_TO_SELLER)
                    (units s)) s)
        | None =>
            let seller :=
              BulkStock.isFor (Order.productId order) (Order.sellerId order) in
            match find seller (bulkStock s) with
            | Some _ =>
                setOrders orders'
                  (setBulkStock
                     (JS.updateFirst seller
                        (BulkStock.addQuantity (Order.quantity order))
                        (bulkStock s)) s)
            | None => setOrders orders' s
            end
        end
      else
        let orders' :=
          JS.updateFirst (orderHasId orderId) (Order.withStatus Delivered)
            (orders s) in
        match Order.assignedUnitIds order with
        | Some ids =>
            setOrders orders'
              (setUnits
                 (forEachUnit ids (ProductUnit.withStatus SOLD_TO_BUYER)
                    (units s)) s)
        | None => setOrders orders' s
        end
  | None => s
  end.

(** ** Order management *)

(** The filter of [processCheckout]: the units of the product that the
    seller holds in status AT_SELLER or RETURNED_TO_SELLER. *)
Definition isAvailable (productId : string) (sellerId : option string)
    (u : ProductUnit.t) : bool :=
  (ProductUnit.productId u =? productId)%string
  && JS.strictEq (ProductUnit.sellerId u) sellerId
  && (UnitStatus_eqb (ProductUnit.status u) AT_SELLER
      || UnitStatus_eqb (ProductUnit.status u) RETURNED_TO_SELLER).

Definition isStockOf (productId : string) (sellerId : option string)
    (st : BulkStock.t) : bool :=
  (BulkStock.productId st =? productId)%string
  && JS.strictEq (Some (BulkStock.ownerId st)) sellerId.

Definition errNoSeller (item : CartItem.t) : string :=
  "Data integrity error: Cannot identify seller for "
  ++ CartItem.productName item ++ ". Please clear cart and try again.".

Definition errInsufficientStock (item : CartItem.t) (available : nat) : string :=
  "Insufficient stock for " ++ CartItem.productName item
  ++ ". Requested: " ++ JS.toString (CartItem.quantity item)
  ++ ", Available: " ++ JS.toString (Z.of_nat available)
  ++ ". Order cancelled.".

Definition errInsufficientBulk (item : CartItem.t) : string :=
  "Insufficient bulk stock for " ++ CartItem.productName item
  ++ ". Order cancelled.".

Definition productHasId (productId : string) (p : Product.t) : bool :=
  (Product.id p =? productId)%string.

(** The seller of a line item as step A resolves it: the item's own, or
    for an item without one the manufacturer of its product. *)
Definition validationSeller (products : list Product.t) (item : CartItem.t)
    : option string :=
  let sellerId := CartItem.sellerId item in
  if negb (JS.truthy sellerId) then
    match find (productHasId (CartItem.productId item)) products with
    | Some productInList => Some (Product.manufacturerId productInList)
    | None => sellerId
    end
  else sellerId.

(** Step A for one line item: [Some e] when it throws [e]. *)
Definition validateItem (products : list Product.t)
    (allUnits : list ProductUnit.t) (allStock : list BulkStock.t)
    (item : CartItem.t) : option string :=
  let sellerId := validationSeller products item in
  if negb (JS.truthy sellerId) then Some (errNoSeller item)
  else if CartItem.isSerialized item then
    let availableUnits :=
      filter (isAvailable (CartItem.productId item) sellerId) allUnits in
    if Z.of_nat (List.length availableUnits) <? CartItem.quantity item
    then Some (errInsufficientStock item (List.length availableUnits))
    else None
  else
    match find (isStockOf (CartItem.productId item) sellerId) allStock with
    | Some stock =>
        if BulkStock.quantity stock <? CartItem.quantity item
        then Some (errInsufficientBulk item)
        else None
    | None => Some (errInsufficientBulk item)
    end.

Fixpoint validateCart (products : list Product.t)
    (allUnits : list ProductUnit.t) (allStock : list BulkStock.t)
    (cartItems : list CartItem.t) : Eff unit :=
  match cartItems with
  | [] => ret tt
  | item :: rest =>
      match validateItem products allUnits allStock item with
      | Some e => throw e
      | None => validateCart products allUnits allStock rest
      end
  end.

(** The seller of a line item as steps B and C resolve it:
    [item.sellerId || products.find(...)?.manufacturerId]. *)
Definition executionSeller (products : list Product.t) (item : CartItem.t)
    : option string :=
  if JS.truthy (CartItem.sellerId item) then CartItem.sellerId item
  else option_map Product.manufacturerId
         (find (productHasId (CartItem.productId item)) products).

(** The in-memory state of steps B and C. *)
Record Working : Type := mkWorking {
  allUnits : list ProductUnit.t;
  allStock : list BulkStock.t;
  newOrders : list Order.t
}.

Section Checkout.

Variable today : string.
(** [generateId k] is the id of the [k]-th order the checkout creates. *)
Variable generateId : nat -> string.

Definition executeItem (user : User.t) (products : list Product.t)
    (w : Working) (item : CartItem.t) : Working :=
  let sellerId := executionSeller products item in
  match sellerId with
  | Some seller =>
      if negb (JS.truthy sellerId) then w
      else
        let newOrder :=
          Order.mk (generateId (List.length (newOrders w)))
            (CartItem.productId item) (CartItem.productName item) seller
            (User.id user) (User.name user) (CartItem.quantity item)
            AwaitingConfirmation None today None None in
        if CartItem.isSerialized item then
          let availableUnits :=
            filter (isAvailable (CartItem.productId item) sellerId)
              (allUnits w) in
          let unitsToAssign :=
            JS.slice0 (CartItem.quantity item) availableUnits in
          let unitIds := map ProductUnit.id unitsToAssign in
          mkWorking
            (map (fun u =>
               if JS.includes unitIds (ProductUnit.id u)
               then ProductUnit.withSale SOLD_TO_BUYER
                      (Some (User.id user)) (Some today) u
               else u) (allUnits w))
            (allStock w)
            (newOrders w ++
               [Order.withAssignedUnitIds (Some unitIds) newOrder])%list
        else
          mkWorking (allUnits w)
            (map (fun st =>
               if isStockOf (CartItem.productId item) sellerId st
               then BulkStock.subQuantity (CartItem.quantity item) st
               else st) (allStock w))
            (newOrders w ++ [newOrder])%list
  | None => w
  end.

Definition processCheckout (user : User.t) (cartItems : list CartItem.t)
    : Eff unit :=
  let! productList := read products in
  let! unitList := read units in
  let! stockList := read bulkStock in
  let! allOrders := read orders in
  validateCart productList unitList stockList cartItems ;;
  let w :=
    fold_left (executeItem user productList) cartItems
      (mkWorking unitList stockList []) in
  write (setUnits (allUnits w)) ;;
  write (setBulkStock (allStock w)) ;;
  write (setOrders (allOrders ++ newOrders w)%list) ;;
  write (removeCart (User.id user)).

Definition fulfillOrder (orderId : string) (unitIds : option (list string))
    (s : Store) : Store :=
  match find (orderHasId orderId) (orders s) with
  | Some order =>
      let noneReserved :=
        match Order.assignedUnitIds order with
        | Some ids => (List.length ids =? 0)%nat
        | None => true
        end in
      match unitIds with
      | Some ids =>
          if noneReserved then
            setOrders
              (JS.updateFirst (orderHasId orderId)
                 (fun o => Order.withAssignedUnitIds (Some ids)
                             (Order.withConfirmation today o)) (orders s))
              (setUnits
                 (forEachUnit ids
                    (ProductUnit.withSale SOLD_TO_BUYER
                       (Some (Order.buyerId order)) (Some today))
                    (units s)) s)
          else
            setOrders
              (JS.updateFirst (orderHasId orderId)
                 (Order.withConfirmation today) (orders s)) s
      | None =>
          setOrders
            (JS.updateFirst (orderHasId orderId)
               (Order.withConfirmation today) (orders s)) s
      end
  | None => s
  end.

End Checkout.

Definition cancelOrder (newId : string) (orderId : string) (s : Store) : Store :=
  match JS.findIndex (orderHasId orderId) (orders s) with
  | Some orderIndex =>
      match nth_error (orders s) orderIndex with
      | Some order =>
          let reserved :=
            match Order.assignedUnitIds order with
            | Some ids => if (0 <? List.length ids)%nat then Some ids else None
            | None => None
            end in
          let s1 :=
            match reserved with
            | Some ids =>
                setUnits
                  (forEachUnit ids
                     (ProductUnit.withSale AT_SELLER None None) (units s)) s
            | None =>
                let seller :=
                  BulkStock.isFor (Order.productId order) (Order.sellerId order) in
                match find seller (bulkStock s) with
                | Some _ =>
                    setBulkStock
                      (JS.updateFirst seller
                         (BulkStock.addQuantity (Order.quantity order))
                         (bulkStock s)) s
                | None =>
                    setBulkStock
                      (bulkStock s ++
                         [BulkStock.mk newId (Order.productId order)
                            (Order.sellerId order) (Order.quantity order)])%list
                      s
                end
            end in
          setOrders (JS.removeAt orderIndex (orders s)) s1
      | None => s
      end
  | None => s
  end.

(** ** Further operations of the service *)

Inductive UserRole : Type :=
| MANUFACTURER
| SELLER
| BUYER
| ADMIN.

(** [updateProductUnits]: a unit of the argument replaces the first unit
    that has its id; a unit with an unknown id is ignored. *)
Definition updateProductUnits (unitsToUpdate : list ProductUnit.t) (s : Store)
    : Store :=
  setUnits
    (fold_left
       (fun acc u =>
          match JS.findIndex (hasId (ProductUnit.id u)) acc with
          | Some _ => JS.updateFirst (hasId (ProductUnit.id u)) (fun _ => u) acc
          | None => acc
          end)
       unitsToUpdate (units s)) s.

(** The loop of [deleteProduct] over the units it deletes: the pool and
    the flag [settingsChanged]. *)
Definition recycleSerial (acc : list Z * bool) (u : ProductUnit.t)
    : list Z * bool :=
  match JS.parseInt (ProductUnit.serialNumber u) with
  | Some num =>
      if negb (JS.includesZ (fst acc) num) then ((fst acc ++ [num])%list, true)
      else acc
  | None => acc
  end.

Definition ofProduct (productId : string) (u : ProductUnit.t) : bool :=
  (ProductUnit.productId u =? productId)%string.

Definition deleteProduct (productId : string) (s : Store) : Store * bool :=
  let unitList := units s in
  let unitsToDelete := filter (ofProduct productId) unitList in
  let settings := getGlobalSettings s in
  let '(pool, settingsChanged) :=
    fold_left recycleSerial unitsToDelete
      (GlobalSettings.recycledSerials settings, false) in
  let s1 :=
    if settingsChanged
    then saveGlobalSettings (GlobalSettings.withRecycled pool settings) s
    else s in
  let s2 :=
    setProducts
      (filter (fun p => negb (productHasId productId p)) (products s1)) s1 in
  let s3 :=
    setUnits (filter (fun u => negb (ofProduct productId u)) unitList) s2 in
  (setBulkStock
     (filter (fun st => negb (BulkStock.productId st =? productId)%string)
        (bulkStock s3)) s3,
   true).

(** ** Inventory getters *)

Definition isStockHeldBy (productId ownerId : string) (u : ProductUnit.t)
    : bool :=
  (ProductUnit.productId u =? productId)%string
  && (((ProductUnit.manufacturerId u =? ownerId)%string
       && UnitStatus_eqb (ProductUnit.status u) IN_FACTORY)
      || (JS.strictEq (ProductUnit.sellerId u) (Some ownerId)
          && (UnitStatus_eqb (ProductUnit.status u) AT_SELLER
              || UnitStatus_eqb (ProductUnit.status u) RETURNED_TO_SELLER))).

Definition getProductStockForOwner (productId ownerId : string)
    (isSerialized : bool) (s : Store) : Z :=
  if isSerialized then
    Z.of_nat (List.length (filter (isStockHeldBy productId ownerId) (units s)))
  else
    match find (BulkStock.isFor productId ownerId) (bulkStock s) with
    | Some stock => BulkStock.quantity stock
    | None => 0
    end.

Definition UserRole_eqb (a b : UserRole) : bool :=
  match a, b with
  | MANUFACTURER, MANUFACTURER | SELLER, SELLER | BUYER, BUYER
  | ADMIN, ADMIN => true
  | _, _ => false
  end.

(** [getProductsWithStock]: a product with its [quantity] field. *)
Definition getProductsWithStock (ownerId : string) (role : UserRole)
    (s : Store) : list (Product.t * Z) :=
  flat_map
    (fun p =>
       let quantity :=
         getProductStockForOwner (Product.id p) ownerId
           (Product.isSerialized p) s in
       if UserRole_eqb role MANUFACTURER
          && negb (Product.manufacturerId p =? ownerId)%string
       then []
       else if UserRole_eqb role MANUFACTURER || (0 <? quantity)
            then [(p, quantity)]
            else [])
    (products s).

Definition getProductsForManufacturer (manufacturerId : string) (s : Store)
    : list (Product.t * Z) :=
  getProductsWithStock manufacturerId MANUFACTURER s.

Definition getProductsForSeller (sellerId : string) (s : Store)
    : list (Product.t * Z) :=
  getProductsWithStock sellerId SELLER s.

(** The argument [ownerIdField] of [getAvailableSerialNumbers]. *)
Inductive OwnerField : Type :=
| manufacturerIdField
| sellerIdField.

Definition ownerOf (field : OwnerField) (u : ProductUnit.t) : option string :=
  match field with
  | manufacturerIdField => Some (ProductUnit.manufacturerId u)
  | sellerIdField => ProductUnit.sellerId u
  end.

Definition getAvailableSerialNumbers (productId : string) (status : UnitStatus)
    (ownerIdField : OwnerField) (ownerId : string) (s : Store)
    : list ProductUnit.t :=
  filter
    (fun u =>
       (ProductUnit.productId u =? productId)%string
       && UnitStatus_eqb (ProductUnit.status u) status
       && JS.strictEq (ownerOf ownerIdField u) (Some ownerId))
    (units s).

(** ** Cart management *)

(** [localStorage.setItem(CART_KEY_PREFIX + userId, ...)]. *)
Definition setCart (userId : string) (cart : list CartItem.t) (s : Store)
    : Store :=
  let isKey := fun kv : string * list CartItem.t => (fst kv =? userId)%string in
  mkStore (products s) (units s) (bulkStock s) (orders s)
    (match find isKey (carts s) with
     | Some _ => JS.updateFirst isKey (fun _ => (userId, cart)) (carts s)
     | None => (carts s ++ [(userId, cart)])%list
     end)
    (settings s).

(** The predicate [c.productId === item.productId &&
    c.sellerId === item.sellerId]. *)
Definition sameLine (item c : CartItem.t) : bool :=
  (CartItem.productId c =? CartItem.productId item)%string
  && JS.strictEq (CartItem.sellerId c) (CartItem.sellerId item).

(** What [addToCart] makes of the line it finds. *)
Definition mergeLine (item existing : CartItem.t) : CartItem.t :=
  let unitIds :=
    match CartItem.unitIds item with
    | Some ids =>
        if (0 <? List.length ids)%nat then
          let existingUnits :=
            match CartItem.unitIds existing with
            | Some l => l
            | None => []
            end in
          let newUnits :=
            filter (fun id => negb (JS.includes existingUnits id)) ids in
          Some (existingUnits ++ newUnits)%list
        else CartItem.unitIds existing
    | None => CartItem.unitIds existing
    end in
  CartItem.mk (CartItem.id existing) (CartItem.productId existing)
    (CartItem.productName existing)
    (CartItem.quantity existing + CartItem.quantity item)
    (CartItem.isSerialized existing) unitIds (CartItem.sellerId existing).

Definition addToCart (userId : string) (item : CartItem.t) (s : Store)
    : Store :=
  let cart := getCart userId s in
  match find (sameLine item) cart with
  | Some _ =>
      setCart userId (JS.updateFirst (sameLine item) (mergeLine item) cart) s
  | None => setCart userId (cart ++ [item])%list s
  end.

Definition removeFromCart (userId itemId : string) (s : Store) : Store :=
  setCart userId
    (filter (fun c => negb (CartItem.id c =? itemId)%string)
       (getCart userId s)) s.

Definition clearCart (userId : string) (s : Store) : Store :=
  removeCart userId s.

(** ** Further returns and order functions *)

Section Today.

Variable today : string.

Definition markDefective (u : ProductUnit.t) : ProductUnit.t :=
  ProductUnit.mk (ProductUnit.id u) (ProductUnit.productId u)
    (ProductUnit.serialNumber u) RETURNED_DEFECTIVE
    (ProductUnit.uniqueAuthHash u) (ProductUnit.manufacturerId u)
    (ProductUnit.sellerId u) (ProductUnit.buyerId u)
    (ProductUnit.manufacturingDate u) (ProductUnit.dateSentToSeller u)
    (ProductUnit.dateSold u) (Some today).

Definition returnUnitsToManufacturer (unitIds : list string) (s : Store)
    : Store :=
  setUnits (forEachUnit unitIds markDefective (units s)) s.

End Today.

Definition saveOrder (order : Order.t) (s : Store) : Store :=
  let isIt := orderHasId (Order.id order) in
  match JS.findIndex isIt (orders s) with
  | Some _ => setOrders (JS.updateFirst isIt (fun _ => order) (orders s)) s
  | None => setOrders (orders s ++ [order])%list s
  end.

Definition getOrdersForSeller (sellerId : string) (s : Store) : list Order.t :=
  filter (fun o => (Order.sellerId o =? sellerId)%string) (orders s).

Definition getOrdersForBuyer (buyerId : string) (s : Store) : list Order.t :=
  filter (fun o => (Order.buyerId o =? buyerId)%string) (orders s).

(** [verifyProductIdentity]: [Some unit] is [{ valid: true, unit }] and
    [None] is [{ valid: false }]. *)
Definition verifyProductIdentity (qrSerialNumber inputAuthCode : string)
    (s : Store) : option ProductUnit.t :=
  match
    find (fun u => (ProductUnit.serialNumber u =? qrSerialNumber)%string)
      (units s)
  with
  | Some unit =>
      if negb (JS.truthy (ProductUnit.uniqueAuthHash unit)) then None
      else if JS.strictEq (ProductUnit.uniqueAuthHash unit) (Some inputAuthCode)
           then Some unit
           else None
  | None => None
  end.

(** ** Vocabulary of the statements *)

(** The candidates [start, start + 1, ...] of the linear scan, [n] of them,
    and those among them that no live unit uses. *)
Definition candidates (start : Z) (n : nat) : list Z :=
  map (fun i => start + Z.of_nat i) (seq 0 n).

Definition isFree (used : list Z) (candidate : Z) : bool :=
  negb (JS.includesZ used candidate).

Definition freeCandidates (used : list Z) (start : Z) (n : nat) : list Z :=
  filter (isFree used) (candidates start n).

(** What the recycled pool yields to a request: the strings of the first
    loop of [generateNextSerialBatch]. *)
Definition poolYield (quantity : Z) (s : Store) : list string :=
  fst (drainRecycled (usedNumbers (units s)) quantity []
         (JS.sort (GlobalSettings.recycledSerials (getGlobalSettings s)))).

(** The size of the managed range [[serialRangeStart, serialRangeEnd]]. *)
Definition rangeSize (s : Store) : nat :=
  Z.to_nat (GlobalSettings.serialRangeEnd (getGlobalSettings s) + 1
            - GlobalSettings.serialRangeStart (getGlobalSettings s)).

(** The request cannot be met: pool and range together hold fewer than
    [quantity] usable numbers. *)
Definition cannotProduce (quantity : Z) (s : Store) : Prop :=
  Z.of_nat (List.length (poolYield quantity s))
  + Z.of_nat (List.length
      (freeCandidates (usedNumbers (units s))
         (GlobalSettings.serialRangeStart (getGlobalSettings s))
         (rangeSize s)))
  < quantity.

Definition recycledPool (s : Store) : list Z :=
  GlobalSettings.recycledSerials (getGlobalSettings s).

(** A unit in status IN_FACTORY with the given id and serial number. *)
Definition factoryUnit (id serialNumber : string) : ProductUnit.t :=
  ProductUnit.mk id "P1" serialNumber IN_FACTORY None "M1" None None
    "2024-01-01" None None None.

Definition emptyStore (g : option GlobalSettings.t) : Store :=
  mkStore [] [] [] [] [] g.

(** The range [[100000, 100002]] with an empty pool, before and after its
    three serials are in use. *)
Definition smallRange : Store :=
  emptyStore (Some (GlobalSettings.mk 100000 100002 [])).

Definition smallRangeFull : Store :=
  setUnits [factoryUnit "u1" "100000"; factoryUnit "u2" "100001";
            factoryUnit "u3" "100002"] smallRange.

(** A store with one live unit of serial 100000 and the default settings. *)
Definition oneUnitStore : Store :=
  setUnits [factoryUnit "u1" "100000"] (emptyStore None).

(** A pool whose lowest number, 100001, is in use by a live unit. *)
Definition stalePool : Store :=
  setUnits [factoryUnit "u1" "100001"]
    (emptyStore (Some (GlobalSettings.mk 100000 100999 [100005; 100001]))).

Definition stalePoolAfter : Store :=
  setUnits [factoryUnit "u1" "100001"]
    (emptyStore (Some (GlobalSettings.mk 100000 100999 []))).

(** No two live units share a serial number. *)
Definition serialsUnique (s : Store) : Prop :=
  NoDup (map ProductUnit.serialNumber (units s)).

Definition serializedProduct : Product.t := Product.mk "P1" "Watch" "M1" true.

Definition newUnit (id serialNumber : string) : PartialUnit.t :=
  PartialUnit.mk id "P1" (Some serialNumber) IN_FACTORY (Some "M1") "2024-01-01".

(** The units a seller can sell of a line item, and the first bulk counter
    of the seller for it, as step A of [processCheckout] reads them. *)
Definition availableFor (s : Store) (item : CartItem.t) : list ProductUnit.t :=
  filter (isAvailable (CartItem.productId item)
            (validationSeller (products s) item)) (units s).

Definition counterFor (s : Store) (item : CartItem.t) : option BulkStock.t :=
  find (isStockOf (CartItem.productId item)
          (validationSeller (products s) item)) (bulkStock s).

(** A line item is short: no seller can be resolved for it, or its seller
    holds fewer sellable units than it asks for, or the seller's bulk
    counter is missing or below the quantity. *)
Definition lineShort (s : Store) (item : CartItem.t) : Prop :=
  JS.truthy (validationSeller (products s) item) = false
  \/ (CartItem.isSerialized item = true
      /\ Z.of_nat (List.length (availableFor s item)) < CartItem.quantity item)
  \/ (CartItem.isSerialized item = false
      /\ match counterFor s item with
         | Some stock => BulkStock.quantity stock < CartItem.quantity item
         | None => True
         end).

(** The error of a short line item: its message names the product and, for
    serialized stock, the quantity requested and the quantity available. *)
Definition shortfallError (s : Store) (item : CartItem.t) (e : string) : Prop :=
  e = errNoSeller item
  \/ e = errInsufficientStock item (List.length (availableFor s item))
  \/ e = errInsufficientBulk item.

(** A buyer, a bulk product made by M1, and a shop where seller S1 holds
    two of it. *)
Definition buyer : User.t := User.mk "B1" "buyer@example.com" "Asha".

Definition bulkProduct : Product.t := Product.mk "P2" "Rice" "M1" false.

Definition bulkLine (id : string) (quantity : Z) (seller : option string)
    : CartItem.t :=
  CartItem.mk id "P2" "Rice" quantity false None seller.

Definition shopOfTwo : Store :=
  mkStore [bulkProduct] [] [BulkStock.mk "b1" "P2" "S1" 2] []
    [("B1", [bulkLine "c1" 3 (Some "S1")])] None.

(** No bulk counter is negative. *)
Definition bulkNonNegative (s : Store) : Prop :=
  Forall (fun st => 0 <= BulkStock.quantity st) (bulkStock s).

(** The manufacturer M1 holds five of the bulk product; the cart asks for
    three from M1 by name and for three more in a line without a seller,
    which step A resolves to M1 as well. *)
Definition sharedCounterCart : list CartItem.t :=
  [bulkLine "c1" 3 (Some "M1"); bulkLine "c2" 3 None].

Definition sharedCounterShop : Store :=
  mkStore [bulkProduct] [] [BulkStock.mk "b1" "P2" "M1" 5] []
    [("B1", sharedCounterCart)] None.

Definition orderIds (k : nat) : string := "order-" ++ JS.toString (Z.of_nat k).

(** The units an order has reserved, none when the field is absent. *)
Definition reservedUnits (o : Order.t) : list string :=
  match Order.assignedUnitIds o with
  | Some ids => ids
  | None => []
  end.

(** In [s'] the order [orderId] has status [st], and each unit of [s] that
    [ids] names has become [f] of what it was. *)
Definition appliedTo (s s' : Store) (orderId : string) (st : OrderStatus)
    (ids : list string) (f : ProductUnit.t -> ProductUnit.t) : Prop :=
  option_map Order.status (find (orderHasId orderId) (orders s')) = Some st
  /\ forall uid u,
       In uid ids -> find (hasId uid) (units s) = Some u ->
       find (hasId uid) (units s') = Some (f u).

(** A unit of product P1 made by M1, held by seller S1 in a given status and
    with a given buyer and sale date. *)
Definition sellerUnit (id : string) (st : UnitStatus) (buyerId dateSold : option string)
    : ProductUnit.t :=
  ProductUnit.mk id "P1" ("SN-" ++ id) st None "M1" (Some "S1") buyerId
    "2024-01-01" (Some "2024-01-05") dateSold None.

Definition orderOf (id : string) (quantity : Z) (st : OrderStatus)
    (assigned : option (list string)) : Order.t :=
  Order.mk id "P1" "Watch" "S1" "B1" "Asha" quantity st assigned
    "2024-01-10" None None.

(** A delivered order whose unit the buyer holds, and an order whose return
    was accepted, with its unit back at the seller. *)
Definition deliveredShop : Store :=
  mkStore [serializedProduct]
    [sellerUnit "u1" SOLD_TO_BUYER (Some "B1") (Some "2024-01-10");
     sellerUnit "u2" RETURNED_TO_SELLER (Some "B1") (Some "2024-01-10")] []
    [orderOf "o1" 1 Delivered (Some ["u1"]);
     orderOf "o2" 1 Returned (Some ["u2"])] [] None.

(** An order for one unit with nothing reserved, and two units of which
    neither is in status AT_SELLER. *)
Definition unreservedShop : Store :=
  mkStore [serializedProduct]
    [factoryUnit "u1" "100000";
     sellerUnit "u2" RETURN_REQUESTED (Some "B0") (Some "2023-12-01")] []
    [orderOf "o1" 1 AwaitingConfirmation None] [] None.

(** Congruence modulo 2^32, the state space of the signature hash. *)
Definition eq32 (x y : Z) : Prop := x mod 2 ^ 32 = y mod 2 ^ 32.

(** The string has no occurrence of the character. *)
Fixpoint freeOf (sep : ascii) (s : string) : bool :=
  match s with
  | EmptyString => true
  | String c r => negb (Ascii.eqb c sep) && freeOf sep r
  end.

(** The string with its character at position [i] replaced by [c]. *)
Fixpoint alter (i : nat) (c : ascii) (s : string) : string :=
  match s, i with
  | EmptyString, _ => EmptyString
  | String _ r, O => String c r
  | String a r, S j => String a (alter j c r)
  end.

(** The three verdicts of a failed validation. *)
Definition qrForged : QRValidation := mkQRValidation false None (Some errForgedQR).
Definition qrMalformed : QRValidation := mkQRValidation false None (Some errMalformedQR).
Definition qrExternal : QRValidation := mkQRValidation false None (Some errExternalQR).

(** What a line item takes from a bulk counter in step C, and what a whole
    cart takes from it. *)
Definition takes (products : list Product.t) (item : CartItem.t)
    (st : BulkStock.t) : Z :=
  let sellerId := executionSeller products item in
  if JS.truthy sellerId && negb (CartItem.isSerialized item)
     && isStockOf (CartItem.productId item) sellerId st
  then CartItem.quantity item
  else 0.

Definition drawn (products : list Product.t) (cart : list CartItem.t)
    (st : BulkStock.t) : Z :=
  fold_right (fun item total => takes products item st + total) 0 cart.

(** The orders a checkout that took [s] to [s1] has created. *)
Definition createdOrders (s s1 : Store) : list Order.t :=
  skipn (List.length (orders s)) (orders s1).

(** What cancellation makes of a reserved unit. *)
Definition released (u : ProductUnit.t) : ProductUnit.t :=
  ProductUnit.withSale AT_SELLER None None u.

(** Seller S1 holds one unit that came back from a buyer, and a cart asks
    for one unit of the product from S1. *)
Definition serializedLine (id : string) (quantity : Z) : CartItem.t :=
  CartItem.mk id "P1" "Watch" quantity true None (Some "S1").

Definition returnedShop : Store :=
  mkStore [serializedProduct]
    [sellerUnit "u1" RETURNED_TO_SELLER (Some "B0") (Some "2023-12-01")] [] []
    [("B1", [serializedLine "c1" 1])] None.

(** The same with a unit that was never sold. *)
Definition freshShop : Store :=
  mkStore [serializedProduct] [sellerUnit "u1" AT_SELLER None None] [] []
    [("B1", [serializedLine "c1" 1])] None.

(** A new order belongs to a line of the cart. *)
Definition orderOfLine (ps : list Product.t) (item : CartItem.t) (o : Order.t)
    : Prop :=
  Order.productId o = CartItem.productId item
  /\ Order.quantity o = CartItem.quantity item
  /\ executionSeller ps item = Some (Order.sellerId o)
  /\ (Order.assignedUnitIds o = None -> CartItem.isSerialized item = false).

(** The order that the checkout of [freshShop] creates. *)
Definition freshOrder : Order.t :=
  Order.mk (orderIds 0) "P1" "Watch" "S1" "B1" "Asha" 1 AwaitingConfirmation
    (Some ["u1"]) "2024-01-02" None None.

(** An update of a unit that keeps its id. *)
Definition keepsId (f : ProductUnit.t -> ProductUnit.t) : Prop :=
  forall u, ProductUnit.id (f u) = ProductUnit.id u.

(** The total that the counters of a product hold, over all owners. *)
Definition totalFor (productId : string) (stock : list BulkStock.t) : Z :=
  fold_right
    (fun st total =>
       (if (BulkStock.productId st =? productId)%string
        then BulkStock.quantity st else 0) + total)
    0 stock.

(** The key of a counter, and the stores with one counter per key. *)
Definition counterKey (st : BulkStock.t) : string * string :=
  (BulkStock.productId st, BulkStock.ownerId st).

Definition countersUnique (s : Store) : Prop :=
  NoDup (map counterKey (bulkStock s)).

(** [transferBulkStock] accepts the transfer: the source has a counter that
    holds the quantity. *)
Definition transferAccepted (productId fromOwnerId : string) (quantity : Z)
    (s : Store) : bool :=
  match find (BulkStock.isFor productId fromOwnerId) (bulkStock s) with
  | Some sourceStock => BulkStock.quantity sourceStock >=? quantity
  | None => false
  end.

(** The bulk quantity the getter reports for an owner. *)
Definition bulkHeld (productId ownerId : string) (s : Store) : Z :=
  getProductStockForOwner productId ownerId false s.

(** The quantity of the first counter of a key among counters, zero when
    there is none. *)
Definition heldIn (productId ownerId : string) (stock : list BulkStock.t) : Z :=
  match find (BulkStock.isFor productId ownerId) stock with
  | Some st => BulkStock.quantity st
  | None => 0
  end.

(** The counter of the manufacturer of a product, which
    [returnBulkToManufacturer] credits when it finds it. *)
Definition manufacturerCounter (productId : string) (s : Store)
    : option BulkStock.t :=
  match find (productHasId productId) (products s) with
  | Some prod =>
      find (BulkStock.isFor productId (Product.manufacturerId prod))
        (bulkStock s)
  | None => None
  end.

Definition isSome {A} (x : option A) : bool :=
  match x with
  | Some _ => true
  | None => false
  end.

(** What identifies a unit: its id, serial number, product and
    manufacturer. *)
Definition identity (u : ProductUnit.t) : string * string * string * string :=
  (ProductUnit.id u, ProductUnit.serialNumber u, ProductUnit.productId u,
   ProductUnit.manufacturerId u).

Definition identities (s : Store) : list (string * string * string * string) :=
  map identity (units s).

(** What a checkout of [user] on [today] makes of a unit it sells, and the
    units a seller can sell. *)
Definition soldTo (today : string) (user : User.t) (u : ProductUnit.t)
    : ProductUnit.t :=
  ProductUnit.withSale SOLD_TO_BUYER (Some (User.id user)) (Some today) u.

Definition sellable (u : ProductUnit.t) : Prop :=
  ProductUnit.status u = AT_SELLER \/ ProductUnit.status u = RETURNED_TO_SELLER.

(** A unit is as it was, or was sellable and is now sold to the user. *)
Definition keptOrSold (today : string) (user : User.t)
    (u u' : ProductUnit.t) : Prop :=
  u' = u \/ (u' = soldTo today user u /\ sellable u).

Definition unitIdsUnique (s : Store) : Prop :=
  NoDup (map ProductUnit.id (units s)).

(** The counter a bulk line draws from, and the bulk lines of a cart. *)
Definition lineCounter (ps : list Product.t) (item : CartItem.t)
    : string * option string :=
  (CartItem.productId item, executionSeller ps item).

Definition bulkLines (cart : list CartItem.t) : list CartItem.t :=
  filter (fun item => negb (CartItem.isSerialized item)) cart.

(** The order that a checkout of [user] on [today] writes for a line. *)
Definition orderFor (today : string) (user : User.t) (ps : list Product.t)
    (item : CartItem.t) (o : Order.t) : Prop :=
  orderOfLine ps item o
  /\ Order.status o = AwaitingConfirmation
  /\ Order.buyerId o = User.id user
  /\ Order.buyerName o = User.name user
  /\ Order.productName o = CartItem.productName item
  /\ Order.dateOrdered o = today
  /\ Order.dateConfirmed o = None.

(** The key under which [addToCart] merges lines, and the quantity a cart
    holds under the key of a line. *)
Definition lineKey (c : CartItem.t) : string * option string :=
  (CartItem.productId c, CartItem.sellerId c).

Definition quantityOf (item : CartItem.t) (cart : list CartItem.t) : Z :=
  match find (sameLine item) cart with
  | Some c => CartItem.quantity c
  | None => 0
  end.

Definition orderIdsUnique (s : Store) : Prop :=
  NoDup (map Order.id (orders s)).

(** Seller S1 holds five of the bulk product and its manufacturer M1 holds
    one. *)
Definition returnShop : Store :=
  mkStore [bulkProduct] []
    [BulkStock.mk "b1" "P2" "S1" 5; BulkStock.mk "b2" "P2" "M1" 1] [] [] None.

(** The owner that [returnBulkToManufacturer] credits: the manufacturer of
    the product, when the product is in the catalogue and its manufacturer
    has a counter. *)
Definition creditedOwner (productId : string) (s : Store) (owner : string)
    : bool :=
  match find (productHasId productId) (products s) with
  | Some prod =>
      (owner =? Product.manufacturerId prod)%string
      && isSome (manufacturerCounter productId s)
  | None => false
  end.

(** * Properties *)

(** ** The serial allocator *)

Section Allocator.

Variable used : list Z.
Variable quantity : Z.

Lemma candidates_S start n :
  candidates start (S n) = start :: candidates (start + 1) n.
Proof.
  unfold candidates. simpl. rewrite Z.add_0_r. f_equal.
  rewrite <- seq_shift, map_map. apply map_ext. intros i. lia.
Qed.

Lemma freeCandidates_S start n :
  freeCandidates used start (S n) =
  if isFree used start
  then start :: freeCandidates used (start + 1) n
  else freeCandidates used (start + 1) n.
Proof. unfold freeCandidates. now rewrite candidates_S. Qed.

(** The scan throws when the free candidates left do not make up the
    request. *)
Lemma scanRange_short n : forall candidate generated,
  Z.of_nat (List.length generated)
  + Z.of_nat (List.length (freeCandidates used candidate n)) < quantity ->
  scanRange used quantity n candidate generated = Throw errRangeExhausted.
Proof.
  induction n as [|n IH]; intros candidate generated Hshort; simpl.
  - assert (Hlt : (Z.of_nat (List.length generated) <? quantity) = true)
      by (apply Z.ltb_lt; cbn in Hshort; lia).
    now rewrite Hlt.
  - rewrite freeCandidates_S in Hshort. unfold isFree in Hshort.
    assert (Hlt : (Z.of_nat (List.length generated) <? quantity) = true).
    { apply Z.ltb_lt.
      destruct (negb (JS.includesZ used candidate)); simpl in Hshort; lia. }
    rewrite Hlt. apply IH.
    destruct (negb (JS.includesZ used candidate)); simpl in *.
    + rewrite length_app. simpl. lia.
    + exact Hshort.
Qed.

(** The scan only appends to what the pool gave. *)
Lemma scanRange_appends n : forall candidate generated result,
  scanRange used quantity n candidate generated = Return result ->
  exists more, result = (generated ++ more)%list.
Proof.
  induction n as [|n IH]; intros candidate generated result; simpl.
  - destruct (Z.of_nat (List.length generated) <? quantity); [discriminate|].
    intros [= <-]. exists []. now rewrite app_nil_r.
  - destruct (Z.of_nat (List.length generated) <? quantity).
    + intros H. apply IH in H. destruct H as [more ->].
      destruct (negb (JS.includesZ used candidate)).
      * exists (JS.toString candidate :: more). now rewrite <- app_assoc.
      * now exists more.
    + intros [= <-]. exists []. now rewrite app_nil_r.
Qed.

(** The first loop splits the pool into the numbers it took and the
    numbers it left, and yields the free ones among those it took. *)
Lemma drainRecycled_split recycled : forall generated generated' left,
  drainRecycled used quantity generated recycled = (generated', left) ->
  exists taken,
    recycled = (taken ++ left)%list /\
    generated' =
      (generated ++ map JS.toString (filter (isFree used) taken))%list.
Proof.
  induction recycled as [|c rest IH]; intros generated generated' left; simpl.
  - intros [= <- <-]. exists []. simpl. now rewrite app_nil_r.
  - destruct (Z.of_nat (List.length generated) <? quantity).
    + destruct (negb (JS.includesZ used c)) eqn:Hfree; intros H;
        apply IH in H; destruct H as (taken & -> & ->);
        exists (c :: taken); simpl; unfold isFree at 2; rewrite Hfree;
        split; auto.
      now rewrite <- app_assoc.
    + intros [= <- <-]. exists []. simpl. now rewrite app_nil_r.
Qed.

(** The extent of what the first loop takes: the number at a position of
    the list is taken exactly when the batch is still short on reaching it,
    that is, when fewer free numbers than are wanted stand before it. *)
Lemma drainRecycled_extent recycled : forall generated generated' left,
  drainRecycled used quantity generated recycled = (generated', left) ->
  exists taken,
    recycled = (taken ++ left)%list
    /\ generated' =
         (generated ++ map JS.toString (filter (isFree used) taken))%list
    /\ forall front x back,
         recycled = (front ++ x :: back)%list ->
         ((List.length front < List.length taken)%nat <->
          Z.of_nat (List.length generated)
          + Z.of_nat (List.length (filter (isFree used) front)) < quantity).
Proof.
  induction recycled as [|c rest IH]; intros generated generated' left; simpl.
  - intros [= <- <-]. exists []. simpl. rewrite app_nil_r.
    repeat split; auto; now destruct front.
  - destruct (Z.ltb_spec (Z.of_nat (List.length generated)) quantity)
      as [Hshort|Henough].
    + destruct (negb (JS.includesZ used c)) eqn:Hfree; intros H;
        apply IH in H; destruct H as (taken & -> & -> & Hextent);
        exists (c :: taken); simpl; unfold isFree at 2; rewrite Hfree;
        (split; [reflexivity|]); (split; [now rewrite <- ?app_assoc|]);
        intros [|f front] x back; simpl; intros [= <- Hrest];
        try (split; intros; lia);
        rewrite <- Nat.succ_lt_mono, (Hextent front x back Hrest);
        unfold isFree at 2; rewrite Hfree; simpl;
        rewrite ?length_app; simpl; lia.
    + intros [= <- <-]. exists []. simpl. rewrite app_nil_r.
      repeat split; auto; simpl; lia.
Qed.

Lemma drainRecycled_enough generated recycled :
  quantity <= Z.of_nat (List.length generated) ->
  drainRecycled used quantity generated recycled = (generated, recycled).
Proof.
  intros H. apply Z.ltb_ge in H.
  destruct recycled; simpl; [reflexivity|now rewrite H].
Qed.

Lemma scanRange_enough n candidate generated :
  quantity <= Z.of_nat (List.length generated) ->
  scanRange used quantity n candidate generated = Return generated.
Proof. intros H. apply Z.ltb_ge in H. destruct n; simpl; now rewrite H. Qed.

(** With as much fuel as there are candidates up to [rangeEnd], the loop
    as written finishes, and [scanRange] is its result. *)
Lemma scanLoop_scanRange rangeEnd n : forall candidate generated,
  n = Z.to_nat (rangeEnd + 1 - candidate) ->
  scanLoop used quantity rangeEnd n candidate generated
  = Some (scanRange used quantity n candidate generated).
Proof.
  induction n as [|n IH]; intros candidate generated Hn; simpl.
  - destruct (Z.of_nat (List.length generated) <? quantity); [|reflexivity].
    assert (H : (candidate >? rangeEnd) = true) by (apply Z.gtb_lt; lia).
    now rewrite H.
  - destruct (Z.of_nat (List.length generated) <? quantity); [|reflexivity].
    assert (H : (candidate >? rangeEnd) = false).
    { destruct (Z.gtb_spec candidate rangeEnd); [lia|reflexivity]. }
    rewrite H. apply IH. lia.
Qed.

(** The scan returns when the free candidates make up the request. *)
Lemma scanRange_complete n : forall candidate generated,
  quantity <= Z.of_nat (List.length generated)
              + Z.of_nat (List.length (freeCandidates used candidate n)) ->
  exists result,
    scanRange used quantity n candidate generated = Return result.
Proof.
  induction n as [|n IH]; intros candidate generated Hfree; simpl.
  - assert (Hge : (Z.of_nat (List.length generated) <? quantity) = false)
      by (apply Z.ltb_ge; cbn in Hfree; lia).
    rewrite Hge. now exists generated.
  - destruct (Z.of_nat (List.length generated) <? quantity);
      [|now exists generated].
    apply IH. rewrite freeCandidates_S in Hfree. unfold isFree in Hfree.
    destruct (negb (JS.includesZ used candidate)); simpl in *.
    + rewrite length_app. simpl. lia.
    + exact Hfree.
Qed.

End Allocator.

Lemma insert_Permutation x l : Permutation (JS.insert x l) (x :: l).
Proof.
  induction l as [|y r IH]; simpl; [reflexivity|].
  destruct (x <=? y); [reflexivity|].
  rewrite IH. apply perm_swap.
Qed.

Lemma sort_Permutation l : Permutation (JS.sort l) l.
Proof.
  induction l as [|x r IH]; simpl; [reflexivity|].
  rewrite insert_Permutation. now constructor.
Qed.

(** The lowest number of the pool is at the front of the sorted pool. *)
Lemma sort_lowest_first l m :
  In m l -> (forall x, In x l -> m <= x) ->
  exists rest, JS.sort l = m :: rest.
Proof.
  induction l as [|a r IH]; intros Hin Hlow; [destruct Hin|]. simpl.
  destruct (Z.eq_dec a m) as [->|Hne].
  - destruct (JS.sort r) as [|y t] eqn:Hs; simpl; [now exists []|].
    assert (Hy : m <= y).
    { apply Hlow. right. apply (Permutation_in _ (sort_Permutation r)).
      rewrite Hs. now left. }
    apply Z.leb_le in Hy. rewrite Hy. now exists (y :: t).
  - destruct Hin as [Heq|Hin]; [contradiction|].
    destruct (IH Hin) as [t Ht]; [intros x Hx; apply Hlow; now right|].
    rewrite Ht. simpl.
    assert (Ha : m <= a) by (apply Hlow; now left).
    destruct (a <=? m) eqn:Hle; [apply Z.leb_le in Hle; lia|].
    now exists (JS.insert a t).
Qed.

Lemma includesZ_true_iff l x : JS.includesZ l x = true <-> In x l.
Proof.
  unfold JS.includesZ. rewrite existsb_exists. split.
  - intros (y & Hy & Heq). apply Z.eqb_eq in Heq. now subst.
  - intros H. exists x. split; [exact H|apply Z.eqb_refl].
Qed.

Lemma NoDup_app_disjoint {A} (l1 l2 : list A) x :
  NoDup (l1 ++ l2) -> In x l1 -> ~ In x l2.
Proof.
  induction l1 as [|a r IH]; simpl; intros Hnd Hin; [destruct Hin|].
  apply NoDup_cons_iff in Hnd. destruct Hnd as [Hna Hnd].
  destruct Hin as [->|Hin]; [|now apply IH].
  intros H2. apply Hna. apply in_or_app. now right.
Qed.

(** C6. When the pool and the range together hold fewer than [quantity]
    usable numbers, [generateNextSerialBatch quantity] throws the
    range-exhaustion error and leaves the whole store, reclaimed pool
    included, as it was; otherwise it returns.  In the range
    [[100000, 100002]] with an empty pool, a request for three serials
    returns 100000, 100001 and 100002, and once live units use them a request
    for one more throws. *)
Theorem range_exhaustion_allocates_nothing :
  (forall quantity s,
     cannotProduce quantity s ->
     generateNextSerialBatch quantity s = (s, Throw errRangeExhausted))
  /\ (forall quantity s,
       ~ cannotProduce quantity s ->
       exists s' serials,
         generateNextSerialBatch quantity s = (s', Return serials))
  /\ snd (generateNextSerialBatch 3 smallRange)
     = Return ["100000"; "100001"; "100002"]
  /\ generateNextSerialBatch 1 smallRangeFull
     = (smallRangeFull, Throw errRangeExhausted).
Proof.
  split; [|split; [|split; reflexivity]].
  - intros quantity s Hshort.
    unfold cannotProduce, poolYield, rangeSize in Hshort.
    unfold generateNextSerialBatch.
    destruct (drainRecycled (usedNumbers (units s)) quantity []
                (JS.sort (GlobalSettings.recycledSerials (getGlobalSettings s))))
      as [generated recycled].
    simpl in Hshort. now rewrite scanRange_short.
  - intros quantity s Hcan.
    unfold cannotProduce, poolYield, rangeSize in Hcan.
    unfold generateNextSerialBatch.
    destruct (drainRecycled (usedNumbers (units s)) quantity []
                (JS.sort (GlobalSettings.recycledSerials (getGlobalSettings s))))
      as [generated recycled].
    simpl in Hcan.
    destruct (scanRange_complete (usedNumbers (units s)) quantity
                (Z.to_nat
                   (GlobalSettings.serialRangeEnd (getGlobalSettings s) + 1
                    - GlobalSettings.serialRangeStart (getGlobalSettings s)))
                (GlobalSettings.serialRangeStart (getGlobalSettings s))
                generated) as [result Hresult]; [lia|].
    rewrite Hresult. eauto.
Qed.

Lemma range_exhaustion_witness :
  cannotProduce 1 smallRangeFull
  /\ generateNextSerialBatch 1 smallRangeFull
     = (smallRangeFull, Throw errRangeExhausted).
Proof.
  assert (H : cannotProduce 1 smallRangeFull) by (vm_compute; reflexivity).
  split; [exact H|].
  exact (proj1 range_exhaustion_allocates_nothing 1 smallRangeFull H).
Defined.

Lemma NoDup_app_disjoint_intro {A} (l : list A) x :
  NoDup l -> ~ In x l -> NoDup (l ++ [x]).
Proof.
  intros Hnd Hx. apply NoDup_app; [exact Hnd| |].
  - constructor; [intros []|constructor].
  - intros y Hy [<-|[]]. now apply Hx.
Qed.

(** Where unit ids are unique, every live unit is the one that
    [deleteProductUnit] finds under its id. *)
Lemma find_of_unique_id us u :
  NoDup (map ProductUnit.id us) -> In u us ->
  find (hasId (ProductUnit.id u)) us = Some u.
Proof.
  induction us as [|x r IH]; simpl; intros Hnd Hin; [destruct Hin|].
  apply NoDup_cons_iff in Hnd. destruct Hnd as [Hx Hnd]. unfold hasId at 1.
  destruct (String.eqb_spec (ProductUnit.id x) (ProductUnit.id u)) as [Heq|Hne].
  - destruct Hin as [->|Hin]; [reflexivity|].
    exfalso. apply Hx. rewrite Heq. now apply in_map.
  - destruct Hin as [->|Hin]; [congruence|]. now apply IH.
Qed.

(** C7. Deleting a live unit whose serial number parses as the number [S]
    removes the units with its id and puts [S] in the reclaimed pool, at its
    end, unless it is there already, whatever else the pool and the units
    hold; a pool without repetition stays so.  When [S] is then the lowest
    number of the pool and no remaining unit uses it, a request for one
    serial returns exactly [S]. *)
Theorem reclaim_round_trip unitId u S s :
  find (hasId unitId) (units s) = Some u ->
  JS.parseInt (ProductUnit.serialNumber u) = Some S ->
  let s1 := deleteProductUnit unitId s in
  units s1 = filter (fun x => negb (hasId unitId x)) (units s)
  /\ recycledPool s1 =
       (if JS.includesZ (recycledPool s) S then recycledPool s
        else (recycledPool s ++ [S])%list)
  /\ In S (recycledPool s1)
  /\ (NoDup (recycledPool s) -> NoDup (recycledPool s1))
  /\ ((forall x, In x (recycledPool s1) -> S <= x) ->
      JS.includesZ (usedNumbers (units s1)) S = false ->
      snd (generateNextSerialBatch 1 s1) = Return [JS.toString S]).
Proof.
  intros Hfind Hparse s1.
  assert (Hunits :
    units s1 = filter (fun x => negb (hasId unitId x)) (units s)).
  { unfold s1, deleteProductUnit. rewrite Hfind, Hparse.
    now destruct (negb (JS.includesZ _ S)). }
  assert (Hpool : recycledPool s1 =
    (if JS.includesZ (recycledPool s) S then recycledPool s
     else (recycledPool s ++ [S])%list)).
  { unfold s1, deleteProductUnit. rewrite Hfind, Hparse.
    unfold recycledPool, getGlobalSettings; simpl.
    destruct (JS.includesZ
                (GlobalSettings.recycledSerials
                   match settings s with
                   | Some g => g
                   | None => defaultSettings
                   end) S); reflexivity. }
  assert (Hin : In S (recycledPool s1)).
  { rewrite Hpool. destruct (JS.includesZ (recycledPool s) S) eqn:E.
    - now apply includesZ_true_iff.
    - apply in_or_app. right. now left. }
  split; [exact Hunits|]. split; [exact Hpool|]. split; [exact Hin|].
  split.
  - intros Hnd. rewrite Hpool.
    destruct (JS.includesZ (recycledPool s) S) eqn:E; [exact Hnd|].
    apply NoDup_app_disjoint_intro; [exact Hnd|].
    intros Hold. apply includesZ_true_iff in Hold. congruence.
  - intros Hlow Hfree.
    destruct (sort_lowest_first _ _ Hin Hlow) as [rest Hsort].
    unfold generateNextSerialBatch. fold (recycledPool s1). rewrite Hsort.
    simpl. rewrite Hfree. simpl.
    rewrite drainRecycled_enough by (simpl; lia).
    now rewrite scanRange_enough by (simpl; lia).
Qed.

(** C10 as stated does not hold in its last part: the number 100001 is
    skipped and dropped from the pool because a live unit uses it, and once
    that unit is deleted the number is reclaimed and allocated again. *)
Lemma skipped_serial_is_allocated_later :
  let s1 := fst (generateNextSerialBatch 1 stalePool) in
  let s2 := deleteProductUnit "u1" s1 in
  JS.sort (recycledPool stalePool) = [100001; 100005]
  /\ usedNumbers (units stalePool) = [100001]
  /\ snd (generateNextSerialBatch 1 stalePool) = Return ["100005"]
  /\ recycledPool s1 = []
  /\ recycledPool s2 = [100001]
  /\ snd (generateNextSerialBatch 1 s2) = Return ["100001"].
Proof. cbv zeta. repeat split; reflexivity. Qed.

(** A number at a position inside a prefix of a list is in the prefix. *)
Lemma In_prefix_position {A} (taken rest front back : list A) x :
  (taken ++ rest)%list = (front ++ x :: back)%list ->
  (List.length front < List.length taken)%nat -> In x taken.
Proof.
  intros Heq Hlt. apply (nth_error_In taken (List.length front)).
  rewrite <- (nth_error_app1 taken rest Hlt), Heq.
  rewrite nth_error_app2, Nat.sub_diag by lia. reflexivity.
Qed.

(** C10, amended. A successful [generateNextSerialBatch] persists the sorted
    pool without the numbers it took from its front.  The number at a
    position of the sorted pool is taken exactly when fewer free numbers
    than the quantity stand before it, which fixes how far the loop goes.
    The batch starts with the taken numbers that no live unit uses, and a
    taken number that a live unit uses is dropped all the same: when the
    pool had no repetition, no taken number is left in the persisted pool,
    and so a pooled number in use that the loop reaches is not in it. *)
Theorem drained_numbers_leave_pool quantity s s' generated :
  generateNextSerialBatch quantity s = (s', Return generated) ->
  let free := isFree (usedNumbers (units s)) in
  exists taken more,
    JS.sort (recycledPool s) = (taken ++ recycledPool s')%list
    /\ generated = (map JS.toString (filter free taken) ++ more)%list
    /\ (forall front x back,
          JS.sort (recycledPool s) = (front ++ x :: back)%list ->
          ((List.length front < List.length taken)%nat <->
           Z.of_nat (List.length (filter free front)) < quantity))
    /\ (NoDup (recycledPool s) ->
        forall x, In x taken -> ~ In x (recycledPool s'))
    /\ (NoDup (recycledPool s) ->
        forall front x back,
          JS.sort (recycledPool s) = (front ++ x :: back)%list ->
          Z.of_nat (List.length (filter free front)) < quantity ->
          free x = false ->
          ~ In x (recycledPool s') /\ In x taken).
Proof.
  unfold generateNextSerialBatch. fold (recycledPool s).
  destruct (drainRecycled (usedNumbers (units s)) quantity []
              (JS.sort (recycledPool s))) as [fromPool left] eqn:Hdrain.
  destruct (scanRange _ _ _ _ fromPool) as [result|e] eqn:Hscan;
    [|discriminate].
  intros [= <- <-]. cbv zeta.
  apply drainRecycled_extent in Hdrain.
  destruct Hdrain as (taken & Hsplit & -> & Hextent).
  apply scanRange_appends in Hscan. destruct Hscan as [more ->].
  assert (Hgone : NoDup (recycledPool s) ->
    forall x, In x taken -> ~ In x left).
  { intros Hnd x Hx. apply (NoDup_app_disjoint taken); [|exact Hx].
    rewrite <- Hsplit.
    apply (Permutation_NoDup (Permutation_sym (sort_Permutation _)) Hnd). }
  assert (Hpool :
    recycledPool
      (saveGlobalSettings
         (GlobalSettings.withRecycled left (getGlobalSettings s)) s) = left)
    by reflexivity.
  rewrite Hpool.
  exists taken, more. split; [exact Hsplit|]. split; [reflexivity|].
  split; [|split].
  - intros front x back Hpos. now rewrite (Hextent front x back Hpos).
  - exact Hgone.
  - intros Hnd front x back Hpos Hshort _.
    assert (Hx : In x taken).
    { apply (In_prefix_position taken left front back).
      - now rewrite <- Hsplit.
      - apply (Hextent front x back Hpos). simpl. lia. }
    split; [now apply Hgone|exact Hx].
Qed.

Lemma reclaim_round_trip_witness :
  find (hasId "u1") (units oneUnitStore) = Some (factoryUnit "u1" "100000")
  /\ recycledPool (deleteProductUnit "u1" oneUnitStore) = [100000]
  /\ snd (generateNextSerialBatch 1 (deleteProductUnit "u1" oneUnitStore))
     = Return ["100000"].
Proof.
  split; [reflexivity|].
  pose (H := reclaim_round_trip "u1" (factoryUnit "u1" "100000") 100000
               oneUnitStore eq_refl eq_refl).
  split; [exact (proj1 (proj2 H))|].
  refine (proj2 (proj2 (proj2 (proj2 H))) _ eq_refl).
  simpl. intros x [<-|[]]. lia.
Defined.

Lemma drained_numbers_leave_pool_witness :
  generateNextSerialBatch 1 stalePool = (stalePoolAfter, Return ["100005"])
  /\ exists taken more,
       JS.sort (recycledPool stalePool)
       = (taken ++ recycledPool stalePoolAfter)%list
       /\ ["100005"] =
            (map JS.toString
               (filter (isFree (usedNumbers (units stalePool))) taken)
             ++ more)%list
       /\ (forall front x back,
             JS.sort (recycledPool stalePool) = (front ++ x :: back)%list ->
             ((List.length front < List.length taken)%nat <->
              Z.of_nat
                (List.length
                   (filter (isFree (usedNumbers (units stalePool))) front))
              < 1))
       /\ (NoDup (recycledPool stalePool) ->
           forall x, In x taken -> ~ In x (recycledPool stalePoolAfter))
       /\ (NoDup (recycledPool stalePool) ->
           forall front x back,
             JS.sort (recycledPool stalePool) = (front ++ x :: back)%list ->
             Z.of_nat
               (List.length
                  (filter (isFree (usedNumbers (units stalePool))) front))
             < 1 ->
             isFree (usedNumbers (units stalePool)) x = false ->
             ~ In x (recycledPool stalePoolAfter) /\ In x taken).
Proof.
  split; [reflexivity|].
  exact (drained_numbers_leave_pool 1 stalePool stalePoolAfter ["100005"]
           eq_refl).
Defined.

(** C3. Serial uniqueness fails on the code.  A unit with serial 100000 is
    created and deleted, which puts 100000 in the reclaimed pool; the next
    request for two serials returns 100000 twice, once from the pool and once
    from the scan of the range, and the batch saved from it holds two live
    units with one serial number. *)
Theorem serial_batch_repeats_reclaimed_serial
    (generateSecureHash : string -> string -> string) :
  let save := saveProductBatch generateSecureHash "b1" serializedProduct in
  let s1 := save 1 [newUnit "u1" "100000"] (emptyStore None) in
  let s2 := deleteProductUnit "u1" s1 in
  let s3 := fst (generateNextSerialBatch 2 s2) in
  let s4 := save 2 [newUnit "u2" "100000"; newUnit "u3" "100000"] s3 in
  snd (generateNextSerialBatch 1 (emptyStore None)) = Return ["100000"]
  /\ serialsUnique s1
  /\ units s2 = [] /\ recycledPool s2 = [100000]
  /\ snd (generateNextSerialBatch 2 s2) = Return ["100000"; "100000"]
  /\ map ProductUnit.serialNumber (units s4) = ["100000"; "100000"]
  /\ ~ serialsUnique s4.
Proof.
  cbv zeta. repeat split; try reflexivity.
  - unfold serialsUnique. simpl. repeat constructor. intros [].
  - unfold serialsUnique. simpl. intros H.
    apply NoDup_cons_iff in H. apply (proj1 H). now left.
Qed.

(** ** Checkout *)

Lemma validateItem_short s item :
  validateItem (products s) (units s) (bulkStock s) item <> None <->
  lineShort s item.
Proof.
  unfold validateItem, lineShort, availableFor, counterFor.
  destruct (JS.truthy (validationSeller (products s) item)); simpl.
  2:{ split; [now left|discriminate]. }
  destruct (CartItem.isSerialized item).
  - destruct (Z.ltb_spec
      (Z.of_nat (List.length
         (filter (isAvailable (CartItem.productId item)
                    (validationSeller (products s) item)) (units s))))
      (CartItem.quantity item)).
    + split; [intros _; right; left; now split|discriminate].
    + split; [congruence|].
      intros [H0|[[_ H1]|[H1 _]]]; try discriminate; lia.
  - destruct (find _ (bulkStock s)) as [stock|].
    + destruct (Z.ltb_spec (BulkStock.quantity stock) (CartItem.quantity item)).
      * split; [intros _; right; right; now split|discriminate].
      * split; [congruence|].
        intros [H0|[[H1 _]|[_ H1]]]; try discriminate; lia.
    + split; [intros _; right; right; now split|discriminate].
Qed.

Lemma validateItem_error s item e :
  validateItem (products s) (units s) (bulkStock s) item = Some e ->
  shortfallError s item e.
Proof.
  unfold validateItem, shortfallError, availableFor.
  destruct (negb _); [intros [= <-]; now left|].
  destruct (CartItem.isSerialized item).
  - destruct (_ <? _); [intros [= <-]; right; now left|discriminate].
  - destruct (find _ _) as [stock|]; [destruct (_ <? _)|];
      try discriminate; intros [= <-]; right; now right.
Qed.

(** Step A throws the error of the first line item that fails, and writes
    nothing. *)
Lemma validateCart_throws ps us bs cart s :
  (exists item, In item cart /\ validateItem ps us bs item <> None) ->
  exists item e,
    In item cart /\ validateItem ps us bs item = Some e
    /\ validateCart ps us bs cart s = (s, Throw e).
Proof.
  induction cart as [|item rest IH]; intros (bad & Hin & Hbad);
    [destruct Hin|]. simpl.
  destruct (validateItem ps us bs item) as [e|] eqn:Hv.
  - exists item, e. repeat split; auto.
  - destruct Hin as [->|Hin]; [congruence|].
    destruct IH as (it & e & Hit & Hval & Hthrow); [now exists bad|].
    exists it, e. repeat split; auto.
Qed.

(** C1. Checkout is all-or-nothing.  When a line item of the cart is short
    (no seller resolvable, fewer sellable units than requested at its seller,
    or a bulk counter that is missing or too low), [processCheckout] throws
    the error of a short line item of that cart, whose message names it, and
    the store it leaves is the store it found: units, bulk stock, orders and
    the carts are unchanged. *)
Theorem checkout_all_or_nothing today generateId user cart s :
  (exists item, In item cart /\ lineShort s item) ->
  exists item e,
    In item cart /\ lineShort s item /\ shortfallError s item e
    /\ processCheckout today generateId user cart s = (s, Throw e).
Proof.
  intros (bad & Hin & Hshort).
  destruct (validateCart_throws (products s) (units s) (bulkStock s) cart s)
    as (item & e & Hitem & Hval & Hthrow).
  { exists bad. split; [exact Hin|]. now apply validateItem_short. }
  exists item, e. split; [exact Hitem|]. split.
  - apply validateItem_short. congruence.
  - split; [now apply validateItem_error|].
    unfold processCheckout, bind, read. now rewrite Hthrow.
Qed.

Lemma checkout_all_or_nothing_witness :
  exists item e,
    In item [bulkLine "c1" 3 (Some "S1")]
    /\ lineShort shopOfTwo item /\ shortfallError shopOfTwo item e
    /\ processCheckout "2024-01-02" orderIds buyer
         [bulkLine "c1" 3 (Some "S1")] shopOfTwo
       = (shopOfTwo, Throw e).
Proof.
  apply checkout_all_or_nothing.
  exists (bulkLine "c1" 3 (Some "S1")). split; [now left|].
  right; right. split; [reflexivity|]. simpl. lia.
Defined.

(** C2. A checkout can drive a bulk counter below zero.  Each of the two
    lines of the cart asks for three of the five that M1 holds, so each
    passes step A, which compares every line with the stock as it was read;
    step C subtracts both, and the counter that was 5 is committed as -1. *)
Theorem checkout_overdraws_shared_counter :
  let s' := fst (processCheckout "2024-01-02" orderIds buyer
                   sharedCounterCart sharedCounterShop) in
  bulkNonNegative sharedCounterShop
  /\ (forall item, In item sharedCounterCart ->
        validateItem (products sharedCounterShop) (units sharedCounterShop)
          (bulkStock sharedCounterShop) item = None)
  /\ snd (processCheckout "2024-01-02" orderIds buyer
            sharedCounterCart sharedCounterShop) = Return tt
  /\ bulkStock s' = [BulkStock.mk "b1" "P2" "M1" (-1)]
  /\ ~ bulkNonNegative s'.
Proof.
  cbv zeta. split; [|split; [|split; [|split]]].
  - repeat constructor. simpl. lia.
  - intros item [<-|[<-|[]]]; reflexivity.
  - reflexivity.
  - reflexivity.
  - intros H. apply Forall_inv in H. simpl in H. lia.
Qed.

(** ** Lookups after an update through [find] *)

Section UpdateFirst.

Context {A : Type}.
Variable p : A -> bool.
Variable f : A -> A.
Hypothesis p_kept : forall x, p (f x) = p x.

Lemma find_updateFirst l :
  find p (JS.updateFirst p f l) = option_map f (find p l).
Proof.
  induction l as [|x r IH]; simpl; [reflexivity|].
  destruct (p x) eqn:Hp; simpl.
  - now rewrite p_kept, Hp.
  - now rewrite Hp.
Qed.

(** A lookup by a predicate that the updated element never satisfies. *)
Lemma find_updateFirst_other (q : A -> bool) l :
  (forall x, p x = true -> q x = false /\ q (f x) = false) ->
  find q (JS.updateFirst p f l) = find q l.
Proof.
  intros Hq. induction l as [|x r IH]; simpl; [reflexivity|].
  destruct (p x) eqn:Hp; simpl.
  - destruct (Hq x Hp) as [-> ->]. reflexivity.
  - now rewrite IH.
Qed.

Lemma findIndex_find l x :
  find p l = Some x ->
  exists i, JS.findIndex p l = Some i /\ nth_error l i = Some x.
Proof.
  induction l as [|y r IH]; simpl; [discriminate|].
  destruct (p y).
  - intros [= ->]. now exists O.
  - intros H. destruct (IH H) as (i & -> & Hn). now exists (S i).
Qed.

End UpdateFirst.

Lemma find_app_none {A} (p : A -> bool) l x :
  find p l = None -> find p (l ++ [x]) = if p x then Some x else None.
Proof.
  induction l as [|y r IH]; simpl; [reflexivity|].
  destruct (p y); [discriminate|exact IH].
Qed.

Lemma find_app_some {A} (p : A -> bool) l l' x :
  find p l = Some x -> find p (l ++ l') = Some x.
Proof.
  induction l as [|y r IH]; simpl; [discriminate|].
  destruct (p y); [auto|exact IH].
Qed.

Lemma withStatus_keepsId st : keepsId (ProductUnit.withStatus st).
Proof. intros u. reflexivity. Qed.

Lemma withSale_keepsId st b d : keepsId (ProductUnit.withSale st b d).
Proof. intros u. reflexivity. Qed.

Lemma includes_true_iff l x : JS.includes l x = true <-> In x l.
Proof.
  unfold JS.includes. rewrite existsb_exists. split.
  - intros (y & Hy & Heq). apply String.eqb_eq in Heq. now subst.
  - intros H. exists x. split; [exact H|apply String.eqb_refl].
Qed.

Lemma includes_false_iff l x : JS.includes l x = false <-> ~ In x l.
Proof.
  rewrite <- includes_true_iff. destruct (JS.includes l x); intuition congruence.
Qed.

Section ForEachUnit.

Variable f : ProductUnit.t -> ProductUnit.t.
Hypothesis f_keepsId : keepsId f.
Hypothesis f_idempotent : forall u, f (f u) = f u.

Lemma find_updateFirst_unit k k' us :
  find (hasId k) (JS.updateFirst (hasId k') f us) =
  if (k =? k')%string then option_map f (find (hasId k) us)
  else find (hasId k) us.
Proof.
  destruct (String.eqb_spec k k') as [->|Hne].
  - apply find_updateFirst. intros x. unfold hasId. now rewrite f_keepsId.
  - apply find_updateFirst_other. intros x Hx. unfold hasId in *.
    rewrite f_keepsId. apply String.eqb_eq in Hx. rewrite Hx.
    split; apply String.eqb_neq; congruence.
Qed.

(** After the loop, the first unit with an id of the list is [f] of what
    it was, and the first unit with any other id is what it was. *)
Lemma find_forEachUnit k ids : forall us,
  find (hasId k) (forEachUnit ids f us) =
  if JS.includes ids k then option_map f (find (hasId k) us)
  else find (hasId k) us.
Proof.
  unfold forEachUnit.
  induction ids as [|a ids IH]; intros us; simpl; [reflexivity|].
  rewrite IH, find_updateFirst_unit.
  destruct (k =? a)%string; simpl; [|reflexivity].
  destruct (JS.includes ids k); [|reflexivity].
  destruct (find (hasId k) us); simpl; [|reflexivity].
  now rewrite f_idempotent.
Qed.

Lemma forEachUnit_applies k ids us u :
  In k ids -> find (hasId k) us = Some u ->
  find (hasId k) (forEachUnit ids f us) = Some (f u).
Proof.
  intros Hin Hu. rewrite find_forEachUnit.
  apply includes_true_iff in Hin. now rewrite Hin, Hu.
Qed.

End ForEachUnit.

Lemma find_order_updated orderId g os order :
  (forall o, Order.id (g o) = Order.id o) ->
  find (orderHasId orderId) os = Some order ->
  find (orderHasId orderId) (JS.updateFirst (orderHasId orderId) g os)
  = Some (g order).
Proof.
  intros Hg Hfind. rewrite find_updateFirst, Hfind; [reflexivity|].
  intros x. unfold orderHasId. now rewrite Hg.
Qed.

(** ** Lifecycle triggers *)

(** C5 as stated does not hold: a return is requested on an order that is
    already Returned and whose unit is RETURNED_TO_SELLER, states the return
    request is not listed for, and the order and the unit are changed; an
    order that is already Delivered is cancelled, and it is deleted and its
    unit put back to AT_SELLER. *)
Lemma triggers_apply_from_unlisted_states :
  map ProductUnit.status (units deliveredShop)
  = [SOLD_TO_BUYER; RETURNED_TO_SELLER]
  /\ map Order.status (orders deliveredShop) = [Delivered; Returned]
  /\ map ProductUnit.status (units (requestOrderReturn "o2" deliveredShop))
     = [SOLD_TO_BUYER; RETURN_REQUESTED]
  /\ map Order.status (orders (requestOrderReturn "o2" deliveredShop))
     = [Delivered; ReturnRequested]
  /\ requestOrderReturn "o2" deliveredShop <> deliveredShop
  /\ map Order.id (orders (cancelOrder "b9" "o1" deliveredShop)) = ["o2"]
  /\ map ProductUnit.status (units (cancelOrder "b9" "o1" deliveredShop))
     = [AT_SELLER; RETURNED_TO_SELLER]
  /\ cancelOrder "b9" "o1" deliveredShop <> deliveredShop.
Proof. repeat split; try reflexivity; discriminate. Qed.

(** C5, amended. The engine has no state guard and raises no error: for an
    order that exists, whatever its status and the status of its units, a
    return request sets the order to Return Requested and its units to
    RETURN_REQUESTED, an accepted return sets them to Returned and
    RETURNED_TO_SELLER, a declined return to Delivered and SOLD_TO_BUYER,
    fulfilment sets the order to Confirmed, and cancellation deletes the
    order and puts its units in AT_SELLER with buyer and sale date
    cleared. *)
Theorem lifecycle_triggers_are_unguarded today newId unitIds s orderId order :
  find (orderHasId orderId) (orders s) = Some order ->
  let ids := reservedUnits order in
  appliedTo s (requestOrderReturn orderId s) orderId ReturnRequested ids
    (ProductUnit.withStatus RETURN_REQUESTED)
  /\ appliedTo s (processBuyerReturn orderId true s) orderId Returned ids
       (ProductUnit.withStatus RETURNED_TO_SELLER)
  /\ appliedTo s (processBuyerReturn orderId false s) orderId Delivered ids
       (ProductUnit.withStatus SOLD_TO_BUYER)
  /\ option_map Order.status
       (find (orderHasId orderId) (orders (fulfillOrder today orderId unitIds s)))
     = Some Confirmed
  /\ (exists i,
        nth_error (orders s) i = Some order
        /\ orders (cancelOrder newId orderId s) = JS.removeAt i (orders s))
  /\ (forall uid u,
        In uid ids -> find (hasId uid) (units s) = Some u ->
        find (hasId uid) (units (cancelOrder newId orderId s))
        = Some (ProductUnit.withSale AT_SELLER None None u)).
Proof.
  intros Hfind ids.
  assert (Hst : forall st,
    option_map Order.status
      (find (orderHasId orderId)
         (JS.updateFirst (orderHasId orderId) (Order.withStatus st) (orders s)))
    = Some st).
  { intros st. now rewrite (find_order_updated _ _ _ order). }
  assert (Hunits : forall st uid u,
    In uid ids -> find (hasId uid) (units s) = Some u ->
    find (hasId uid) (forEachUnit ids (ProductUnit.withStatus st) (units s))
    = Some (ProductUnit.withStatus st u)).
  { intros st uid u Hin Hu.
    apply forEachUnit_applies; auto using withStatus_keepsId. }
  unfold appliedTo, requestOrderReturn, processBuyerReturn, fulfillOrder,
    cancelOrder.
  rewrite Hfind.
  destruct (findIndex_find _ _ _ Hfind) as (i & Hi & Hnth). rewrite Hi, Hnth.
  unfold ids, reservedUnits in *.
  destruct (Order.assignedUnitIds order) as [assigned|]; simpl.
  - repeat split; auto.
    + destruct unitIds as [given|]; [destruct (_ =? 0)%nat|]; simpl;
        now rewrite (find_order_updated _ _ _ order).
    + now exists i.
    + intros uid u Hin Hu. destruct assigned as [|a r]; [destruct Hin|].
      simpl. apply forEachUnit_applies; auto using withSale_keepsId.
  - repeat split; try (intros uid u []); auto.
    + destruct (find _ (bulkStock s)); simpl; apply Hst.
    + destruct unitIds as [given|]; simpl;
        now rewrite (find_order_updated _ _ _ order).
    + exists i. now split.
Qed.

Lemma lifecycle_triggers_witness :
  find (orderHasId "o2") (orders deliveredShop)
  = Some (orderOf "o2" 1 Returned (Some ["u2"]))
  /\ appliedTo deliveredShop (requestOrderReturn "o2" deliveredShop) "o2"
       ReturnRequested ["u2"] (ProductUnit.withStatus RETURN_REQUESTED).
Proof.
  split; [reflexivity|].
  exact (proj1
    (lifecycle_triggers_are_unguarded "2024-02-01" "b9" None deliveredShop "o2"
       (orderOf "o2" 1 Returned (Some ["u2"])) eq_refl)).
Defined.

(** C9 as stated does not hold: an order for one unit receives two unit ids, of a
    unit IN_FACTORY and of a unit RETURN_REQUESTED, and both are accepted. *)
Lemma fulfil_accepts_any_units :
  let s' := fulfillOrder "2024-02-01" "o1" (Some ["u1"; "u2"]) unreservedShop in
  map Order.quantity (orders unreservedShop) = [1]
  /\ map ProductUnit.status (units unreservedShop)
     = [IN_FACTORY; RETURN_REQUESTED]
  /\ map Order.status (orders s') = [Confirmed]
  /\ map Order.assignedUnitIds (orders s') = [Some ["u1"; "u2"]]
  /\ map ProductUnit.status (units s') = [SOLD_TO_BUYER; SOLD_TO_BUYER].
Proof. cbv zeta. repeat split; reflexivity. Qed.

(** C9, amended. [fulfillOrder] checks neither the number nor the status of
    the unit ids it is given: for an order with no reserved units, any list
    of ids is recorded on the order, the order moves to Confirmed with the
    confirmation date, every unit the list names moves to SOLD_TO_BUYER with
    the buyer of the order and the sale date, and every other unit stays as
    it was. *)
Theorem fulfil_assigns_supplied_units today s orderId order ids :
  find (orderHasId orderId) (orders s) = Some order ->
  reservedUnits order = [] ->
  let s' := fulfillOrder today orderId (Some ids) s in
  find (orderHasId orderId) (orders s')
  = Some (Order.withAssignedUnitIds (Some ids)
            (Order.withConfirmation today order))
  /\ (forall uid u,
        In uid ids -> find (hasId uid) (units s) = Some u ->
        find (hasId uid) (units s')
        = Some (ProductUnit.withSale SOLD_TO_BUYER
                  (Some (Order.buyerId order)) (Some today) u))
  /\ (forall uid,
        ~ In uid ids ->
        find (hasId uid) (units s') = find (hasId uid) (units s)).
Proof.
  intros Hfind Hnone. cbv zeta. unfold fulfillOrder. rewrite Hfind.
  assert (Hguard :
    match Order.assignedUnitIds order with
    | Some l => (List.length l =? 0)%nat
    | None => true
    end = true).
  { unfold reservedUnits in Hnone.
    destruct (Order.assignedUnitIds order); [now subst|reflexivity]. }
  rewrite Hguard. simpl. split; [|split].
  - now apply (find_order_updated orderId
      (fun o => Order.withAssignedUnitIds (Some ids)
                  (Order.withConfirmation today o))).
  - intros uid u Hin Hu.
    apply forEachUnit_applies; auto using withSale_keepsId.
  - intros uid Hout. rewrite find_forEachUnit; auto using withSale_keepsId.
    apply includes_false_iff in Hout. now rewrite Hout.
Qed.

Lemma fulfil_assigns_supplied_units_witness :
  find (orderHasId "o1")
    (orders (fulfillOrder "2024-02-01" "o1" (Some ["u1"; "u2"]) unreservedShop))
  = Some (Order.withAssignedUnitIds (Some ["u1"; "u2"])
            (Order.withConfirmation "2024-02-01"
               (orderOf "o1" 1 AwaitingConfirmation None))).
Proof.
  exact (proj1
    (fulfil_assigns_supplied_units "2024-02-01" unreservedShop "o1"
       (orderOf "o1" 1 AwaitingConfirmation None) ["u1"; "u2"]
       eq_refl eq_refl)).
Defined.

(** ** The signature hash modulo 2^32 *)


Lemma toInt32_eq32 x : eq32 (JS.toInt32 x) x.
Proof.
  unfold eq32, JS.toInt32.
  change (2 ^ 32) with 4294967296. change (2 ^ 31) with 2147483648.
  pose proof (Z.mod_pos_bound (x + 2147483648) 4294967296 eq_refl) as Hb.
  remember ((x + 2147483648) mod 4294967296) as r eqn:Hr.
  assert (Hrx : r = x + 2147483648 - 4294967296 * ((x + 2147483648) / 4294967296)).
  { rewrite Hr, Zmod_eq_full by lia. lia. }
  rewrite Hrx.
  replace (x + 2147483648 - 4294967296 * ((x + 2147483648) / 4294967296) - 2147483648)
    with (x + (- ((x + 2147483648) / 4294967296)) * 4294967296) by lia.
  apply Z.mod_add. lia.
Qed.

Lemma lxor_mod32 a b :
  (Z.lxor a b) mod 2 ^ 32 = Z.lxor (a mod 2 ^ 32) (b mod 2 ^ 32).
Proof.
  apply Z.bits_inj'. intros n Hn. rewrite Z.lxor_spec.
  destruct (Z.lt_ge_cases n 32).
  - now rewrite !Z.mod_pow2_bits_low, Z.lxor_spec by lia.
  - now rewrite !Z.mod_pow2_bits_high by lia.
Qed.

Lemma lxor_cancel_r a b c : Z.lxor a c = Z.lxor b c -> a = b.
Proof.
  intros H. apply (f_equal (fun z => Z.lxor z c)) in H.
  now rewrite !Z.lxor_assoc, Z.lxor_nilpotent, !Z.lxor_0_r in H.
Qed.

Lemma lxor_cancel_l a b c : Z.lxor c a = Z.lxor c b -> a = b.
Proof. rewrite !(Z.lxor_comm c). apply lxor_cancel_r. Qed.

Lemma xor_eq32 a b :
  (JS.xor a b) mod 2 ^ 32 = Z.lxor (a mod 2 ^ 32) (b mod 2 ^ 32).
Proof.
  unfold JS.xor. rewrite toInt32_eq32, lxor_mod32.
  now rewrite !toInt32_eq32.
Qed.

Lemma imul_eq32 a b : (JS.imul a b) mod 2 ^ 32 = (a * b) mod 2 ^ 32.
Proof.
  unfold JS.imul. rewrite toInt32_eq32.
  rewrite Zmult_mod, !toInt32_eq32, <- Zmult_mod. reflexivity.
Qed.

(** The multiplier of the hash is odd: 2654435761 * 244002641 = 1 mod 2^32. *)
Lemma multiplier_cancel a b :
  (a * 2654435761) mod 2 ^ 32 = (b * 2654435761) mod 2 ^ 32 ->
  a mod 2 ^ 32 = b mod 2 ^ 32.
Proof.
  intros H.
  assert (Hinv : forall x,
    x mod 2 ^ 32 = ((x * 2654435761) mod 2 ^ 32 * 244002641) mod 2 ^ 32).
  { intros x. rewrite Z.mul_mod_idemp_l by lia.
    replace (x * 2654435761 * 244002641)
      with (x + x * 150801925 * 2 ^ 32) by (change (2 ^ 32) with 4294967296; lia).
    now rewrite Z.mod_add by lia. }
  now rewrite (Hinv a), (Hinv b), H.
Qed.

Lemma charCode_range c : 0 <= JS.charCode c < 2 ^ 32.
Proof.
  unfold JS.charCode. pose proof (N_ascii_bounded c). lia.
Qed.

Lemma charCode_inj c c' : JS.charCode c = JS.charCode c' -> c = c'.
Proof.
  unfold JS.charCode. intros H. apply N2Z.inj in H.
  rewrite <- (ascii_N_embedding c), <- (ascii_N_embedding c'). now f_equal.
Qed.

Lemma signatureStep_eq32 h c :
  (signatureStep h c) mod 2 ^ 32
  = (Z.lxor h (JS.charCode c) * 2654435761) mod 2 ^ 32.
Proof.
  unfold signatureStep. rewrite imul_eq32.
  rewrite <- (Z.mul_mod_idemp_l (JS.xor h (JS.charCode c))) by lia.
  rewrite xor_eq32, <- lxor_mod32.
  now rewrite Z.mul_mod_idemp_l by lia.
Qed.

(** One step of the hash is injective in the state ... *)
Lemma signatureStep_cancel h h' c :
  eq32 (signatureStep h c) (signatureStep h' c) -> eq32 h h'.
Proof.
  unfold eq32. rewrite !signatureStep_eq32. intros H.
  apply multiplier_cancel in H. rewrite !lxor_mod32 in H.
  now apply lxor_cancel_r in H.
Qed.

(** ... and in the character. *)
Lemma signatureStep_char h h' c c' :
  eq32 h h' -> eq32 (signatureStep h c) (signatureStep h' c') -> c = c'.
Proof.
  unfold eq32. rewrite !signatureStep_eq32. intros Hh H.
  apply multiplier_cancel in H. rewrite !lxor_mod32, Hh in H.
  apply lxor_cancel_l in H.
  rewrite !Z.mod_small in H by apply charCode_range.
  now apply charCode_inj.
Qed.

Lemma fold_signatureStep_cancel l : forall h h',
  eq32 (fold_left signatureStep l h) (fold_left signatureStep l h') ->
  eq32 h h'.
Proof.
  induction l as [|c l IH]; intros h h' H; simpl in H; [exact H|].
  apply IH in H. now apply signatureStep_cancel in H.
Qed.

Lemma finalMix_eq h :
  finalMix h = Z.lxor (h mod 2 ^ 32) (Z.shiftr (h mod 2 ^ 32) 16).
Proof.
  unfold finalMix, JS.ushr, JS.toUint32.
  change (0 mod 32) with 0. change (16 mod 32) with 16.
  rewrite Z.shiftr_0_r, xor_eq32. f_equal.
  apply Z.mod_small.
  pose proof (Z.mod_pos_bound h (2 ^ 32) eq_refl) as Hb.
  rewrite Z.shiftr_div_pow2 by lia. split.
  - apply Z.div_pos; lia.
  - apply Z.div_lt_upper_bound; lia.
Qed.

Lemma finalMix_range h : 0 <= finalMix h < 2 ^ 32.
Proof.
  unfold finalMix, JS.ushr, JS.toUint32. rewrite Z.shiftr_0_r.
  apply Z.mod_pos_bound. reflexivity.
Qed.

Lemma finalMix_cancel h h' : finalMix h = finalMix h' -> eq32 h h'.
Proof.
  rewrite !finalMix_eq. unfold eq32.
  set (u := h mod 2 ^ 32). set (v := h' mod 2 ^ 32). intros H.
  assert (Hbit : forall n, 0 <= n ->
    xorb (Z.testbit u n) (Z.testbit u (n + 16))
    = xorb (Z.testbit v n) (Z.testbit v (n + 16))).
  { intros n Hn.
    rewrite <- !(Z.shiftr_spec _ 16 n), <- !Z.lxor_spec by lia. now rewrite H. }
  assert (Hhigh : forall n, 16 <= n -> Z.testbit u n = Z.testbit v n).
  { intros n Hn. specialize (Hbit n ltac:(lia)). unfold u, v in *.
    rewrite !(Z.mod_pow2_bits_high _ 32 (n + 16)) in Hbit by lia.
    now rewrite !xorb_false_r in Hbit. }
  apply Z.bits_inj'. intros n Hn.
  destruct (Z.lt_ge_cases n 16); [|now apply Hhigh].
  specialize (Hbit n Hn). rewrite (Hhigh (n + 16)) in Hbit by lia.
  destruct (Z.testbit u n), (Z.testbit v n), (Z.testbit v (n + 16));
    simpl in Hbit; congruence.
Qed.

Lemma toString16_inj a b :
  0 <= a -> 0 <= b -> JS.toString16 a = JS.toString16 b -> a = b.
Proof.
  unfold JS.toString16. intros Ha Hb H.
  assert (Hnn : forall n, N.to_hex_uint n <> Nil).
  { intros [|p]; [discriminate|apply HexadecimalPos.Unsigned.to_uint_nonnil]. }
  apply (f_equal HexadecimalString.NilZero.uint_of_string) in H.
  rewrite !HexadecimalString.NilZero.usu in H by apply Hnn.
  injection H as H. apply HexadecimalN.Unsigned.to_uint_inj in H.
  now apply Z2N.inj.
Qed.

(** ** Signed QR payloads *)

Lemma split_freeOf sep a : freeOf sep a = true -> JS.split sep a = [a].
Proof.
  induction a as [|c r IH]; simpl; [reflexivity|].
  intros H. apply andb_prop in H. destruct H as [Hc Hr].
  apply negb_true_iff in Hc. rewrite Hc, (IH Hr). reflexivity.
Qed.

Lemma split_app_sep sep a b :
  freeOf sep a = true ->
  JS.split sep (a ++ String sep b) = a :: JS.split sep b.
Proof.
  induction a as [|c r IH]; simpl.
  - intros _. now rewrite Ascii.eqb_refl.
  - intros H. apply andb_prop in H. destruct H as [Hc Hr].
    apply negb_true_iff in Hc. rewrite Hc, (IH Hr). reflexivity.
Qed.

Lemma freeOf_hex_digits d :
  freeOf ":" (HexadecimalString.NilEmpty.string_of_uint d) = true.
Proof. induction d; simpl; auto. Qed.

Lemma freeOf_toString16 n : freeOf ":" (JS.toString16 n) = true.
Proof.
  unfold JS.toString16, HexadecimalString.NilZero.string_of_uint.
  destruct (N.to_hex_uint (Z.to_N n)); try apply freeOf_hex_digits.
  reflexivity.
Qed.

Lemma freeOf_alter sep i c : forall s,
  freeOf sep s = true -> c <> sep -> freeOf sep (alter i c s) = true.
Proof.
  induction i as [|i IH]; intros [|a r]; simpl; auto; intros H Hc;
    apply andb_prop in H; destruct H as [Ha Hr]; apply andb_true_intro.
  - split; [|exact Hr]. apply negb_true_iff. now apply Ascii.eqb_neq.
  - split; [exact Ha|]. now apply IH.
Qed.

(** Altering a character splits the string around it. *)
Lemma alter_split i c : forall s old,
  String.get i s = Some old ->
  exists a b, s = a ++ String old b /\ alter i c s = a ++ String c b.
Proof.
  induction i as [|i IH]; intros [|x r] old; simpl; try discriminate.
  - intros [= ->]. now exists EmptyString, r.
  - intros H. destruct (IH r old H) as (a & b & -> & ->).
    now exists (String x a), b.
Qed.

Lemma alter_changes i c s old :
  String.get i s = Some old -> c <> old -> alter i c s <> s.
Proof.
  intros Hget Hc. destruct (alter_split i c s old Hget) as (a & b & -> & ->).
  clear Hget. induction a as [|x a IH]; simpl; intros H.
  - injection H as H. contradiction.
  - injection H as H. now apply IH.
Qed.

Lemma list_ascii_of_string_app a b :
  list_ascii_of_string (a ++ b)
  = (list_ascii_of_string a ++ list_ascii_of_string b)%list.
Proof. induction a as [|x a IH]; simpl; [reflexivity|now rewrite IH]. Qed.

(** Two strings that differ in one character have different signatures,
    whatever follows them. *)
Lemma signature_differs a b tail c c' :
  c <> c' ->
  generateSyncSignature ((a ++ String c b) ++ tail)
  <> generateSyncSignature ((a ++ String c' b) ++ tail).
Proof.
  intros Hc H. unfold generateSyncSignature in H.
  apply toString16_inj in H; try apply finalMix_range.
  apply finalMix_cancel in H. unfold signatureLoop in H.
  rewrite !list_ascii_of_string_app in H. simpl in H.
  rewrite !fold_left_app in H. simpl in H.
  apply fold_signatureStep_cancel in H.
  apply fold_signatureStep_cancel in H.
  apply signatureStep_char in H; [contradiction|reflexivity].
Qed.

Lemma freeOf_app sep a b :
  freeOf sep (a ++ b) = freeOf sep a && freeOf sep b.
Proof.
  induction a as [|x a IH]; simpl; [reflexivity|].
  now rewrite IH, andb_assoc.
Qed.

Lemma prefix_empty s : String.prefix "" s = true.
Proof. now destruct s. Qed.

Lemma prefix_cons_eq a s1 s2 :
  String.prefix (String a s1) (String a s2) = String.prefix s1 s2.
Proof. simpl. destruct (ascii_dec a a); [reflexivity|contradiction]. Qed.

Lemma prefix_cons_ne a b s1 s2 :
  a <> b -> String.prefix (String a s1) (String b s2) = false.
Proof. intros H. simpl. destruct (ascii_dec a b); [contradiction|reflexivity]. Qed.

(** A payload with the prefix and two fields free of the separator is
    judged on its signature field alone. *)
Lemma validate_two_fields X Y :
  freeOf ":" X = true -> freeOf ":" Y = true ->
  validateSignedQR ("LS:" ++ X ++ String ":" Y) =
  if (Y =? generateSyncSignature (X ++ SYSTEM_SECRET_KEY))%string
  then mkQRValidation true (Some X) None
  else qrForged.
Proof.
  intros HX HY. unfold validateSignedQR, JS.startsWith.
  change ("LS:" ++ X ++ String ":" Y) with ("LS" ++ String ":" (X ++ String ":" Y)).
  rewrite (split_app_sep ":" "LS") by reflexivity.
  rewrite (split_app_sep ":" X) by exact HX.
  rewrite (split_freeOf ":" Y) by exact HY.
  simpl. rewrite prefix_empty. now destruct (Y =? _)%string.
Qed.

Lemma validate_one_field X :
  freeOf ":" X = true -> validateSignedQR ("LS:" ++ X) = qrMalformed.
Proof.
  intros HX. unfold validateSignedQR, JS.startsWith.
  change ("LS:" ++ X) with ("LS" ++ String ":" X).
  rewrite (split_app_sep ":" "LS") by reflexivity.
  rewrite (split_freeOf ":" X) by exact HX.
  simpl. now rewrite prefix_empty.
Qed.

Lemma validate_three_fields X Y Z :
  freeOf ":" X = true -> freeOf ":" Y = true -> freeOf ":" Z = true ->
  validateSignedQR ("LS:" ++ X ++ String ":" (Y ++ String ":" Z)) = qrMalformed.
Proof.
  intros HX HY HZ. unfold validateSignedQR, JS.startsWith.
  change ("LS:" ++ X ++ String ":" (Y ++ String ":" Z))
    with ("LS" ++ String ":" (X ++ String ":" (Y ++ String ":" Z))).
  rewrite (split_app_sep ":" "LS") by reflexivity.
  rewrite (split_app_sep ":" X) by exact HX.
  rewrite (split_app_sep ":" Y) by exact HY.
  rewrite (split_freeOf ":" Z) by exact HZ.
  simpl. now rewrite prefix_empty.
Qed.

Lemma alter_left i c : forall a b old,
  String.get i a = Some old -> alter i c (a ++ b) = alter i c a ++ b.
Proof.
  induction i as [|i IH]; intros [|x a] b old; simpl; try discriminate.
  - reflexivity.
  - intros H. now rewrite (IH a b old).
Qed.

Lemma alter_right i c a b :
  alter (String.length a + i) c (a ++ b) = a ++ alter i c b.
Proof. induction a as [|x a IH]; simpl; [reflexivity|now rewrite IH]. Qed.

Lemma append_cons_assoc a x b t :
  (a ++ String x b) ++ t = a ++ String x (b ++ t).
Proof. induction a as [|y a IH]; simpl; [reflexivity|now rewrite IH]. Qed.

(** C8 as stated does not hold: the payload of a serial number that contains a
    colon is rejected as malformed, and a payload whose first character is
    altered is rejected for its prefix, not for its digest. *)
Lemma signed_qr_other_rejections :
  validateSignedQR (getSignedQRData "A:7") = qrMalformed
  /\ alter 0 "X" (getSignedQRData "100000") <> getSignedQRData "100000"
  /\ validateSignedQR (alter 0 "X" (getSignedQRData "100000")) = qrExternal.
Proof. repeat split; try reflexivity. vm_compute. discriminate. Qed.

(** C8, amended. For a serial number without a colon, the signed payload
    validates and gives the serial number back.  Altering one character of
    its serial field or of its signature field is rejected with the
    digest-mismatch reason, unless the new character is a colon, which is
    rejected as malformed; altering the separator is rejected as malformed,
    and altering one of the three characters of the prefix is rejected with
    the prefix reason. *)
Theorem signed_qr_round_trip_and_tamper sn :
  freeOf ":" sn = true ->
  let payload := getSignedQRData sn in
  let signature := generateSyncSignature (sn ++ SYSTEM_SECRET_KEY) in
  validateSignedQR payload = mkQRValidation true (Some sn) None
  /\ (forall j c old,
        String.get j sn = Some old -> c <> old ->
        validateSignedQR (alter (3 + j) c payload) =
        if Ascii.eqb c ":" then qrMalformed else qrForged)
  /\ (forall j c old,
        String.get j signature = Some old -> c <> old ->
        validateSignedQR (alter (4 + String.length sn + j) c payload) =
        if Ascii.eqb c ":" then qrMalformed else qrForged)
  /\ (forall c, c <> ":"%char ->
        validateSignedQR (alter (3 + String.length sn) c payload) = qrMalformed)
  /\ (forall j c old,
        (j < 3)%nat -> String.get j payload = Some old -> c <> old ->
        validateSignedQR (alter j c payload) = qrExternal).
Proof.
  intros Hsn payload signature.
  assert (Hsig : freeOf ":" signature = true) by apply freeOf_toString16.
  assert (Hpayload : payload = "LS:" ++ sn ++ String ":" signature) by reflexivity.
  split; [|split; [|split; [|split]]].
  - rewrite Hpayload, validate_two_fields by assumption.
    fold signature. now rewrite String.eqb_refl.
  - intros j c old Hget Hc. rewrite Hpayload.
    change (alter (3 + j) c ("LS:" ++ sn ++ String ":" signature))
      with ("LS:" ++ alter j c (sn ++ String ":" signature)).
    rewrite (alter_left j c sn _ old Hget).
    destruct (alter_split j c sn old Hget) as (a & b & Hsnab & Halt).
    rewrite Halt. rewrite Hsnab, freeOf_app in Hsn. simpl in Hsn.
    apply andb_prop in Hsn. destruct Hsn as [Ha Hb].
    apply andb_prop in Hb. destruct Hb as [_ Hb].
    destruct (Ascii.eqb_spec c ":") as [->|Hcolon].
    + rewrite append_cons_assoc.
      now apply validate_three_fields.
    + rewrite validate_two_fields; try assumption.
      * destruct (String.eqb_spec signature
          (generateSyncSignature ((a ++ String c b) ++ SYSTEM_SECRET_KEY)))
          as [Heq|]; [|reflexivity].
        exfalso. unfold signature in Heq. rewrite Hsnab in Heq.
        now apply signature_differs in Heq.
      * rewrite freeOf_app. simpl. rewrite Ha, Hb.
        apply Ascii.eqb_neq in Hcolon. now rewrite Hcolon.
  - intros j c old Hget Hc. rewrite Hpayload.
    change (alter (4 + String.length sn + j) c ("LS:" ++ sn ++ String ":" signature))
      with ("LS:" ++ alter (S (String.length sn + j)) c (sn ++ String ":" signature)).
    rewrite plus_n_Sm, alter_right. cbn [alter].
    destruct (alter_split j c signature old Hget) as (a & b & Hab & Halt).
    pose proof (alter_changes j c signature old Hget Hc) as Hne.
    rewrite Halt in *. rewrite Hab, freeOf_app in Hsig. simpl in Hsig.
    apply andb_prop in Hsig. destruct Hsig as [Ha Hb].
    apply andb_prop in Hb. destruct Hb as [_ Hb].
    destruct (Ascii.eqb_spec c ":") as [->|Hcolon].
    + now apply validate_three_fields.
    + rewrite validate_two_fields; try assumption.
      * fold signature.
        destruct (String.eqb_spec (a ++ String c b) signature); [|reflexivity].
        contradiction.
      * rewrite freeOf_app. simpl. rewrite Ha, Hb.
        apply Ascii.eqb_neq in Hcolon. now rewrite Hcolon.
  - intros c Hcolon. rewrite Hpayload.
    change (alter (3 + String.length sn) c ("LS:" ++ sn ++ String ":" signature))
      with ("LS:" ++ alter (String.length sn) c (sn ++ String ":" signature)).
    rewrite (plus_n_O (String.length sn)) at 1. rewrite alter_right.
    cbn [alter].
    apply validate_one_field. rewrite freeOf_app. simpl.
    apply Ascii.eqb_neq in Hcolon. now rewrite Hsn, Hcolon, Hsig.
  - intros j c old Hj Hget Hc. rewrite Hpayload in *.
    unfold validateSignedQR, JS.startsWith.
    change ("LS:" ++ sn ++ String ":" signature)
      with (String "L" (String "S" (String ":" (sn ++ String ":" signature))))
      in *.
    destruct j as [|[|[|j]]]; [| | |lia]; cbn [alter String.get] in *;
      injection Hget as <-.
    + rewrite prefix_cons_ne by congruence. reflexivity.
    + rewrite prefix_cons_eq, prefix_cons_ne by congruence. reflexivity.
    + rewrite !prefix_cons_eq, prefix_cons_ne by congruence. reflexivity.
Qed.

Lemma signed_qr_witness :
  freeOf ":" "100000" = true
  /\ validateSignedQR (getSignedQRData "100000")
     = mkQRValidation true (Some "100000") None.
Proof.
  split; [reflexivity|].
  exact (proj1 (signed_qr_round_trip_and_tamper "100000" eq_refl)).
Defined.

(** ** Cancellation after checkout *)

Lemma validateCart_passes ps us bs cart s s' :
  validateCart ps us bs cart s = (s', Return tt) ->
  s' = s /\ Forall (fun item => validateItem ps us bs item = None) cart.
Proof.
  induction cart as [|item rest IH]; simpl.
  - intros [= <-]. now split.
  - destruct (validateItem ps us bs item) eqn:Hv; [discriminate|].
    intros H. destruct (IH H) as [-> Hall]. split; [reflexivity|].
    now constructor.
Qed.

Lemma validateItem_seller ps us bs item :
  validateItem ps us bs item = None ->
  JS.truthy (validationSeller ps item) = true.
Proof.
  unfold validateItem.
  now destruct (JS.truthy (validationSeller ps item)).
Qed.

(** Where step A finds a seller, steps B and C find the same one. *)
Lemma sellers_agree ps item :
  JS.truthy (validationSeller ps item) = true ->
  executionSeller ps item = validationSeller ps item.
Proof.
  unfold validationSeller, executionSeller.
  destruct (JS.truthy (CartItem.sellerId item)) eqn:Hs; simpl; [reflexivity|].
  destruct (find _ ps); simpl; [reflexivity|]. congruence.
Qed.

Lemma find_map_kept {A} (p : A -> bool) (g : A -> A) l :
  (forall x, p (g x) = p x) ->
  find p (map g l) = option_map g (find p l).
Proof.
  intros Hg. induction l as [|x r IH]; simpl; [reflexivity|].
  rewrite Hg. now destruct (p x).
Qed.

Lemma subQuantity_0 st : BulkStock.subQuantity 0 st = st.
Proof. destruct st. unfold BulkStock.subQuantity. simpl. f_equal. lia. Qed.

Lemma subQuantity_twice a b st :
  BulkStock.subQuantity a (BulkStock.subQuantity b st)
  = BulkStock.subQuantity (b + a) st.
Proof. unfold BulkStock.subQuantity. simpl. f_equal. lia. Qed.

Lemma takes_subQuantity ps item d st :
  takes ps item (BulkStock.subQuantity d st) = takes ps item st.
Proof. reflexivity. Qed.

Lemma drawn_subQuantity ps cart d st :
  drawn ps cart (BulkStock.subQuantity d st) = drawn ps cart st.
Proof.
  induction cart as [|item rest IH]; simpl; [reflexivity|].
  now rewrite IH, takes_subQuantity.
Qed.

Section CheckoutSteps.

Variable today : string.
Variable generateId : nat -> string.
Variable user : User.t.
Variable ps : list Product.t.

Local Abbreviation step := (executeItem today generateId user ps).
Local Abbreviation sold :=
  (ProductUnit.withSale SOLD_TO_BUYER (Some (User.id user)) (Some today)).

(** Step B marks units as sold and leaves the others. *)
Lemma executeItem_units w item :
  exists P : ProductUnit.t -> bool,
    allUnits (step w item)
    = map (fun u => if P u then sold u else u) (allUnits w).
Proof.
  assert (Hsame : allUnits w =
    map (fun u => if (fun _ => false) u then sold u else u) (allUnits w)).
  { now rewrite map_id. }
  unfold executeItem.
  destruct (executionSeller ps item) as [seller|];
    [|now exists (fun _ => false)].
  destruct (negb _); [now exists (fun _ => false)|].
  destruct (CartItem.isSerialized item); [|now exists (fun _ => false)].
  eexists (fun u => JS.includes _ (ProductUnit.id u)). reflexivity.
Qed.

Lemma executeItem_stock w item :
  allStock (step w item)
  = map (fun st => BulkStock.subQuantity (takes ps item st) st) (allStock w).
Proof.
  assert (Hsame : forall l : list BulkStock.t,
    (forall st, In st l -> takes ps item st = 0) ->
    l = map (fun st => BulkStock.subQuantity (takes ps item st) st) l).
  { intros l Hl. rewrite <- (map_id l) at 1. apply map_ext_in.
    intros st Hst. now rewrite (Hl st Hst), subQuantity_0. }
  unfold executeItem.
  destruct (executionSeller ps item) as [seller|] eqn:Hseller.
  2:{ apply Hsame. intros st _. unfold takes. now rewrite Hseller. }
  destruct (JS.truthy (Some seller)) eqn:Ht; simpl.
  2:{ apply Hsame. intros st _. unfold takes. now rewrite Hseller, Ht. }
  destruct (CartItem.isSerialized item) eqn:Hser; simpl.
  - apply Hsame. intros st _. unfold takes. now rewrite Hseller, Ht, Hser.
  - apply map_ext. intros st. unfold takes. rewrite Hseller, Ht, Hser. simpl.
    destruct (isStockOf _ _ st); [reflexivity|now rewrite subQuantity_0].
Qed.

Lemma executeItem_orders w item o :
  In o (newOrders (step w item)) ->
  In o (newOrders w) \/ orderOfLine ps item o.
Proof.
  unfold executeItem, orderOfLine.
  destruct (executionSeller ps item) as [seller|]; [|now left].
  destruct (negb _); [now left|].
  destruct (CartItem.isSerialized item); simpl; intros H;
    apply in_app_or in H; destruct H as [H|[<-|[]]]; auto; right; simpl;
    repeat split; auto; discriminate.
Qed.

Lemma fold_units cart : forall w k,
  exists h,
    find (hasId k) (allUnits (fold_left step cart w))
    = option_map h (find (hasId k) (allUnits w))
    /\ forall u, h u = u \/ h u = sold u.
Proof.
  induction cart as [|item rest IH]; intros w k; simpl.
  - exists (fun u => u). split; [now destruct (find _ _)|now left].
  - destruct (IH (step w item) k) as (h & Hfind & Hh).
    destruct (executeItem_units w item) as (P & HP).
    exists (fun u => h (if P u then sold u else u)). split.
    + rewrite Hfind, HP, find_map_kept.
      * now destruct (find (hasId k) (allUnits w)).
      * intros u. now destruct (P u).
    + intros u. destruct (P u); [|apply Hh].
      destruct (Hh (sold u)) as [->| ->]; now right.
Qed.

Lemma fold_stock cart : forall w,
  allStock (fold_left step cart w)
  = map (fun st => BulkStock.subQuantity (drawn ps cart st) st) (allStock w).
Proof.
  induction cart as [|item rest IH]; intros w; simpl.
  - rewrite <- (map_id (allStock w)) at 1. apply map_ext.
    intros st. now rewrite subQuantity_0.
  - rewrite IH, executeItem_stock, map_map. apply map_ext. intros st.
    now rewrite drawn_subQuantity, subQuantity_twice.
Qed.

Lemma fold_orders cart : forall w o,
  In o (newOrders (fold_left step cart w)) ->
  In o (newOrders w) \/ exists item, In item cart /\ orderOfLine ps item o.
Proof.
  induction cart as [|item rest IH]; intros w o; simpl; [now left|].
  intros H. destruct (IH _ _ H) as [H1|(it & Hit & Ho)].
  - apply executeItem_orders in H1. destruct H1 as [H1|H1]; [now left|].
    right. exists item. split; [now left|exact H1].
  - right. exists it. split; [now right|exact Ho].
Qed.

End CheckoutSteps.

(** A checkout that returns has passed step A and committed the result of
    steps B and C. *)
Lemma checkout_commits today generateId user cart s s1 :
  processCheckout today generateId user cart s = (s1, Return tt) ->
  let w := fold_left (executeItem today generateId user (products s)) cart
             (mkWorking (units s) (bulkStock s) []) in
  Forall (fun item =>
    validateItem (products s) (units s) (bulkStock s) item = None) cart
  /\ units s1 = allUnits w
  /\ bulkStock s1 = allStock w
  /\ orders s1 = (orders s ++ newOrders w)%list.
Proof.
  unfold processCheckout, bind, read, write. simpl.
  destruct (validateCart (products s) (units s) (bulkStock s) cart s)
    as [s' [[]|e]] eqn:Hv; [|discriminate].
  apply validateCart_passes in Hv. destruct Hv as [-> Hall].
  intros [= <-]. simpl. auto.
Qed.

Lemma totalFor_push p l st :
  totalFor p (l ++ [st])
  = totalFor p l
    + (if (BulkStock.productId st =? p)%string then BulkStock.quantity st
       else 0).
Proof.
  induction l as [|x r IH]; simpl; [lia|]. rewrite IH. lia.
Qed.

(** Adding to the first counter of a key adds to the total of its product,
    when there is such a counter. *)
Lemma totalFor_updateFirst p o d q l :
  totalFor q
    (JS.updateFirst (BulkStock.isFor p o) (BulkStock.addQuantity d) l)
  = totalFor q l
    + match find (BulkStock.isFor p o) l with
      | Some _ => if (p =? q)%string then d else 0
      | None => 0
      end.
Proof.
  induction l as [|x r IH]; simpl; [lia|].
  destruct (BulkStock.isFor p o x) eqn:Hx; simpl.
  - unfold BulkStock.isFor in Hx. apply andb_prop in Hx.
    destruct Hx as [Hp _]. apply String.eqb_eq in Hp. rewrite Hp.
    destruct (p =? q)%string; lia.
  - rewrite IH. lia.
Qed.

Lemma skipn_length_app {A} (l1 l2 : list A) :
  skipn (List.length l1) (l1 ++ l2) = l2.
Proof. induction l1; simpl; auto. Qed.

(** C4 as stated does not hold: a unit in status RETURNED_TO_SELLER that still
    carries the buyer and the sale date of its first sale is reserved by a
    checkout; cancelling the order leaves it in status AT_SELLER with no
    buyer and no sale date, not as it was before the checkout. *)
Lemma cancel_does_not_restore_returned_unit :
  let checkout :=
    processCheckout "2024-01-02" orderIds buyer [serializedLine "c1" 1]
      returnedShop in
  let s2 := cancelOrder "b9" (orderIds 0) (fst checkout) in
  snd checkout = Return tt
  /\ map Order.id (createdOrders returnedShop (fst checkout)) = [orderIds 0]
  /\ orders s2 = []
  /\ map ProductUnit.status (units returnedShop) = [RETURNED_TO_SELLER]
  /\ map ProductUnit.status (units s2) = [AT_SELLER]
  /\ map ProductUnit.buyerId (units returnedShop) = [Some "B0"]
  /\ map ProductUnit.buyerId (units s2) = [None]
  /\ units s2 <> units returnedShop.
Proof. cbv zeta. repeat split; try reflexivity. discriminate. Qed.

(** C4, amended. For an order that a successful [processCheckout] has just
    created and whose id is its own, [cancelOrder] deletes the order record
    and undoes what the order reserved.  When the order has reserved units,
    each of them is left in status AT_SELLER with buyer and sale date cleared
    and every other field as before the checkout, the other units and the
    bulk stock are as the checkout left them.  When the order is a bulk
    order, the units are as the checkout left them and the seller's counter,
    which exists, is credited the quantity of the order: it is below its
    value before the checkout by what the other lines of the cart took from
    it, and by nothing when there is no such line.  When the order is of a
    serialized line and has reserved no unit, it is cancelled as a bulk
    order is: the units are as the checkout left them, and the seller's
    counter for the product is credited the quantity of the order, or a
    counter with that quantity is appended when the seller has none, so that
    the ledger holds the quantity of the order more than the checkout left
    in it. *)
Theorem cancel_releases_what_checkout_reserved
    today generateId newId user cart s s1 o :
  processCheckout today generateId user cart s = (s1, Return tt) ->
  In o (createdOrders s s1) ->
  find (orderHasId (Order.id o)) (orders s1) = Some o ->
  let s2 := cancelOrder newId (Order.id o) s1 in
  let counter := BulkStock.isFor (Order.productId o) (Order.sellerId o) in
  (exists i,
     nth_error (orders s1) i = Some o
     /\ orders s2 = JS.removeAt i (orders s1))
  /\ match Order.assignedUnitIds o with
     | Some (first :: others) =>
         bulkStock s2 = bulkStock s1
         /\ (forall uid u,
               In uid (first :: others) ->
               find (hasId uid) (units s) = Some u ->
               find (hasId uid) (units s2) = Some (released u))
         /\ (forall uid,
               ~ In uid (first :: others) ->
               find (hasId uid) (units s2) = find (hasId uid) (units s1))
     | Some [] =>
         units s2 = units s1
         /\ bulkStock s2
            = match find counter (bulkStock s1) with
              | Some _ =>
                  JS.updateFirst counter
                    (BulkStock.addQuantity (Order.quantity o)) (bulkStock s1)
              | None =>
                  (bulkStock s1 ++
                     [BulkStock.mk newId (Order.productId o)
                        (Order.sellerId o) (Order.quantity o)])%list
              end
         /\ find counter (bulkStock s2)
            = Some
                match find counter (bulkStock s) with
                | Some st =>
                    BulkStock.addQuantity (Order.quantity o)
                      (BulkStock.subQuantity (drawn (products s) cart st) st)
                | None =>
                    BulkStock.mk newId (Order.productId o) (Order.sellerId o)
                      (Order.quantity o)
                end
         /\ totalFor (Order.productId o) (bulkStock s2)
            = totalFor (Order.productId o) (bulkStock s1) + Order.quantity o
     | None =>
         units s2 = units s1
         /\ bulkStock s2
            = JS.updateFirst counter
                (BulkStock.addQuantity (Order.quantity o)) (bulkStock s1)
         /\ exists st st2,
              find counter (bulkStock s) = Some st
              /\ find counter (bulkStock s2) = Some st2
              /\ BulkStock.quantity st2
                 = BulkStock.quantity st
                   - (drawn (products s) cart st - Order.quantity o)
     end.
Proof.
  intros Hco Hnew Hown s2 counter.
  apply checkout_commits in Hco. cbv zeta in Hco.
  destruct Hco as (Hvalid & Hunits & Hstock & Horders).
  unfold createdOrders in Hnew. rewrite Horders, skipn_length_app in Hnew.
  destruct (findIndex_find _ _ _ Hown) as (i & Hi & Hnth).
  assert (Hcounter1 :
    find counter (bulkStock s1)
    = option_map
        (fun st => BulkStock.subQuantity (drawn (products s) cart st) st)
        (find counter (bulkStock s))).
  { rewrite Hstock, fold_stock. simpl. now rewrite find_map_kept. }
  unfold s2, cancelOrder. rewrite Hi, Hnth.
  split; [exists i; split; [exact Hnth|]|].
  { now destruct (Order.assignedUnitIds o) as [[|]|];
      [| |destruct (find _ (bulkStock s1))]. }
  destruct (Order.assignedUnitIds o) as [[|first others]|] eqn:Hassigned.
  - simpl. subst counter.
    destruct (find _ (bulkStock s1)) as [st1|] eqn:Hst1;
      cbn [units bulkStock setOrders setBulkStock];
      (split; [reflexivity|]); (split; [reflexivity|]); split.
    + rewrite find_updateFirst by reflexivity. rewrite Hst1.
      destruct (find _ (bulkStock s)) as [st|]; [|discriminate].
      simpl in Hcounter1. injection Hcounter1 as <-. reflexivity.
    + rewrite totalFor_updateFirst, Hst1. now rewrite String.eqb_refl.
    + rewrite find_app_none by exact Hst1.
      unfold BulkStock.isFor at 1. simpl. rewrite !String.eqb_refl. simpl.
      destruct (find _ (bulkStock s)); [discriminate|reflexivity].
    + rewrite totalFor_push. simpl. rewrite String.eqb_refl. lia.
  - cbn [List.length Nat.ltb Nat.leb units bulkStock setOrders setUnits].
    split; [reflexivity|]. split.
    + intros uid u Hin Hu.
      destruct (fold_units today generateId user (products s) cart
                  (mkWorking (units s) (bulkStock s) []) uid)
        as (h & Hfind & Hh).
      rewrite <- Hunits in Hfind. simpl in Hfind. rewrite Hu in Hfind.
      rewrite (forEachUnit_applies _ (withSale_keepsId _ _ _)
                 (fun _ => eq_refl) uid (first :: others) _ _ Hin Hfind).
      unfold released. now destruct (Hh u) as [-> | ->].
    + intros uid Hout.
      rewrite find_forEachUnit; auto using withSale_keepsId.
      apply includes_false_iff in Hout. now rewrite Hout.
  - simpl.
    apply fold_orders in Hnew. destruct Hnew as [[]|(item & Hitem & Hline)].
    destruct Hline as (Hpid & Hq & Hseller & Hbulk).
    specialize (Hbulk Hassigned).
    rewrite Forall_forall in Hvalid. specialize (Hvalid item Hitem).
    pose proof (validateItem_seller _ _ _ _ Hvalid) as Htruthy.
    pose proof (sellers_agree _ _ Htruthy) as Hagree.
    unfold validateItem in Hvalid. rewrite Htruthy, Hbulk in Hvalid.
    simpl in Hvalid. rewrite <- Hagree, Hseller, <- Hpid in Hvalid.
    change (isStockOf (Order.productId o) (Some (Order.sellerId o)))
      with counter in Hvalid.
    destruct (find counter (bulkStock s)) as [st|] eqn:Hst; [|discriminate].
    assert (Hst1 : find counter (bulkStock s1)
                   = Some (BulkStock.subQuantity (drawn (products s) cart st) st)).
    { exact Hcounter1. }
    fold counter. rewrite Hst1. simpl. split; [reflexivity|].
    split; [reflexivity|].
    exists st. eexists. split; [reflexivity|]. split.
    + rewrite find_updateFirst by reflexivity. rewrite Hst1. reflexivity.
    + simpl. lia.
Qed.

(** An order that has reserved no unit is not only the order of a line that
    asks for nothing.  Seller S1 holds one unit and the cart asks for it in
    two lines: both pass step A against the stock as it was, the first order
    reserves the unit and the second reserves none; cancelling the second
    appends a bulk counter of one to the ledger of a serialized product. *)
Lemma cancel_of_unreserved_order_adds_counter :
  let cart := [serializedLine "c1" 1; serializedLine "c2" 1] in
  let checkout := processCheckout "2024-01-02" orderIds buyer cart freshShop in
  let s2 := cancelOrder "b9" (orderIds 1) (fst checkout) in
  snd checkout = Return tt
  /\ map Order.assignedUnitIds (createdOrders freshShop (fst checkout))
     = [Some ["u1"]; Some []]
  /\ bulkStock freshShop = []
  /\ bulkStock (fst checkout) = []
  /\ bulkStock s2 = [BulkStock.mk "b9" "P1" "S1" 1]
  /\ units s2 = units (fst checkout).
Proof. cbv zeta. repeat split; reflexivity. Qed.

Lemma cancel_releases_witness :
  let s1 :=
    fst (processCheckout "2024-01-02" orderIds buyer [serializedLine "c1" 1]
           freshShop) in
  find (hasId "u1") (units freshShop)
  = Some (sellerUnit "u1" AT_SELLER None None)
  /\ find (hasId "u1") (units (cancelOrder "b9" (orderIds 0) s1))
     = Some (sellerUnit "u1" AT_SELLER None None).
Proof.
  cbv zeta. split; [reflexivity|].
  exact (proj1 (proj2 (proj2
    (cancel_releases_what_checkout_reserved "2024-01-02" orderIds "b9" buyer
       [serializedLine "c1" 1] freshShop _ freshOrder
       eq_refl (or_introl eq_refl) eq_refl)))
    "u1" (sellerUnit "u1" AT_SELLER None None) (or_introl eq_refl) eq_refl).
Defined.

(** * Further properties *)

(** ** Serials read back *)

Ltac read_digit :=
  cbn [JS.parseDigits DecimalString.NilEmpty.string_of_uint
       Pos.of_uint_acc Pos.of_uint];
  lazymatch goal with
  | |- context [JS.digitValue 10 ?c] =>
      let v := eval vm_compute in (JS.digitValue 10 c) in
      change (JS.digitValue 10 c) with v
  | _ => idtac
  end;
  cbv beta iota.

Lemma parseDigits_acc d : forall acc,
  JS.parseDigits 10 (DecimalString.NilEmpty.string_of_uint d)
    (Some (Z.pos acc))
  = Some (Z.pos (Pos.of_uint_acc d acc)).
Proof.
  induction d; intros acc; read_digit; try reflexivity;
    rewrite <- IHd; f_equal; f_equal; lia.
Qed.

Lemma parseDigits_zero d :
  JS.parseDigits 10 (DecimalString.NilEmpty.string_of_uint d) (Some 0)
  = Some (Z.of_N (Pos.of_uint d)).
Proof.
  induction d; read_digit; try reflexivity; try exact IHd;
    apply parseDigits_acc.
Qed.

Lemma parseDigits_uint d :
  d <> Decimal.Nil ->
  JS.parseDigits 10 (DecimalString.NilEmpty.string_of_uint d) None
  = Some (Z.of_N (Pos.of_uint d)).
Proof.
  destruct d; intros Hd; read_digit; try congruence;
    try apply parseDigits_acc. apply parseDigits_zero.
Qed.

Lemma option_map_mul_1 x : option_map (Z.mul 1) x = x.
Proof. destruct x as [z|]; simpl; [|reflexivity]. now destruct z. Qed.

Ltac no_white_space :=
  repeat lazymatch goal with
  | |- context [JS.isWhiteSpace ?c] =>
      let v := eval vm_compute in (JS.isWhiteSpace c) in
      change (JS.isWhiteSpace c) with v
  end;
  cbv beta iota.

(** A string of decimal digits has no white space, sign or [0x] in front. *)
Lemma parseInt_uint d :
  d <> Decimal.Nil ->
  JS.parseInt (DecimalString.NilEmpty.string_of_uint d)
  = JS.parseDigits 10 (DecimalString.NilEmpty.string_of_uint d) None
  /\ JS.parseInt (String "-" (DecimalString.NilEmpty.string_of_uint d))
     = option_map (Z.mul (-1))
         (JS.parseDigits 10 (DecimalString.NilEmpty.string_of_uint d) None).
Proof.
  intros Hd. unfold JS.parseInt.
  destruct d as [|d|d|d|d|d|d|d|d|d|d]; try congruence;
    destruct d; cbn [DecimalString.NilEmpty.string_of_uint JS.trimStart];
    no_white_space; rewrite ?option_map_mul_1; split; reflexivity.
Qed.

Lemma string_of_uint_nonnil d :
  d <> Decimal.Nil ->
  DecimalString.NilZero.string_of_uint d
  = DecimalString.NilEmpty.string_of_uint d.
Proof. destruct d; intros H; [congruence|reflexivity..]. Qed.

Lemma parseInt_toString n : JS.parseInt (JS.toString n) = Some n.
Proof.
  destruct n as [|p|p]; [reflexivity| |];
    pose proof (DecimalPos.Unsigned.to_uint_nonnil p) as Hnn.
  - change (JS.toString (Z.pos p))
      with (DecimalString.NilZero.string_of_uint (Pos.to_uint p)).
    rewrite (string_of_uint_nonnil _ Hnn).
    rewrite (proj1 (parseInt_uint _ Hnn)), parseDigits_uint by exact Hnn.
    now rewrite DecimalPos.Unsigned.of_to.
  - change (JS.toString (Z.neg p))
      with (String "-" (DecimalString.NilZero.string_of_uint (Pos.to_uint p))).
    rewrite (string_of_uint_nonnil _ Hnn).
    rewrite (proj2 (parseInt_uint _ Hnn)), parseDigits_uint by exact Hnn.
    now rewrite DecimalPos.Unsigned.of_to.
Qed.

Lemma toString_inj a b : JS.toString a = JS.toString b -> a = b.
Proof.
  intros H. apply (f_equal JS.parseInt) in H.
  rewrite !parseInt_toString in H. congruence.
Qed.

(** ** The batch of the allocator *)

Section Batch.

Variable used : list Z.
Variable quantity : Z.

(** The scan returns the lowest free candidates, as many as are missing. *)
Lemma scanRange_returns n : forall candidate generated result,
  scanRange used quantity n candidate generated = Return result ->
  result =
    (generated ++
     map JS.toString
       (firstn (Z.to_nat (quantity - Z.of_nat (List.length generated)))
          (freeCandidates used candidate n)))%list.
Proof.
  induction n as [|n IH]; intros candidate generated result; simpl.
  - destruct (Z.ltb_spec (Z.of_nat (List.length generated)) quantity);
      [discriminate|].
    intros [= <-]. replace (Z.to_nat _) with O by lia.
    simpl. now rewrite app_nil_r.
  - destruct (Z.ltb_spec (Z.of_nat (List.length generated)) quantity).
    + intros Hret. apply IH in Hret. rewrite freeCandidates_S. unfold isFree.
      destruct (negb (JS.includesZ used candidate)); [|exact Hret].
      rewrite Hret, length_app, <- app_assoc. simpl. f_equal.
      replace (Z.to_nat (quantity - Z.of_nat (List.length generated)))
        with (S (Z.to_nat
                   (quantity - Z.of_nat (List.length generated + 1)))) by lia.
      reflexivity.
    + intros [= <-]. replace (Z.to_nat _) with O by lia.
      simpl. now rewrite app_nil_r.
Qed.

Lemma scanRange_length n : forall candidate generated result,
  scanRange used quantity n candidate generated = Return result ->
  Z.of_nat (List.length result)
  = Z.max (Z.of_nat (List.length generated)) quantity.
Proof.
  induction n as [|n IH]; intros candidate generated result; simpl.
  - destruct (Z.ltb_spec (Z.of_nat (List.length generated)) quantity);
      [discriminate|]. intros [= <-]. lia.
  - destruct (Z.ltb_spec (Z.of_nat (List.length generated)) quantity).
    + intros Hret. apply IH in Hret. rewrite Hret.
      destruct (negb (JS.includesZ used candidate)); [|lia].
      rewrite length_app. simpl. lia.
    + intros [= <-]. lia.
Qed.

Lemma drainRecycled_length recycled : forall generated,
  Z.of_nat (List.length
              (fst (drainRecycled used quantity generated recycled)))
  <= Z.max (Z.of_nat (List.length generated)) quantity.
Proof.
  induction recycled as [|c rest IH]; intros generated; simpl; [lia|].
  destruct (Z.ltb_spec (Z.of_nat (List.length generated)) quantity);
    [|simpl; lia].
  destruct (negb (JS.includesZ used c)).
  - etransitivity; [apply IH|]. rewrite length_app. simpl. lia.
  - apply IH.
Qed.

Lemma freeCandidates_spec n : forall start x,
  In x (freeCandidates used start n) <->
  start <= x < start + Z.of_nat n /\ ~ In x used.
Proof.
  induction n as [|n IH]; intros start x.
  - simpl. split; [intros []|lia].
  - rewrite freeCandidates_S. unfold isFree.
    destruct (JS.includesZ used start) eqn:Hu; simpl.
    + rewrite IH. apply includesZ_true_iff in Hu.
      split; [intros [H1 H2]; split; [lia|exact H2]|].
      intros [H1 H2]. split; [|exact H2].
      destruct (Z.eq_dec x start) as [->|]; [contradiction|lia].
    + rewrite IH.
      assert (Hnu : ~ In start used).
      { intros H. apply includesZ_true_iff in H. congruence. }
      split.
      * intros [<-|[H1 H2]]; split; auto; lia.
      * intros [H1 H2]. destruct (Z.eq_dec start x); [now left|right].
        split; [lia|exact H2].
Qed.

Lemma freeCandidates_NoDup n : forall start,
  NoDup (freeCandidates used start n).
Proof.
  induction n as [|n IH]; intros start; [constructor|].
  rewrite freeCandidates_S. destruct (isFree used start); [|apply IH].
  constructor; [|apply IH]. rewrite freeCandidates_spec. lia.
Qed.

End Batch.

Lemma firstn_In {A} n : forall (l : list A) x, In x (firstn n l) -> In x l.
Proof.
  induction n as [|n IH]; intros [|a l] x; simpl; try tauto.
  intros [H|H]; [now left|right; now apply IH].
Qed.

Lemma firstn_NoDup {A} n : forall l : list A, NoDup l -> NoDup (firstn n l).
Proof.
  induction n as [|n IH]; intros [|a l] H; simpl; try constructor.
  - apply NoDup_cons_iff in H. intros Hin. apply (proj1 H).
    now apply firstn_In in Hin.
  - apply IH. now apply NoDup_cons_iff in H.
Qed.

(** The two phases of a successful call, read off the loops: what the pool
    gave, and what the scan of the range added. *)
Lemma generateNextSerialBatch_returns quantity s s' serials :
  generateNextSerialBatch quantity s = (s', Return serials) ->
  exists taken,
    JS.sort (recycledPool s) = (taken ++ recycledPool s')%list
    /\ serials =
         map JS.toString
           (filter (isFree (usedNumbers (units s))) taken ++
            firstn
              (Z.to_nat
                 (quantity
                  - Z.of_nat
                      (List.length
                         (filter (isFree (usedNumbers (units s))) taken))))
              (freeCandidates (usedNumbers (units s))
                 (GlobalSettings.serialRangeStart (getGlobalSettings s))
                 (rangeSize s)))%list.
Proof.
  unfold generateNextSerialBatch. fold (recycledPool s).
  destruct (drainRecycled (usedNumbers (units s)) quantity []
              (JS.sort (recycledPool s))) as [fromPool left] eqn:Hdrain.
  destruct (scanRange _ _ _ _ fromPool) as [result|e] eqn:Hscan;
    [|discriminate].
  intros [= <- <-].
  apply drainRecycled_split in Hdrain. destruct Hdrain as (taken & Hsplit & ->).
  apply scanRange_returns in Hscan. exists taken. split.
  - unfold recycledPool at 2. exact Hsplit.
  - rewrite Hscan. simpl. rewrite length_map, map_app. reflexivity.
Qed.

(** A successful call returns the free numbers it took from the pool and
    then the lowest free numbers of the range, in ascending order, as many
    as the pool left missing. *)
Theorem batch_is_pool_then_lowest_free quantity s s' serials :
  generateNextSerialBatch quantity s = (s', Return serials) ->
  exists taken,
    let fromPool := filter (isFree (usedNumbers (units s))) taken in
    JS.sort (recycledPool s) = (taken ++ recycledPool s')%list
    /\ serials =
         map JS.toString
           (fromPool ++
            firstn (Z.to_nat (quantity - Z.of_nat (List.length fromPool)))
              (freeCandidates (usedNumbers (units s))
                 (GlobalSettings.serialRangeStart (getGlobalSettings s))
                 (rangeSize s)))%list.
Proof.
  intros Hgen. cbv zeta. exact (generateNextSerialBatch_returns _ _ _ _ Hgen).
Qed.

(** A successful call returns exactly [quantity] serials, and none when
    [quantity] is not positive. *)
Theorem batch_has_requested_size quantity s s' serials :
  generateNextSerialBatch quantity s = (s', Return serials) ->
  Z.of_nat (List.length serials) = Z.max 0 quantity.
Proof.
  unfold generateNextSerialBatch.
  pose proof (drainRecycled_length (usedNumbers (units s)) quantity
                (JS.sort (GlobalSettings.recycledSerials (getGlobalSettings s)))
                []) as Hlen.
  destruct (drainRecycled _ _ _ _) as [fromPool left].
  destruct (scanRange _ _ _ _ fromPool) as [result|e] eqn:Hscan;
    [|discriminate].
  intros [= <- <-]. apply scanRange_length in Hscan.
  simpl in Hlen. lia.
Qed.

(** No serial of a batch is the number of a serial that a live unit
    carries. *)
Theorem batch_avoids_live_serials quantity s s' serials u n :
  generateNextSerialBatch quantity s = (s', Return serials) ->
  In u (units s) ->
  JS.parseInt (ProductUnit.serialNumber u) = Some n ->
  ~ In (JS.toString n) serials.
Proof.
  intros Hgen Hu Hn Hin.
  assert (Hused : In n (usedNumbers (units s))).
  { unfold usedNumbers. apply in_flat_map. exists u. split; [exact Hu|].
    rewrite Hn. now left. }
  apply generateNextSerialBatch_returns in Hgen.
  destruct Hgen as (taken & _ & ->).
  apply in_map_iff in Hin. destruct Hin as (m & Hm & Hin).
  apply toString_inj in Hm. subst m.
  apply in_app_or in Hin. destruct Hin as [Hin|Hin].
  - apply filter_In in Hin. destruct Hin as [_ Hfree]. unfold isFree in Hfree.
    apply includesZ_true_iff in Hused. rewrite Hused in Hfree. discriminate.
  - apply firstn_In, freeCandidates_spec in Hin. tauto.
Qed.

(** When no reclaimed number lies in the managed range, the serials of a
    batch are pairwise distinct. *)
Theorem batch_is_unique_without_pool_in_range quantity s s' serials :
  NoDup (recycledPool s) ->
  (forall x, In x (recycledPool s) ->
     x < GlobalSettings.serialRangeStart (getGlobalSettings s)
     \/ GlobalSettings.serialRangeEnd (getGlobalSettings s) < x) ->
  generateNextSerialBatch quantity s = (s', Return serials) ->
  NoDup serials.
Proof.
  intros Hnd Hout Hgen.
  apply generateNextSerialBatch_returns in Hgen.
  destruct Hgen as (taken & Hsplit & ->).
  apply NoDup_map_NoDup_ForallPairs;
    [intros a b _ _; apply toString_inj|].
  assert (Hsorted : NoDup (taken ++ recycledPool s')).
  { rewrite <- Hsplit.
    apply (Permutation_NoDup (Permutation_sym (sort_Permutation _)) Hnd). }
  assert (Htaken : forall x, In x taken -> In x (recycledPool s)).
  { intros x Hx. apply (Permutation_in _ (sort_Permutation (recycledPool s))).
    rewrite Hsplit. apply in_or_app. now left. }
  apply NoDup_app_remove_r in Hsorted.
  assert (Hdisjoint : forall x,
    In x (filter (isFree (usedNumbers (units s))) taken) ->
    ~ In x (freeCandidates (usedNumbers (units s))
              (GlobalSettings.serialRangeStart (getGlobalSettings s))
              (rangeSize s))).
  { intros x Hx Hr. apply filter_In in Hx. destruct Hx as [Hx _].
    apply freeCandidates_spec in Hr. destruct Hr as [Hr _].
    specialize (Hout x (Htaken x Hx)). unfold rangeSize in Hr. lia. }
  apply NoDup_app.
  - now apply NoDup_filter.
  - apply firstn_NoDup, freeCandidates_NoDup.
  - intros x Hx Hr. apply (Hdisjoint x Hx). now apply firstn_In in Hr.
Qed.

(** A unit that carries the decimal string of a number counts that number
    as used. *)
Lemma issued_serial_counts_as_used us u n :
  In u us -> ProductUnit.serialNumber u = JS.toString n ->
  In n (usedNumbers us).
Proof.
  intros Hu Hs. unfold usedNumbers. apply in_flat_map. exists u.
  split; [exact Hu|]. rewrite Hs, parseInt_toString. now left.
Qed.

Lemma issued_serial_witness : In 100001 (usedNumbers (units smallRangeFull)).
Proof.
  apply (issued_serial_counts_as_used (units smallRangeFull)
           (factoryUnit "u2" "100001") 100001).
  - right. left. reflexivity.
  - reflexivity.
Defined.

Lemma batch_is_pool_then_lowest_free_witness :
  exists taken,
    let fromPool := filter (isFree (usedNumbers (units stalePool))) taken in
    JS.sort (recycledPool stalePool)
    = (taken ++ recycledPool (fst (generateNextSerialBatch 3 stalePool)))%list
    /\ ["100005"; "100000"; "100002"] =
         map JS.toString
           (fromPool ++
            firstn (Z.to_nat (3 - Z.of_nat (List.length fromPool)))
              (freeCandidates (usedNumbers (units stalePool))
                 (GlobalSettings.serialRangeStart (getGlobalSettings stalePool))
                 (rangeSize stalePool)))%list.
Proof.
  exact (batch_is_pool_then_lowest_free 3 stalePool _ _ eq_refl).
Defined.

Lemma batch_has_requested_size_witness :
  Z.of_nat (List.length ["100005"; "100000"; "100002"]) = Z.max 0 3.
Proof.
  exact (batch_has_requested_size 3 stalePool _ _ eq_refl).
Defined.

Lemma batch_avoids_live_serials_witness :
  ~ In (JS.toString 100001) ["100005"; "100000"; "100002"].
Proof.
  exact (batch_avoids_live_serials 3 stalePool _ _
           (factoryUnit "u1" "100001") 100001 eq_refl (or_introl eq_refl)
           eq_refl).
Defined.

Lemma batch_is_unique_witness : NoDup ["100000"; "100001"; "100002"].
Proof.
  refine (batch_is_unique_without_pool_in_range 3 smallRange _ _ _ _ eq_refl).
  - constructor.
  - intros x [].
Defined.

(** ** The bulk ledger *)

Lemma isFor_key p o st :
  BulkStock.isFor p o st = true <-> counterKey st = (p, o).
Proof.
  unfold BulkStock.isFor, counterKey. rewrite andb_true_iff, !String.eqb_eq.
  split; [intros [-> ->]; reflexivity|intros [= -> ->]; now split].
Qed.

Section KeptKey.

Variable f : BulkStock.t -> BulkStock.t.
Hypothesis f_key : forall st, counterKey (f st) = counterKey st.

Lemma isFor_kept p o st : BulkStock.isFor p o (f st) = BulkStock.isFor p o st.
Proof.
  destruct (BulkStock.isFor p o st) eqn:H.
  - apply isFor_key. rewrite f_key. now apply isFor_key.
  - destruct (BulkStock.isFor p o (f st)) eqn:H'; [|reflexivity].
    apply isFor_key in H'. rewrite f_key in H'. apply isFor_key in H'.
    congruence.
Qed.

Lemma keys_updateFirst p l :
  map counterKey (JS.updateFirst p f l) = map counterKey l.
Proof.
  induction l as [|x r IH]; simpl; [reflexivity|].
  destruct (p x); simpl; [now rewrite f_key|now rewrite IH].
Qed.

(** The counter of a key after the first counter of a key is updated. *)
Lemma find_counter_updated p o p' o' l :
  find (BulkStock.isFor p' o')
    (JS.updateFirst (BulkStock.isFor p o) f l)
  = if (p' =? p)%string && (o' =? o)%string
    then option_map f (find (BulkStock.isFor p' o') l)
    else find (BulkStock.isFor p' o') l.
Proof.
  destruct ((p' =? p)%string && (o' =? o)%string) eqn:Hk.
  - apply andb_prop in Hk. destruct Hk as [Hp Ho].
    apply String.eqb_eq in Hp, Ho. subst.
    apply find_updateFirst. intros x. apply isFor_kept.
  - apply find_updateFirst_other. intros x Hx. rewrite isFor_kept.
    assert (H : BulkStock.isFor p' o' x = false).
    { destruct (BulkStock.isFor p' o' x) eqn:H'; [|reflexivity].
      apply isFor_key in Hx, H'. rewrite Hx in H'. injection H' as -> ->.
      now rewrite !String.eqb_refl in Hk. }
    now split.
Qed.

End KeptKey.

Lemma addQuantity_key d st :
  counterKey (BulkStock.addQuantity d st) = counterKey st.
Proof. reflexivity. Qed.

Lemma subQuantity_key d st :
  counterKey (BulkStock.subQuantity d st) = counterKey st.
Proof. reflexivity. Qed.

Lemma totalFor_app p l l' :
  totalFor p (l ++ l') = totalFor p l + totalFor p l'.
Proof. induction l as [|x r IH]; simpl; [reflexivity|rewrite IH; lia]. Qed.

Lemma subQuantity_addQuantity d st :
  BulkStock.subQuantity d st = BulkStock.addQuantity (- d) st.
Proof. unfold BulkStock.subQuantity, BulkStock.addQuantity. f_equal. Qed.

Lemma updateFirst_ext {A} (p : A -> bool) f g l :
  (forall x, f x = g x) -> JS.updateFirst p f l = JS.updateFirst p g l.
Proof.
  intros H. induction l as [|x r IH]; simpl; [reflexivity|].
  now rewrite H, IH.
Qed.

Lemma transfer_unfold newId p a dest q s :
  transferBulkStock newId p a dest q s =
  if transferAccepted p a q s then
    let debited :=
      JS.updateFirst (BulkStock.isFor p a) (BulkStock.addQuantity (- q))
        (bulkStock s) in
    if JS.truthy dest then
      match dest with
      | Some b =>
          match find (BulkStock.isFor p b) debited with
          | Some _ =>
              setBulkStock
                (JS.updateFirst (BulkStock.isFor p b)
                   (BulkStock.addQuantity q) debited) s
          | None =>
              setBulkStock (debited ++ [BulkStock.mk newId p b q])%list s
          end
      | None => s
      end
    else setBulkStock debited s
  else setBulkStock (bulkStock s) s.
Proof.
  unfold transferBulkStock, transferAccepted.
  destruct (find (BulkStock.isFor p a) (bulkStock s)) as [src|];
    [|reflexivity].
  destruct (BulkStock.quantity src >=? q); [|reflexivity]. cbv zeta.
  rewrite (updateFirst_ext _ _ _ _ (subQuantity_addQuantity q)).
  destruct dest as [b|]; simpl; [|reflexivity].
  now destruct (b =? "")%string.
Qed.

Lemma setBulkStock_same s : setBulkStock (bulkStock s) s = s.
Proof. now destruct s. Qed.

(** A transfer keeps the total of every product when it names a
    destination; without a destination an accepted transfer removes the
    quantity from the total of its product; a transfer that is not accepted
    changes nothing. *)
Theorem transfer_conserves_total newId p a dest q s :
  let s' := transferBulkStock newId p a dest q s in
  (transferAccepted p a q s = false -> s' = s)
  /\ forall p',
       totalFor p' (bulkStock s')
       = totalFor p' (bulkStock s)
         - (if transferAccepted p a q s && negb (JS.truthy dest)
               && (p =? p')%string
            then q else 0).
Proof.
  cbv zeta. rewrite transfer_unfold.
  destruct (transferAccepted p a q s) eqn:Hacc; simpl.
  2:{ rewrite setBulkStock_same. split; [reflexivity|intros; lia]. }
  split; [discriminate|]. intros p'.
  assert (Hsrc : exists src, find (BulkStock.isFor p a) (bulkStock s) = Some src).
  { unfold transferAccepted in Hacc.
    destruct (find _ (bulkStock s)) as [src|]; [now exists src|discriminate]. }
  destruct Hsrc as [src Hsrc].
  destruct (JS.truthy dest) eqn:Ht; simpl.
  - destruct dest as [b|]; [|discriminate].
    destruct (find (BulkStock.isFor p b) _) eqn:Hb; simpl.
    + rewrite !totalFor_updateFirst, Hb, Hsrc.
      destruct (p =? p')%string; lia.
    + rewrite totalFor_app, totalFor_updateFirst, Hsrc. simpl.
      destruct (p =? p')%string; lia.
  - rewrite totalFor_updateFirst, Hsrc. destruct (p =? p')%string; lia.
Qed.

Lemma Forall_updateFirst {A} (P : A -> Prop) p f l :
  Forall P l -> (forall x, find p l = Some x -> P (f x)) ->
  Forall P (JS.updateFirst p f l).
Proof.
  induction l as [|x r IH]; simpl; intros Hall Hf; [constructor|].
  apply Forall_cons_iff in Hall. destruct Hall as [Hx Hr].
  destruct (p x).
  - constructor; [now apply Hf|exact Hr].
  - constructor; [exact Hx|now apply IH].
Qed.

Lemma Forall_find {A} (P : A -> Prop) p l x :
  Forall P l -> find p l = Some x -> P x.
Proof.
  intros Hall Hfind. apply find_some in Hfind.
  rewrite Forall_forall in Hall. now apply Hall.
Qed.

Lemma nonNegative_credit d p l :
  0 <= d ->
  Forall (fun st => 0 <= BulkStock.quantity st) l ->
  Forall (fun st => 0 <= BulkStock.quantity st)
    (JS.updateFirst p (BulkStock.addQuantity d) l).
Proof.
  intros Hd Hall. apply Forall_updateFirst; [exact Hall|].
  intros x Hx. simpl. pose proof (Forall_find _ _ _ _ Hall Hx). simpl in *. lia.
Qed.

Lemma nonNegative_debit d p l :
  (forall x, find p l = Some x -> d <= BulkStock.quantity x) ->
  Forall (fun st => 0 <= BulkStock.quantity st) l ->
  Forall (fun st => 0 <= BulkStock.quantity st)
    (JS.updateFirst p (BulkStock.subQuantity d) l).
Proof.
  intros Hd Hall. apply Forall_updateFirst; [exact Hall|].
  intros x Hx. simpl. specialize (Hd x Hx). lia.
Qed.

Lemma nonNegative_push st l :
  0 <= BulkStock.quantity st ->
  Forall (fun st => 0 <= BulkStock.quantity st) l ->
  Forall (fun st => 0 <= BulkStock.quantity st) (l ++ [st]).
Proof. intros H Hall. apply Forall_app. split; [exact Hall|now constructor]. Qed.

(** Apart from the checkout, the operations of the ledger keep every
    counter at zero or above when the quantities they are given are not
    negative. *)
Theorem ledger_keeps_counters_non_negative s :
  bulkNonNegative s ->
  (forall newId p a dest q,
     0 <= q -> bulkNonNegative (transferBulkStock newId p a dest q s))
  /\ (forall p seller q,
        0 <= q -> bulkNonNegative (returnBulkToManufacturer p seller q s))
  /\ (forall hash newId product q partialUnits,
        0 <= q ->
        bulkNonNegative
          (saveProductBatch hash newId product q partialUnits s))
  /\ (Forall (fun o => 0 <= Order.quantity o) (orders s) ->
      forall newId orderId accept,
        bulkNonNegative (cancelOrder newId orderId s)
        /\ bulkNonNegative (processBuyerReturn orderId accept s)).
Proof.
  unfold bulkNonNegative. intros Hs. split; [|split; [|split]].
  - intros newId p a dest q Hq. unfold transferBulkStock.
    destruct (find (BulkStock.isFor p a) (bulkStock s)) as [src|] eqn:Hsrc;
      [|exact Hs].
    destruct (Z.geb_spec (BulkStock.quantity src) q) as [Hge|]; [|exact Hs].
    assert (Hdebited :
      Forall (fun st => 0 <= BulkStock.quantity st)
        (JS.updateFirst (BulkStock.isFor p a) (BulkStock.subQuantity q)
           (bulkStock s))).
    { apply nonNegative_debit; [|exact Hs]. intros x Hx.
      rewrite Hsrc in Hx. injection Hx as <-. lia. }
    destruct dest as [b|]; [|exact Hdebited].
    destruct (negb (b =? "")%string); [|exact Hdebited].
    destruct (find (BulkStock.isFor p b) _); simpl.
    + now apply nonNegative_credit.
    + now apply nonNegative_push.
  - intros p seller q Hq. unfold returnBulkToManufacturer.
    destruct (find (BulkStock.isFor p seller) (bulkStock s)) as [src|] eqn:Hsrc;
      [|exact Hs].
    destruct (Z.geb_spec (BulkStock.quantity src) q) as [Hge|]; [|exact Hs].
    assert (Hdebited :
      Forall (fun st => 0 <= BulkStock.quantity st)
        (JS.updateFirst (BulkStock.isFor p seller) (BulkStock.subQuantity q)
           (bulkStock s))).
    { apply nonNegative_debit; [|exact Hs]. intros x Hx.
      rewrite Hsrc in Hx. injection Hx as <-. lia. }
    destruct (find _ (products s)); simpl; [|exact Hdebited].
    now apply nonNegative_credit.
  - intros hash newId product q partialUnits Hq. unfold saveProductBatch.
    destruct (Product.isSerialized product); simpl; [exact Hs|].
    destruct (find _ (bulkStock s)); simpl.
    + now apply nonNegative_credit.
    + now apply nonNegative_push.
  - intros Horders newId orderId accept. split.
    + unfold cancelOrder.
      destruct (JS.findIndex _ (orders s)) as [i|]; [|exact Hs].
      destruct (nth_error (orders s) i) as [order|] eqn:Hnth; [|exact Hs].
      assert (Hq : 0 <= Order.quantity order).
      { rewrite Forall_forall in Horders. apply Horders.
        now apply nth_error_In in Hnth. }
      destruct (match Order.assignedUnitIds order with
                | Some ids => if (0 <? List.length ids)%nat then Some ids else None
                | None => None
                end); simpl; [exact Hs|].
      destruct (find _ (bulkStock s)); simpl.
      * now apply nonNegative_credit.
      * now apply nonNegative_push.
    + unfold processBuyerReturn.
      destruct (find (orderHasId orderId) (orders s)) as [order|] eqn:Hfind;
        [|exact Hs].
      assert (Hq : 0 <= Order.quantity order)
        by (apply (Forall_find _ _ _ _ Horders Hfind)).
      destruct accept.
      * destruct (Order.assignedUnitIds order); simpl; [exact Hs|].
        destruct (find _ (bulkStock s)); simpl; [|exact Hs].
        now apply nonNegative_credit.
      * destruct (Order.assignedUnitIds order); simpl; exact Hs.
Qed.

Lemma ledger_keeps_counters_non_negative_witness :
  bulkNonNegative (transferBulkStock "b2" "P2" "M1" (Some "S1") 2
                     sharedCounterShop).
Proof.
  refine (proj1 (ledger_keeps_counters_non_negative sharedCounterShop _)
            "b2" "P2" "M1" (Some "S1") 2 _).
  - repeat constructor. simpl. lia.
  - lia.
Defined.

Lemma transfer_conserves_total_witness :
  totalFor "P2"
    (bulkStock (transferBulkStock "b2" "P2" "M1" (Some "S1") 2
                  sharedCounterShop))
  = totalFor "P2" (bulkStock sharedCounterShop) - 0.
Proof.
  exact (proj2 (transfer_conserves_total "b2" "P2" "M1" (Some "S1") 2
                  sharedCounterShop) "P2").
Defined.

Lemma bulkHeld_heldIn p o s : bulkHeld p o s = heldIn p o (bulkStock s).
Proof. reflexivity. Qed.

Lemma heldIn_updateFirst p o d p' o' l :
  heldIn p' o' (JS.updateFirst (BulkStock.isFor p o) (BulkStock.addQuantity d) l)
  = heldIn p' o' l
    + (if (p' =? p)%string && (o' =? o)%string
       then match find (BulkStock.isFor p o) l with
            | Some _ => d
            | None => 0
            end
       else 0).
Proof.
  unfold heldIn.
  rewrite (find_counter_updated _ (addQuantity_key d)).
  destruct ((p' =? p)%string && (o' =? o)%string) eqn:Hk; [|lia].
  apply andb_prop in Hk. destruct Hk as [Hp Ho].
  apply String.eqb_eq in Hp, Ho. subst.
  destruct (find (BulkStock.isFor p o) l); simpl; lia.
Qed.

Lemma heldIn_push newId p o q p' o' l :
  find (BulkStock.isFor p o) l = None ->
  heldIn p' o' (l ++ [BulkStock.mk newId p o q])
  = heldIn p' o' l
    + (if (p' =? p)%string && (o' =? o)%string then q else 0).
Proof.
  intros Hnone. unfold heldIn.
  destruct (find (BulkStock.isFor p' o') l) as [st|] eqn:Hf.
  - rewrite (find_app_some _ _ _ _ Hf).
    destruct ((p' =? p)%string && (o' =? o)%string) eqn:Hk; [|lia].
    apply andb_prop in Hk. destruct Hk as [Hp Ho].
    apply String.eqb_eq in Hp, Ho. subst. congruence.
  - rewrite (find_app_none _ _ _ Hf). unfold BulkStock.isFor at 1. simpl.
    rewrite (String.eqb_sym p p'), (String.eqb_sym o o').
    destruct ((p' =? p)%string && (o' =? o)%string); simpl; lia.
Qed.

(** What every owner holds after an accepted transfer to a destination. *)
Lemma heldIn_transfer newId p a b q s p' o' :
  transferAccepted p a q s = true -> b <> "" ->
  heldIn p' o' (bulkStock (transferBulkStock newId p a (Some b) q s))
  = heldIn p' o' (bulkStock s)
    - (if (p' =? p)%string && (o' =? a)%string then q else 0)
    + (if (p' =? p)%string && (o' =? b)%string then q else 0).
Proof.
  intros Hacc Hb. rewrite transfer_unfold, Hacc. cbv zeta.
  assert (Ht : JS.truthy (Some b) = true).
  { simpl. apply negb_true_iff. now apply String.eqb_neq. }
  rewrite Ht.
  assert (Hsrc : exists src, find (BulkStock.isFor p a) (bulkStock s) = Some src).
  { unfold transferAccepted in Hacc.
    destruct (find _ (bulkStock s)) as [src|]; [now exists src|discriminate]. }
  destruct Hsrc as [src Hsrc].
  destruct (find (BulkStock.isFor p b) _) eqn:Hdest; simpl.
  - rewrite !heldIn_updateFirst, Hdest, Hsrc.
    destruct ((p' =? p)%string && (o' =? a)%string),
      ((p' =? p)%string && (o' =? b)%string); lia.
  - rewrite heldIn_push by exact Hdest.
    rewrite heldIn_updateFirst, Hsrc.
    destruct ((p' =? p)%string && (o' =? a)%string),
      ((p' =? p)%string && (o' =? b)%string); lia.
Qed.

Lemma transfer_destination_exists newId p a b q s :
  transferAccepted p a q s = true -> b <> "" ->
  exists st,
    find (BulkStock.isFor p b)
      (bulkStock (transferBulkStock newId p a (Some b) q s)) = Some st.
Proof.
  intros Hacc Hb. rewrite transfer_unfold, Hacc. cbv zeta.
  assert (Ht : JS.truthy (Some b) = true).
  { simpl. apply negb_true_iff. now apply String.eqb_neq. }
  rewrite Ht.
  destruct (find (BulkStock.isFor p b)
              (JS.updateFirst (BulkStock.isFor p a)
                 (BulkStock.addQuantity (- q)) (bulkStock s)))
    as [st|] eqn:Hdest; cbn [bulkStock setBulkStock].
  - rewrite (find_counter_updated _ (addQuantity_key q)), !String.eqb_refl.
    cbn [andb]. rewrite Hdest. simpl. eauto.
  - rewrite (find_app_none _ _ _ Hdest). unfold BulkStock.isFor at 1.
    cbn [BulkStock.productId BulkStock.ownerId].
    rewrite !String.eqb_refl. simpl. eauto.
Qed.

Lemma transferAccepted_heldIn p a q s :
  transferAccepted p a q s = true -> q <= heldIn p a (bulkStock s).
Proof.
  unfold transferAccepted, heldIn.
  destruct (find _ (bulkStock s)); [|discriminate].
  intros H. apply Z.geb_le in H. lia.
Qed.

(** A transfer from [a] to [b] followed by the transfer of the same
    quantity from [b] to [a] leaves every owner holding what it held. *)
Theorem transfer_round_trip id1 id2 p a b q s :
  transferAccepted p a q s = true ->
  a <> "" -> b <> "" ->
  0 <= bulkHeld p b s ->
  let s1 := transferBulkStock id1 p a (Some b) q s in
  let s2 := transferBulkStock id2 p b (Some a) q s1 in
  transferAccepted p b q s1 = true
  /\ forall p' o', bulkHeld p' o' s2 = bulkHeld p' o' s.
Proof.
  intros Hacc Ha Hb Hheld s1 s2.
  assert (Hacc1 : transferAccepted p b q s1 = true).
  { destruct (transfer_destination_exists id1 p a b q s Hacc Hb) as [st Hst].
    pose proof (heldIn_transfer id1 p a b q s p b Hacc Hb) as Hq.
    unfold heldIn at 1 in Hq. fold s1 in Hst, Hq. rewrite Hst in Hq.
    unfold transferAccepted. rewrite Hst. apply Z.geb_le.
    rewrite bulkHeld_heldIn in Hheld.
    pose proof (transferAccepted_heldIn _ _ _ _ Hacc) as Hsrc.
    rewrite !String.eqb_refl in Hq. simpl in Hq.
    destruct (String.eqb_spec b a) as [->|]; simpl in Hq; lia. }
  split; [exact Hacc1|]. intros p' o'. rewrite !bulkHeld_heldIn.
  unfold s2. rewrite heldIn_transfer by assumption.
  unfold s1. rewrite heldIn_transfer by assumption.
  destruct ((p' =? p)%string && (o' =? a)%string),
    ((p' =? p)%string && (o' =? b)%string); lia.
Qed.

Lemma transfer_round_trip_witness :
  bulkHeld "P2" "M1"
    (transferBulkStock "b3" "P2" "S1" (Some "M1") 2
       (transferBulkStock "b2" "P2" "M1" (Some "S1") 2 sharedCounterShop))
  = bulkHeld "P2" "M1" sharedCounterShop.
Proof.
  refine (proj2 (transfer_round_trip "b2" "b3" "P2" "M1" "S1" 2
                   sharedCounterShop eq_refl _ _ _) "P2" "M1").
  - discriminate.
  - discriminate.
  - vm_compute. discriminate.
Defined.

(** A return to the manufacturer that is not accepted changes nothing.  One
    that is accepted takes the quantity from what the seller holds and adds
    it to what the manufacturer holds, but only where the product is in the
    catalogue and its manufacturer has a counter: otherwise the quantity
    leaves the total of the product.  What any other owner holds, and what
    anyone holds of another product, is as it was; no counter is created or
    removed, and nothing but the ledger changes. *)
Theorem return_to_manufacturer_moves_quantity p seller q s :
  let s' := returnBulkToManufacturer p seller q s in
  let accepted := transferAccepted p seller q s in
  (accepted = false -> s' = s)
  /\ (forall p' o',
        bulkHeld p' o' s'
        = bulkHeld p' o' s
          - (if accepted && (p' =? p)%string && (o' =? seller)%string
             then q else 0)
          + (if accepted && (p' =? p)%string && creditedOwner p s o'
             then q else 0))
  /\ (forall p',
        totalFor p' (bulkStock s')
        = totalFor p' (bulkStock s)
          - (if accepted && negb (isSome (manufacturerCounter p s))
                && (p =? p')%string
             then q else 0))
  /\ map counterKey (bulkStock s') = map counterKey (bulkStock s)
  /\ products s' = products s /\ units s' = units s
  /\ orders s' = orders s /\ carts s' = carts s /\ settings s' = settings s.
Proof.
  cbv zeta.
  assert (Hrest :
    products (returnBulkToManufacturer p seller q s) = products s
    /\ units (returnBulkToManufacturer p seller q s) = units s
    /\ orders (returnBulkToManufacturer p seller q s) = orders s
    /\ carts (returnBulkToManufacturer p seller q s) = carts s
    /\ settings (returnBulkToManufacturer p seller q s) = settings s).
  { unfold returnBulkToManufacturer.
    destruct (find _ (bulkStock s)); [|repeat split].
    destruct (_ >=? _); [|repeat split].
    destruct (find _ (products s)); repeat split. }
  repeat rewrite bulkHeld_heldIn.
  unfold returnBulkToManufacturer, transferAccepted, creditedOwner,
    manufacturerCounter in *.
  destruct (find (BulkStock.isFor p seller) (bulkStock s)) as [src|] eqn:Hsrc.
  2:{ rewrite setBulkStock_same. split; [reflexivity|].
      split; [intros; rewrite !bulkHeld_heldIn; simpl; lia|].
      split; [intros; simpl; lia|]. split; [reflexivity|exact Hrest]. }
  destruct (BulkStock.quantity src >=? q).
  2:{ rewrite setBulkStock_same. split; [reflexivity|].
      split; [intros; rewrite !bulkHeld_heldIn; simpl; lia|].
      split; [intros; simpl; lia|]. split; [reflexivity|exact Hrest]. }
  split; [discriminate|].
  rewrite (updateFirst_ext _ _ _ _ (subQuantity_addQuantity q)).
  unfold productHasId in *.
  destruct (find _ (products s)) as [prod|]; cbn [bulkStock setBulkStock].
  - split; [|split; [|split; [|exact Hrest]]].
    + intros p' o'. rewrite !bulkHeld_heldIn. cbn [bulkStock setBulkStock].
      rewrite !heldIn_updateFirst, Hsrc.
      rewrite (find_counter_updated _ (addQuantity_key (- q))).
      destruct (find (BulkStock.isFor p (Product.manufacturerId prod))
                  (bulkStock s)) as [dst|];
        destruct ((p =? p)%string
                  && (Product.manufacturerId prod =? seller)%string);
        destruct (p' =? p)%string, (o' =? seller)%string,
          (o' =? Product.manufacturerId prod)%string; simpl; lia.
    + intros p'. rewrite !totalFor_updateFirst, Hsrc.
      rewrite (find_counter_updated _ (addQuantity_key (- q))).
      destruct (_ && _);
        destruct (find (BulkStock.isFor p (Product.manufacturerId prod))
                    (bulkStock s)); simpl;
        destruct (p =? p')%string; lia.
    + now rewrite !(keys_updateFirst _ (addQuantity_key _)).
  - split; [|split; [|split; [|exact Hrest]]].
    + intros p' o'. rewrite !bulkHeld_heldIn. cbn [bulkStock setBulkStock].
      rewrite heldIn_updateFirst, Hsrc.
      destruct (p' =? p)%string, (o' =? seller)%string; simpl; lia.
    + intros p'. rewrite totalFor_updateFirst, Hsrc. simpl.
      destruct (p =? p')%string; lia.
    + now rewrite (keys_updateFirst _ (addQuantity_key _)).
Qed.

Lemma return_to_manufacturer_witness :
  let s' := returnBulkToManufacturer "P2" "S1" 3 returnShop in
  bulkHeld "P2" "S1" s' = 2 /\ bulkHeld "P2" "M1" s' = 4.
Proof.
  cbv zeta.
  destruct (return_to_manufacturer_moves_quantity "P2" "S1" 3 returnShop)
    as (_ & Hheld & _).
  rewrite (Hheld "P2" "S1"), (Hheld "P2" "M1"). split; reflexivity.
Defined.

Lemma find_none_key p o l :
  find (BulkStock.isFor p o) l = None -> ~ In (p, o) (map counterKey l).
Proof.
  intros Hnone Hin. apply in_map_iff in Hin. destruct Hin as (st & Hk & Hst).
  apply (find_none _ _ Hnone) in Hst. apply isFor_key in Hk. congruence.
Qed.

Lemma NoDup_keys_push newId p o q l :
  find (BulkStock.isFor p o) l = None ->
  NoDup (map counterKey l) ->
  NoDup (map counterKey (l ++ [BulkStock.mk newId p o q])).
Proof.
  intros Hnone Hnd. rewrite map_app. simpl. apply NoDup_app.
  - exact Hnd.
  - constructor; [intros []|constructor].
  - intros k Hk [<-|[]]. now apply (find_none_key p o l).
Qed.

Lemma NoDup_map_filter {A B} (f : A -> B) p l :
  NoDup (map f l) -> NoDup (map f (filter p l)).
Proof.
  induction l as [|x r IH]; simpl; intros Hnd; [constructor|].
  apply NoDup_cons_iff in Hnd. destruct Hnd as [Hx Hnd].
  destruct (p x); simpl; [|now apply IH].
  constructor; [|now apply IH].
  intros Hin. apply Hx. apply in_map_iff in Hin.
  destruct Hin as (y & Hy & Hin). apply filter_In in Hin.
  rewrite <- Hy. apply in_map. tauto.
Qed.

(** A checkout either throws and leaves the store, or returns. *)
Lemma checkout_outcome today generateId user cart s :
  (exists e, processCheckout today generateId user cart s = (s, Throw e))
  \/ exists s1, processCheckout today generateId user cart s = (s1, Return tt).
Proof.
  unfold processCheckout, bind, read, write. simpl.
  destruct (validateCart (products s) (units s) (bulkStock s) cart s)
    as [s' [[]|e]] eqn:Hv.
  - right. eauto.
  - left. exists e. f_equal.
    clear -Hv. revert Hv. induction cart as [|item rest IH]; simpl.
    + discriminate.
    + destruct (validateItem _ _ _ item); [now intros [= <- _]|exact IH].
Qed.

(** Every operation on the ledger keeps one counter per product and
    owner: a counter is created only for a key that has none. *)
Theorem counters_stay_unique s :
  countersUnique s ->
  (forall newId p a dest q,
     countersUnique (transferBulkStock newId p a dest q s))
  /\ (forall p seller q, countersUnique (returnBulkToManufacturer p seller q s))
  /\ (forall hash newId product q partialUnits,
        countersUnique (saveProductBatch hash newId product q partialUnits s))
  /\ (forall newId orderId, countersUnique (cancelOrder newId orderId s))
  /\ (forall orderId accept,
        countersUnique (processBuyerReturn orderId accept s))
  /\ (forall today generateId user cart,
        countersUnique (fst (processCheckout today generateId user cart s)))
  /\ (forall productId, countersUnique (fst (deleteProduct productId s))).
Proof.
  unfold countersUnique. intros Hs.
  assert (Hadd : forall pr d,
    NoDup (map counterKey
             (JS.updateFirst pr (BulkStock.addQuantity d) (bulkStock s)))).
  { intros pr d. now rewrite (keys_updateFirst _ (addQuantity_key d)). }
  assert (Hsub : forall pr d,
    NoDup (map counterKey
             (JS.updateFirst pr (BulkStock.subQuantity d) (bulkStock s)))).
  { intros pr d. now rewrite (keys_updateFirst _ (subQuantity_key d)). }
  repeat split.
  - intros newId p a dest q. unfold transferBulkStock.
    destruct (find (BulkStock.isFor p a) (bulkStock s)); [|exact Hs].
    destruct (_ >=? q); [|exact Hs].
    destruct dest as [b|]; [|apply Hsub].
    destruct (negb (b =? "")%string); [|apply Hsub].
    destruct (find (BulkStock.isFor p b) _) eqn:Hb; cbn [bulkStock setBulkStock].
    + rewrite (keys_updateFirst _ (addQuantity_key q)). apply Hsub.
    + apply NoDup_keys_push; [exact Hb|apply Hsub].
  - intros p seller q. unfold returnBulkToManufacturer.
    destruct (find (BulkStock.isFor p seller) (bulkStock s)); [|exact Hs].
    destruct (_ >=? q); [|exact Hs].
    destruct (find _ (products s)); cbn [bulkStock setBulkStock];
      [|apply Hsub].
    rewrite (keys_updateFirst _ (addQuantity_key q)). apply Hsub.
  - intros hash newId product q partialUnits. unfold saveProductBatch.
    destruct (Product.isSerialized product); [exact Hs|].
    cbn [bulkStock setProducts].
    destruct (find _ (bulkStock s)) eqn:Hf; cbn [bulkStock setBulkStock].
    + apply Hadd.
    + now apply NoDup_keys_push.
  - intros newId orderId. unfold cancelOrder.
    destruct (JS.findIndex _ (orders s)) as [i|]; [|exact Hs].
    destruct (nth_error (orders s) i) as [order|]; [|exact Hs].
    destruct (match Order.assignedUnitIds order with
              | Some ids => if (0 <? List.length ids)%nat then Some ids else None
              | None => None
              end); [exact Hs|].
    destruct (find _ (bulkStock s)) eqn:Hf; cbn [bulkStock setBulkStock setOrders].
    + apply Hadd.
    + now apply NoDup_keys_push.
  - intros orderId accept. unfold processBuyerReturn.
    destruct (find (orderHasId orderId) (orders s)) as [order|]; [|exact Hs].
    destruct accept; destruct (Order.assignedUnitIds order);
      try exact Hs.
    destruct (find _ (bulkStock s)); [|exact Hs].
    cbn [bulkStock setBulkStock setOrders]. apply Hadd.
  - intros today generateId user cart.
    destruct (checkout_outcome today generateId user cart s)
      as [[e He]|[s1 Hs1]].
    + rewrite He. exact Hs.
    + rewrite Hs1. apply checkout_commits in Hs1.
      destruct Hs1 as (_ & _ & Hstock & _). cbn [fst]. rewrite Hstock.
      rewrite fold_stock. cbn [allStock]. rewrite map_map.
      exact Hs.
  - intros productId. unfold deleteProduct.
    destruct (fold_left recycleSerial _ _) as [pool changed].
    cbn [fst bulkStock setBulkStock].
    apply NoDup_map_filter. now destruct changed.
Qed.

Lemma counters_stay_unique_witness :
  countersUnique (transferBulkStock "b2" "P2" "M1" (Some "S1") 2
                    sharedCounterShop).
Proof.
  refine (proj1 (counters_stay_unique sharedCounterShop _)
            "b2" "P2" "M1" (Some "S1") 2).
  repeat constructor. intros [].
Defined.

(** A bulk batch adds its quantity to what the manufacturer holds of the
    product, in the counter it has or in a new one, and changes nothing else
    in the ledger and no unit. *)
Theorem production_adds_to_manufacturer_counter
    hash newId product q partialUnits s :
  Product.isSerialized product = false ->
  let s' := saveProductBatch hash newId product q partialUnits s in
  units s' = units s
  /\ forall p' o',
       bulkHeld p' o' s'
       = bulkHeld p' o' s
         + (if (p' =? Product.id product)%string
               && (o' =? Product.manufacturerId product)%string
            then q else 0).
Proof.
  intros Hbulk. cbv zeta. unfold saveProductBatch. rewrite Hbulk.
  cbn [bulkStock setProducts].
  destruct (find _ (bulkStock s)) eqn:Hf.
  - split; [reflexivity|]. intros p' o'. rewrite !bulkHeld_heldIn.
    cbn [bulkStock setBulkStock]. rewrite heldIn_updateFirst, Hf. reflexivity.
  - split; [reflexivity|]. intros p' o'. rewrite !bulkHeld_heldIn.
    cbn [bulkStock setBulkStock]. now rewrite heldIn_push.
Qed.

Lemma production_adds_witness :
  bulkHeld "P2" "M1"
    (saveProductBatch (fun _ _ => "h") "b2" bulkProduct 4 [] sharedCounterShop)
  = bulkHeld "P2" "M1" sharedCounterShop + 4.
Proof.
  exact (proj2 (production_adds_to_manufacturer_counter (fun _ _ => "h") "b2"
                  bulkProduct 4 [] sharedCounterShop eq_refl) "P2" "M1").
Defined.

(** ** Products and units *)

Lemma findIndex_none {A} (p : A -> bool) l :
  JS.findIndex p l = None <-> find p l = None.
Proof.
  induction l as [|x r IH]; simpl; [tauto|].
  destruct (p x); [split; discriminate|].
  destruct (JS.findIndex p r); simpl.
  - split; [discriminate|]. intros H. apply IH in H. discriminate.
  - split; [intros _; now apply IH|reflexivity].
Qed.

Lemma updateFirst_none {A} (p : A -> bool) f l :
  find p l = None -> JS.updateFirst p f l = l.
Proof.
  induction l as [|x r IH]; simpl; [reflexivity|].
  destruct (p x); [discriminate|]. intros H. now rewrite IH.
Qed.

Lemma map_updateFirst {A B} (k : A -> B) p f l :
  (forall x, k (f x) = k x) -> map k (JS.updateFirst p f l) = map k l.
Proof.
  intros Hk. induction l as [|x r IH]; simpl; [reflexivity|].
  destruct (p x); simpl; [now rewrite Hk|now rewrite IH].
Qed.

Lemma find_updateFirst_hit {A} (p : A -> bool) f l :
  (forall x, p x = true -> p (f x) = true) ->
  find p (JS.updateFirst p f l) = option_map f (find p l).
Proof.
  intros Hf. induction l as [|x r IH]; simpl; [reflexivity|].
  destruct (p x) eqn:Hp; simpl; [now rewrite (Hf x Hp)|now rewrite Hp].
Qed.

(** The map of the first element that satisfies the predicate, where the
    replacement satisfies what it replaces. *)
Lemma map_updateFirst_const {A B} (k : A -> B) (eqb : B -> B -> bool) v y l :
  (forall a b, eqb a b = true -> a = b) ->
  k y = v ->
  map k (JS.updateFirst (fun x => eqb (k x) v) (fun _ => y) l) = map k l.
Proof.
  intros Heq Hy. induction l as [|x r IH]; simpl; [reflexivity|].
  destruct (eqb (k x) v) eqn:E; simpl; [|now rewrite IH].
  apply Heq in E. now rewrite Hy, E.
Qed.

(** After [saveProductBatch] the product is the one found under its id,
    the products of other ids are found as before, and product ids stay
    unique. *)
Theorem saved_product_is_found hash newId product q partialUnits s :
  let s' := saveProductBatch hash newId product q partialUnits s in
  find (productHasId (Product.id product)) (products s') = Some product
  /\ (forall k, k <> Product.id product ->
        find (productHasId k) (products s') = find (productHasId k) (products s))
  /\ (NoDup (map Product.id (products s)) ->
      NoDup (map Product.id (products s'))).
Proof.
  cbv zeta.
  assert (Hproducts : exists ps,
    products (saveProductBatch hash newId product q partialUnits s) = ps
    /\ ps = match JS.findIndex (productHasId (Product.id product)) (products s) with
            | Some _ =>
                JS.updateFirst (productHasId (Product.id product))
                  (fun _ => product) (products s)
            | None => (products s ++ [product])%list
            end).
  { eexists. split; [|reflexivity]. unfold saveProductBatch.
    destruct (Product.isSerialized product); [reflexivity|].
    cbn [bulkStock setProducts]. now destruct (find _ (bulkStock s)). }
  destruct Hproducts as (ps & -> & ->).
  destruct (JS.findIndex _ (products s)) as [i|] eqn:Hi.
  - assert (Hsome : exists old,
      find (productHasId (Product.id product)) (products s) = Some old).
    { destruct (find (productHasId (Product.id product)) (products s)) eqn:Hf;
        [eauto|]. apply findIndex_none in Hf. congruence. }
    destruct Hsome as [old Hold]. split; [|split].
    + rewrite find_updateFirst_hit, Hold; [reflexivity|].
      intros x _. unfold productHasId. apply String.eqb_refl.
    + intros k Hk. apply find_updateFirst_other. intros x Hx.
      unfold productHasId in *. apply String.eqb_eq in Hx.
      rewrite Hx. split; now apply String.eqb_neq.
    + intros Hnd.
      rewrite (map_updateFirst_const Product.id String.eqb
                 (Product.id product) product); auto.
      intros a b. apply String.eqb_eq.
  - apply findIndex_none in Hi. split; [|split].
    + rewrite (find_app_none _ _ _ Hi). unfold productHasId.
      now rewrite String.eqb_refl.
    + intros k Hk.
      destruct (find (productHasId k) (products s)) as [x|] eqn:Hf.
      * now apply find_app_some.
      * rewrite (find_app_none _ _ _ Hf). unfold productHasId.
        apply String.eqb_neq in Hk. rewrite String.eqb_sym. now rewrite Hk.
    + intros Hnd. rewrite map_app. simpl. apply NoDup_app.
      * exact Hnd.
      * constructor; [intros []|constructor].
      * intros k Hk [<-|[]]. apply in_map_iff in Hk.
        destruct Hk as (x & Hx & Hin). apply (find_none _ _ Hi) in Hin.
        unfold productHasId in Hin. apply String.eqb_neq in Hin. congruence.
Qed.

Lemma saved_product_is_found_witness :
  NoDup (map Product.id
           (products (saveProductBatch (fun _ _ => "h") "b2"
                        (Product.mk "P2" "Basmati" "M1" false) 4 []
                        sharedCounterShop))).
Proof.
  refine (proj2 (proj2
    (saved_product_is_found (fun _ _ => "h") "b2"
       (Product.mk "P2" "Basmati" "M1" false) 4 [] sharedCounterShop)) _).
  repeat constructor. intros [].
Defined.

Lemma find_of_unique_key {A} (k : A -> string) l x :
  NoDup (map k l) -> In x l ->
  find (fun y => (k y =? k x)%string) l = Some x.
Proof.
  induction l as [|y r IH]; simpl; intros Hnd Hin; [destruct Hin|].
  apply NoDup_cons_iff in Hnd. destruct Hnd as [Hy Hnd].
  destruct (String.eqb_spec (k y) (k x)) as [Heq|Hne].
  - destruct Hin as [->|Hin]; [reflexivity|].
    exfalso. apply Hy. rewrite Heq. now apply in_map.
  - destruct Hin as [->|Hin]; [congruence|]. now apply IH.
Qed.

(** Where serial numbers are unique, a unit found by its serial number and
    carrying the code as its hash is the unit returned. *)
Lemma verifyProductIdentity_finds sn code s u :
  serialsUnique s ->
  In u (units s) -> ProductUnit.serialNumber u = sn ->
  ProductUnit.uniqueAuthHash u = Some code -> code <> "" ->
  verifyProductIdentity sn code s = Some u.
Proof.
  unfold verifyProductIdentity. intros Huniq Hin <- Hh Hcode.
  rewrite (find_of_unique_key ProductUnit.serialNumber _ u Huniq Hin).
  rewrite Hh. simpl. apply String.eqb_neq in Hcode. rewrite Hcode. simpl.
  now rewrite String.eqb_refl.
Qed.

(** [verifyProductIdentity] returns a unit only when that unit carries the
    scanned serial number and a stored hash, not empty, equal to the code;
    where serial numbers are unique it returns every such unit. *)
Theorem verification_accepts_only_stored_hash sn code s :
  (forall u,
     verifyProductIdentity sn code s = Some u ->
     In u (units s) /\ ProductUnit.serialNumber u = sn
     /\ ProductUnit.uniqueAuthHash u = Some code /\ code <> "")
  /\ (serialsUnique s ->
      forall u,
        In u (units s) -> ProductUnit.serialNumber u = sn ->
        ProductUnit.uniqueAuthHash u = Some code -> code <> "" ->
        verifyProductIdentity sn code s = Some u).
Proof.
  unfold verifyProductIdentity. split.
  - intros u.
    destruct (find _ (units s)) as [unit|] eqn:Hfind; [|discriminate].
    apply find_some in Hfind. destruct Hfind as [Hin Hsn].
    apply String.eqb_eq in Hsn.
    destruct (ProductUnit.uniqueAuthHash unit) as [h|] eqn:Hh; simpl;
      [|discriminate].
    destruct (String.eqb_spec h "") as [->|Hne]; simpl; [discriminate|].
    destruct (String.eqb_spec h code) as [->|]; [|discriminate].
    intros [= <-]. auto.
  - intros Huniq u Hin Hsn Hh Hcode.
    fold (verifyProductIdentity sn code s).
    now apply verifyProductIdentity_finds.
Qed.

(** The units that [saveProductBatch] adds for a serialized product come
    after the units there were; each has a serial number and a manufacturer
    that are not empty and carries the hash of the two; nothing is added to
    the bulk ledger. *)
Theorem saved_units_carry_their_hash hash newId product q partialUnits s :
  Product.isSerialized product = true ->
  let s' := saveProductBatch hash newId product q partialUnits s in
  bulkStock s' = bulkStock s
  /\ units s' = (units s ++ flat_map (finalUnit hash) partialUnits)%list
  /\ Forall
       (fun u =>
          ProductUnit.serialNumber u <> ""
          /\ ProductUnit.manufacturerId u <> ""
          /\ ProductUnit.uniqueAuthHash u
             = Some (hash (ProductUnit.serialNumber u)
                       (ProductUnit.manufacturerId u)))
       (flat_map (finalUnit hash) partialUnits)
  /\ (List.length (flat_map (finalUnit hash) partialUnits)
      <= List.length partialUnits)%nat.
Proof.
  intros Hser. cbv zeta. unfold saveProductBatch. rewrite Hser.
  split; [reflexivity|]. split; [reflexivity|]. split.
  - apply Forall_forall. intros u Hu. apply in_flat_map in Hu.
    destruct Hu as (pu & _ & Hu). unfold finalUnit in Hu.
    destruct (PartialUnit.serialNumber pu) as [sn|]; [|destruct Hu].
    destruct (PartialUnit.manufacturerId pu) as [m|]; [|destruct Hu].
    destruct (String.eqb_spec sn ""), (String.eqb_spec m ""); simpl in Hu;
      try destruct Hu as [<-|[]]; try contradiction. simpl. auto.
  - induction partialUnits as [|pu r IH]; simpl; [lia|].
    rewrite length_app.
    assert (List.length (finalUnit hash pu) <= 1)%nat; [|lia].
    unfold finalUnit.
    destruct (PartialUnit.serialNumber pu), (PartialUnit.manufacturerId pu);
      simpl; try lia.
    destruct (_ && _); simpl; lia.
Qed.

(** A unit saved with a serial number that no other live unit carries is
    recognised by [verifyProductIdentity] under the hash of its serial
    number and manufacturer. *)
Theorem saved_unit_verifies hash newId product q partialUnits s pu sn m :
  Product.isSerialized product = true ->
  In pu partialUnits ->
  PartialUnit.serialNumber pu = Some sn -> sn <> "" ->
  PartialUnit.manufacturerId pu = Some m -> m <> "" ->
  hash sn m <> "" ->
  let s' := saveProductBatch hash newId product q partialUnits s in
  serialsUnique s' ->
  exists u,
    verifyProductIdentity sn (hash sn m) s' = Some u
    /\ ProductUnit.id u = PartialUnit.id pu.
Proof.
  intros Hser Hin Hsn Hsne Hm Hmne Hhash s' Huniq.
  assert (Hunits :
    units s' = (units s ++ flat_map (finalUnit hash) partialUnits)%list).
  { unfold s', saveProductBatch. now rewrite Hser. }
  assert (Hu : finalUnit hash pu =
    [ProductUnit.mk (PartialUnit.id pu) (PartialUnit.productId pu) sn
       (PartialUnit.status pu) (Some (hash sn m)) m None None
       (PartialUnit.manufacturingDate pu) None None None]).
  { unfold finalUnit. rewrite Hsn, Hm.
    apply String.eqb_neq in Hsne, Hmne. now rewrite Hsne, Hmne. }
  exists (ProductUnit.mk (PartialUnit.id pu) (PartialUnit.productId pu) sn
            (PartialUnit.status pu) (Some (hash sn m)) m None None
            (PartialUnit.manufacturingDate pu) None None None).
  split; [|reflexivity].
  apply verifyProductIdentity_finds;
    try reflexivity; try assumption.
  rewrite Hunits. apply in_or_app. right. apply in_flat_map.
  exists pu. split; [exact Hin|]. rewrite Hu. now left.
Qed.

Lemma saved_units_witness :
  units (saveProductBatch (fun sn m => (sn ++ "/" ++ m)%string) "b1"
           serializedProduct 1 [newUnit "u9" "100009"] oneUnitStore)
  = (units oneUnitStore
     ++ flat_map (finalUnit (fun sn m => (sn ++ "/" ++ m)%string))
          [newUnit "u9" "100009"])%list.
Proof.
  exact (proj1 (proj2
    (saved_units_carry_their_hash (fun sn m => (sn ++ "/" ++ m)%string) "b1"
       serializedProduct 1 [newUnit "u9" "100009"] oneUnitStore eq_refl))).
Defined.

Lemma saved_unit_verifies_witness :
  exists u,
    verifyProductIdentity "100009" "100009/M1"
      (saveProductBatch (fun sn m => (sn ++ "/" ++ m)%string) "b1"
         serializedProduct 1 [newUnit "u9" "100009"] oneUnitStore) = Some u
    /\ ProductUnit.id u = "u9".
Proof.
  refine (saved_unit_verifies (fun sn m => (sn ++ "/" ++ m)%string) "b1"
            serializedProduct 1 [newUnit "u9" "100009"] oneUnitStore
            (newUnit "u9" "100009") "100009" "M1"
            eq_refl (or_introl eq_refl) eq_refl _ eq_refl _ _ _);
    try discriminate.
  unfold serialsUnique. simpl. repeat constructor; simpl.
  - intros [H|[]]. discriminate.
  - intros [].
Defined.

Lemma verification_witness :
  verifyProductIdentity "100000" "code"
    (setUnits
       [ProductUnit.mk "u1" "P1" "100000" AT_SELLER (Some "code") "M1"
          (Some "S1") None "2024-01-01" None None None] (emptyStore None))
  = Some (ProductUnit.mk "u1" "P1" "100000" AT_SELLER (Some "code") "M1"
            (Some "S1") None "2024-01-01" None None None).
Proof.
  apply (proj2 (verification_accepts_only_stored_hash "100000" "code"
                  (setUnits
                     [ProductUnit.mk "u1" "P1" "100000" AT_SELLER (Some "code")
                        "M1" (Some "S1") None "2024-01-01" None None None]
                     (emptyStore None)))).
  - unfold serialsUnique. simpl. repeat constructor. intros [].
  - left. reflexivity.
  - reflexivity.
  - reflexivity.
  - discriminate.
Defined.

(** ** Unit identity *)

Lemma identities_updateFirst p f us :
  (forall u, identity (f u) = identity u) ->
  map identity (JS.updateFirst p f us) = map identity us.
Proof. apply map_updateFirst. Qed.

Lemma identities_forEachUnit ids f : forall us,
  (forall u, identity (f u) = identity u) ->
  map identity (forEachUnit ids f us) = map identity us.
Proof.
  unfold forEachUnit. induction ids as [|k ids IH]; intros us Hf; simpl;
    [reflexivity|].
  rewrite IH by exact Hf. now apply identities_updateFirst.
Qed.

Lemma identities_fold today generateId user ps cart : forall w,
  map identity
    (allUnits (fold_left (executeItem today generateId user ps) cart w))
  = map identity (allUnits w).
Proof.
  induction cart as [|item rest IH]; intros w; simpl; [reflexivity|].
  rewrite IH.
  destruct (executeItem_units today generateId user ps w item) as (P & ->).
  rewrite map_map. apply map_ext. intros u. now destruct (P u).
Qed.

(** No operation on orders, returns or checkout creates or deletes a
    unit or changes the id, serial number, product or manufacturer of one;
    serial numbers that are unique stay unique. *)
Theorem lifecycle_keeps_unit_identity s :
  (forall orderId, identities (requestOrderReturn orderId s) = identities s)
  /\ (forall orderId accept,
        identities (processBuyerReturn orderId accept s) = identities s)
  /\ (forall today orderId unitIds,
        identities (fulfillOrder today orderId unitIds s) = identities s)
  /\ (forall newId orderId,
        identities (cancelOrder newId orderId s) = identities s)
  /\ (forall today unitIds,
        identities (returnUnitsToManufacturer today unitIds s) = identities s)
  /\ (forall today generateId user cart,
        identities (fst (processCheckout today generateId user cart s))
        = identities s)
  /\ (forall s', identities s' = identities s ->
        serialsUnique s -> serialsUnique s').
Proof.
  unfold identities. repeat split.
  - intros orderId. unfold requestOrderReturn.
    destruct (find _ (orders s)) as [order|]; [|reflexivity].
    destruct (Order.assignedUnitIds order); [|reflexivity].
    now apply identities_forEachUnit.
  - intros orderId accept. unfold processBuyerReturn.
    destruct (find _ (orders s)) as [order|]; [|reflexivity].
    destruct accept; destruct (Order.assignedUnitIds order);
      try (now apply identities_forEachUnit); try reflexivity.
    now destruct (find _ (bulkStock s)).
  - intros today orderId unitIds. unfold fulfillOrder.
    destruct (find _ (orders s)) as [order|]; [|reflexivity].
    destruct unitIds; [|reflexivity].
    destruct (match Order.assignedUnitIds order with
              | Some ids => (List.length ids =? 0)%nat
              | None => true
              end); [|reflexivity].
    now apply identities_forEachUnit.
  - intros newId orderId. unfold cancelOrder.
    destruct (JS.findIndex _ (orders s)) as [i|]; [|reflexivity].
    destruct (nth_error (orders s) i) as [order|]; [|reflexivity].
    destruct (match Order.assignedUnitIds order with
              | Some ids => if (0 <? List.length ids)%nat then Some ids else None
              | None => None
              end).
    + now apply identities_forEachUnit.
    + now destruct (find _ (bulkStock s)).
  - intros today unitIds. now apply identities_forEachUnit.
  - intros today generateId user cart.
    destruct (checkout_outcome today generateId user cart s)
      as [[e He]|[s1 Hs1]].
    + now rewrite He.
    + rewrite Hs1. apply checkout_commits in Hs1.
      destruct Hs1 as (_ & Hunits & _). cbn [fst]. rewrite Hunits.
      apply identities_fold.
  - intros s' Hid. unfold serialsUnique.
    assert (Hserials : forall t,
      map ProductUnit.serialNumber (units t)
      = map (fun i => snd (fst (fst i))) (map identity (units t))).
    { intros t. rewrite map_map. reflexivity. }
    now rewrite !Hserials, Hid.
Qed.

(** [updateProductUnits] keeps the ids of the units and their order: it
    adds no unit and removes none.  When the units it is given have
    different ids, each of them that has its id among the live units is the
    unit found under that id afterwards, and the unit of any other id is
    found as before. *)
Theorem update_replaces_known_units unitsToUpdate s :
  let s' := updateProductUnits unitsToUpdate s in
  map ProductUnit.id (units s') = map ProductUnit.id (units s)
  /\ (NoDup (map ProductUnit.id unitsToUpdate) ->
      (forall u,
         In u unitsToUpdate ->
         In (ProductUnit.id u) (map ProductUnit.id (units s)) ->
         find (hasId (ProductUnit.id u)) (units s') = Some u)
      /\ (forall k,
            ~ In k (map ProductUnit.id unitsToUpdate) ->
            find (hasId k) (units s') = find (hasId k) (units s))).
Proof.
  cbv zeta. unfold updateProductUnits. cbn [units setUnits].
  generalize (units s) as us.
  assert (Hstep : forall (u : ProductUnit.t) acc,
    match JS.findIndex (hasId (ProductUnit.id u)) acc with
    | Some _ => JS.updateFirst (hasId (ProductUnit.id u)) (fun _ => u) acc
    | None => acc
    end = JS.updateFirst (hasId (ProductUnit.id u)) (fun _ => u) acc).
  { intros u acc. destruct (JS.findIndex _ acc) eqn:Hi; [reflexivity|].
    apply findIndex_none in Hi. now rewrite updateFirst_none. }
  assert (Hids : forall (u : ProductUnit.t) acc,
    map ProductUnit.id
      (JS.updateFirst (hasId (ProductUnit.id u)) (fun _ => u) acc)
    = map ProductUnit.id acc).
  { intros u acc.
    apply (map_updateFirst_const ProductUnit.id String.eqb
             (ProductUnit.id u) u); [|reflexivity].
    intros a b. apply String.eqb_eq. }
  assert (Hfind : forall (u : ProductUnit.t) k acc,
    find (hasId k) (JS.updateFirst (hasId (ProductUnit.id u)) (fun _ => u) acc)
    = if (k =? ProductUnit.id u)%string
      then option_map (fun _ => u) (find (hasId k) acc)
      else find (hasId k) acc).
  { intros u k acc. destruct (String.eqb_spec k (ProductUnit.id u)) as [->|Hne].
    - apply find_updateFirst_hit. intros x _. unfold hasId.
      apply String.eqb_refl.
    - apply find_updateFirst_other. intros x Hx. unfold hasId in *.
      apply String.eqb_eq in Hx. rewrite Hx.
      split; apply String.eqb_neq; congruence. }
  induction unitsToUpdate as [|u rest IH]; intros us; simpl.
  - split; [reflexivity|]. intros _. split; [intros u []|reflexivity].
  - rewrite Hstep.
    destruct (IH (JS.updateFirst (hasId (ProductUnit.id u)) (fun _ => u) us))
      as [IHids IHfind].
    split; [now rewrite IHids, Hids|].
    intros Hnd. apply NoDup_cons_iff in Hnd. destruct Hnd as [Hu Hnd].
    destruct (IHfind Hnd) as [IHin IHout]. split.
    + intros v [<-|Hv] Hknown.
      * rewrite (IHout _ Hu), Hfind, String.eqb_refl.
        apply in_map_iff in Hknown. destruct Hknown as (x & Hx & Hin).
        destruct (find (hasId (ProductUnit.id u)) us) eqn:Hf; [reflexivity|].
        apply (find_none _ _ Hf) in Hin. unfold hasId in Hin.
        rewrite Hx, String.eqb_refl in Hin. discriminate.
      * apply IHin; [exact Hv|]. now rewrite Hids.
    + intros k Hk. rewrite IHout by tauto. rewrite Hfind.
      destruct (String.eqb_spec k (ProductUnit.id u)); [|reflexivity].
      subst. tauto.
Qed.

Lemma update_replaces_witness :
  find (hasId "u1")
    (units (updateProductUnits [sellerUnit "u1" AT_SELLER None None]
              oneUnitStore))
  = Some (sellerUnit "u1" AT_SELLER None None).
Proof.
  refine (proj1 (proj2 (update_replaces_known_units
                          [sellerUnit "u1" AT_SELLER None None] oneUnitStore) _)
            _ (or_introl eq_refl) (or_introl eq_refl)).
  repeat constructor. intros [].
Defined.

(** ** Deletion *)

Lemma recycle_flag us : forall pool,
  snd (fold_left recycleSerial us (pool, true)) = true.
Proof.
  induction us as [|u rest IH]; intros pool; simpl; [reflexivity|].
  unfold recycleSerial at 2. cbn [fst].
  destruct (JS.parseInt _); [|apply IH]. destruct (negb _); apply IH.
Qed.

Lemma recycle_step pool changed u :
  let result := recycleSerial (pool, changed) u in
  (forall n, In n pool -> In n (fst result))
  /\ (forall n,
        JS.parseInt (ProductUnit.serialNumber u) = Some n -> In n (fst result))
  /\ (NoDup pool -> NoDup (fst result))
  /\ (result = (pool, changed) \/ snd result = true).
Proof.
  cbv zeta. unfold recycleSerial. cbn [fst].
  destruct (JS.parseInt (ProductUnit.serialNumber u)) as [num|].
  - destruct (JS.includesZ pool num) eqn:Hin; cbn [negb fst snd].
    + repeat split; auto. intros n [= <-]. now apply includesZ_true_iff.
    + repeat split; auto.
      * intros n Hn. apply in_or_app. now left.
      * intros n [= <-]. apply in_or_app. right. now left.
      * intros Hnd. apply NoDup_app; [exact Hnd| |].
        -- constructor; [intros []|constructor].
        -- intros x Hx [<-|[]]. apply includesZ_true_iff in Hx. congruence.
  - repeat split; auto. discriminate.
Qed.

(** The loop of [deleteProduct]: the pool keeps what it had, gains the
    number of every unit it visits, stays without repetition, and is flagged
    as changed whenever it has grown. *)
Lemma recycle_fold us : forall pool changed,
  let result := fold_left recycleSerial us (pool, changed) in
  (forall n, In n pool -> In n (fst result))
  /\ (forall u n,
        In u us -> JS.parseInt (ProductUnit.serialNumber u) = Some n ->
        In n (fst result))
  /\ (NoDup pool -> NoDup (fst result))
  /\ (snd result = false -> fst result = pool).
Proof.
  induction us as [|u rest IH]; intros pool changed; simpl.
  - repeat split; auto. intros u n [].
  - destruct (recycle_step pool changed u) as (S1 & S2 & S3 & S4).
    destruct (recycleSerial (pool, changed) u) as [pool1 changed1].
    cbn [fst snd] in *.
    destruct (IH pool1 changed1) as (H1 & H2 & H3 & H4).
    repeat split; auto.
    + intros v n [<-|Hv] Hn; [auto|now apply (H2 v)].
    + intros Hfalse. destruct S4 as [Hsame|Hflag].
      * injection Hsame as -> ->. auto.
      * subst changed1. now rewrite recycle_flag in Hfalse.
Qed.

Lemma recycledPool_deleteProduct productId s :
  recycledPool (fst (deleteProduct productId s))
  = fst (fold_left recycleSerial (filter (ofProduct productId) (units s))
           (recycledPool s, false)).
Proof.
  unfold deleteProduct. fold (recycledPool s).
  pose proof (recycle_fold (filter (ofProduct productId) (units s))
                (recycledPool s) false) as (_ & _ & _ & Hsame).
  destruct (fold_left recycleSerial _ _) as [pool changed].
  cbn [fst snd] in *. destruct changed.
  - reflexivity.
  - now rewrite Hsame.
Qed.

(** [deleteProduct] leaves no product, unit or counter of the product,
    keeps the products, units and counters of every other product, and puts
    the numeric serial of every unit it deletes in the reclaimed pool.  It
    touches neither the orders nor the carts, which may still name the
    product. *)
Theorem delete_product_cascades productId s :
  let s' := fst (deleteProduct productId s) in
  (forall p, In p (products s') <->
             In p (products s) /\ Product.id p <> productId)
  /\ (forall u, In u (units s') <->
                In u (units s) /\ ProductUnit.productId u <> productId)
  /\ (forall st, In st (bulkStock s') <->
                 In st (bulkStock s) /\ BulkStock.productId st <> productId)
  /\ (forall u n,
        In u (units s) -> ProductUnit.productId u = productId ->
        JS.parseInt (ProductUnit.serialNumber u) = Some n ->
        In n (recycledPool s'))
  /\ (forall n, In n (recycledPool s) -> In n (recycledPool s'))
  /\ orders s' = orders s /\ carts s' = carts s.
Proof.
  cbv zeta.
  pose proof (recycledPool_deleteProduct productId s) as Hpool.
  pose proof (recycle_fold (filter (ofProduct productId) (units s))
                (recycledPool s) false) as (Hkeep & Hgain & _ & _).
  cbv zeta in Hkeep, Hgain. rewrite <- Hpool in Hkeep, Hgain.
  assert (Hfields :
    products (fst (deleteProduct productId s))
      = filter (fun p => negb (productHasId productId p)) (products s)
    /\ units (fst (deleteProduct productId s))
       = filter (fun u => negb (ofProduct productId u)) (units s)
    /\ bulkStock (fst (deleteProduct productId s))
       = filter (fun st => negb (BulkStock.productId st =? productId)%string)
           (bulkStock s)
    /\ orders (fst (deleteProduct productId s)) = orders s
    /\ carts (fst (deleteProduct productId s)) = carts s).
  { unfold deleteProduct.
    destruct (fold_left recycleSerial _ _) as [pool changed].
    destruct changed; repeat split; reflexivity. }
  destruct Hfields as (-> & -> & -> & -> & ->).
  repeat split; auto.
  - apply filter_In in H. tauto.
  - apply filter_In in H. destruct H as [_ H]. unfold productHasId in H.
    apply negb_true_iff, String.eqb_neq in H. exact H.
  - intros [Hin Hne]. apply filter_In. split; [exact Hin|].
    unfold productHasId. apply negb_true_iff. now apply String.eqb_neq.
  - apply filter_In in H. tauto.
  - apply filter_In in H. destruct H as [_ H]. unfold ofProduct in H.
    apply negb_true_iff, String.eqb_neq in H. exact H.
  - intros [Hin Hne]. apply filter_In. split; [exact Hin|].
    unfold ofProduct. apply negb_true_iff. now apply String.eqb_neq.
  - apply filter_In in H. tauto.
  - apply filter_In in H. destruct H as [_ H].
    apply negb_true_iff, String.eqb_neq in H. exact H.
  - intros [Hin Hne]. apply filter_In. split; [exact Hin|].
    apply negb_true_iff. now apply String.eqb_neq.
  - intros u n Hu Hp Hn. apply (Hgain u); [|exact Hn].
    apply filter_In. split; [exact Hu|]. unfold ofProduct.
    now apply String.eqb_eq.
Qed.

(** Deleting a unit, deleting a product and allocating a batch keep the
    reclaimed pool free of repetition. *)
Theorem reclaimed_pool_stays_unique s :
  NoDup (recycledPool s) ->
  (forall unitId, NoDup (recycledPool (deleteProductUnit unitId s)))
  /\ (forall productId, NoDup (recycledPool (fst (deleteProduct productId s))))
  /\ (forall quantity,
        NoDup (recycledPool (fst (generateNextSerialBatch quantity s)))).
Proof.
  intros Hnd. split; [|split].
  - intros unitId. unfold deleteProductUnit.
    destruct (find _ (units s)) as [u|]; [|exact Hnd].
    destruct (JS.parseInt _) as [num|]; [|exact Hnd].
    change (getGlobalSettings (setUnits _ s)) with (getGlobalSettings s).
    fold (recycledPool s).
    destruct (JS.includesZ (recycledPool s) num) eqn:Hin; [exact Hnd|].
    cbn [negb]. unfold recycledPool at 1, getGlobalSettings at 1.
    cbn [settings saveGlobalSettings GlobalSettings.recycledSerials
         GlobalSettings.withRecycled].
    apply NoDup_app; [exact Hnd| |].
    + constructor; [intros []|constructor].
    + intros x Hx [<-|[]]. apply includesZ_true_iff in Hx. congruence.
  - intros productId. rewrite recycledPool_deleteProduct.
    now apply (recycle_fold _ (recycledPool s) false).
  - intros quantity.
    destruct (generateNextSerialBatch quantity s) as [s' [serials|e]] eqn:Hgen.
    + apply generateNextSerialBatch_returns in Hgen.
      destruct Hgen as (taken & Hsplit & _). cbn [fst].
      apply (NoDup_app_remove_l taken). rewrite <- Hsplit.
      apply (Permutation_NoDup (Permutation_sym (sort_Permutation _)) Hnd).
    + cbn [fst]. unfold generateNextSerialBatch in Hgen.
      destruct (drainRecycled _ _ _ _) as [g r].
      destruct (scanRange _ _ _ _ g); [discriminate|].
      now injection Hgen as <- _.
Qed.

Lemma reclaimed_pool_witness :
  NoDup (recycledPool (deleteProductUnit "u1" oneUnitStore)).
Proof.
  refine (proj1 (reclaimed_pool_stays_unique oneUnitStore _) "u1").
  constructor.
Defined.

(** ** Payloads that validate *)

(** The first field of a split is free of the separator, and what follows
    it in the string splits into the other fields. *)
Lemma split_first sep : forall s p ps,
  JS.split sep s = p :: ps ->
  freeOf sep p = true
  /\ match ps with
     | [] => s = p
     | _ :: _ => exists r, s = p ++ String sep r /\ JS.split sep r = ps
     end.
Proof.
  induction s as [|c r IH]; simpl; intros p ps.
  - intros [= <- <-]. now split.
  - destruct (Ascii.eqb_spec c sep) as [->|Hne].
    + intros [= <- <-]. split; [reflexivity|].
      destruct (JS.split sep r) as [|q qs] eqn:Hr.
      * destruct r; simpl in Hr; [discriminate|].
        destruct (Ascii.eqb _ _); [discriminate|].
        destruct (JS.split sep r); discriminate.
      * exists r. now split.
    + destruct (JS.split sep r) as [|q qs] eqn:Hr.
      * destruct r; simpl in Hr; [discriminate|].
        destruct (Ascii.eqb _ _); [discriminate|].
        destruct (JS.split sep r); discriminate.
      * intros [= <- <-]. destruct (IH q qs eq_refl) as [Hq Hrest].
        split.
        -- simpl. rewrite Hq. apply Ascii.eqb_neq in Hne. now rewrite Hne.
        -- destruct qs as [|q' qs'].
           ++ now rewrite Hrest.
           ++ destruct Hrest as (r' & -> & Hr'). exists r'. now split.
Qed.

Lemma split_three sep s a b c :
  JS.split sep s = [a; b; c] ->
  s = a ++ String sep (b ++ String sep c)
  /\ freeOf sep a = true /\ freeOf sep b = true /\ freeOf sep c = true.
Proof.
  intros H. apply split_first in H. cbn iota in H.
  destruct H as [Ha [r [Hs H]]]. subst s.
  apply split_first in H. cbn iota in H.
  destruct H as [Hb [r' [Hr H]]]. subst r.
  apply split_first in H. cbn iota in H. destruct H as [Hc Hr]. subst r'.
  auto.
Qed.

Lemma prefix_LS a r :
  freeOf ":" a = true ->
  String.prefix "LS:" (a ++ String ":" r) = true -> a = "LS".
Proof.
  intros Ha H. change "LS:" with (String "L" (String "S" (String ":" ""))) in H.
  destruct a as [|x a]; cbn [append] in H.
  { rewrite prefix_cons_ne in H; discriminate. }
  destruct (Ascii.eqb_spec "L" x) as [<-|Hx];
    [|now rewrite prefix_cons_ne in H].
  rewrite prefix_cons_eq in H.
  destruct a as [|y a]; cbn [append] in H.
  { rewrite prefix_cons_ne in H; discriminate. }
  destruct (Ascii.eqb_spec "S" y) as [<-|Hy];
    [|now rewrite prefix_cons_ne in H].
  rewrite prefix_cons_eq in H.
  destruct a as [|z a]; [reflexivity|]. cbn [append] in H.
  destruct (Ascii.eqb_spec ":" z) as [<-|Hz];
    [|now rewrite prefix_cons_ne in H].
  simpl in Ha. discriminate.
Qed.

(** [validateSignedQR] accepts a text exactly when it is the payload that
    [getSignedQRData] writes for a serial number without a colon, and then
    answers with that serial number; an accepted text never carries an
    error, and a rejected one never carries a serial number. *)
Theorem validation_accepts_only_signed_payloads text :
  (forall sn,
     validateSignedQR text = mkQRValidation true (Some sn) None
     <-> freeOf ":" sn = true /\ text = getSignedQRData sn)
  /\ (valid (validateSignedQR text) = true
      \/ qrSerialNumber (validateSignedQR text) = None)
  /\ (valid (validateSignedQR text) = true <->
      exists sn, validateSignedQR text = mkQRValidation true (Some sn) None).
Proof.
  assert (Hshape :
    (exists sn, validateSignedQR text = mkQRValidation true (Some sn) None)
    \/ (exists e, validateSignedQR text = mkQRValidation false None (Some e))).
  { unfold validateSignedQR. destruct (negb _); [right; eauto|].
    destruct (JS.split ":" text) as [|a [|b [|c [|d l]]]];
      try (right; eauto; fail).
    destruct (negb _); [right|left]; eauto. }
  split; [|split].
  - intros sn. split.
    + unfold validateSignedQR, JS.startsWith.
      destruct (String.prefix "LS:" text) eqn:Hprefix; [|discriminate].
      simpl.
      destruct (JS.split ":" text) as [|a [|b [|c [|d l]]]] eqn:Hsplit;
        try discriminate.
      destruct (String.eqb_spec c (generateSyncSignature (b ++ SYSTEM_SECRET_KEY)))
        as [->|]; [|discriminate].
      simpl. intros [= <-].
      apply split_three in Hsplit. destruct Hsplit as (-> & Ha & Hb & _).
      apply prefix_LS in Hprefix; [|exact Ha]. subst a. now split.
    + intros [Hsn ->]. unfold getSignedQRData.
      change (":" ++ ?x) with (String ":" x).
      rewrite validate_two_fields;
        [now rewrite String.eqb_refl|exact Hsn|apply freeOf_toString16].
  - destruct Hshape as [(sn & ->)|(e & ->)]; [now left|now right].
  - split.
    + destruct Hshape as [(sn & ->)|(e & ->)]; [eauto|discriminate].
    + intros (sn & ->). reflexivity.
Qed.

Lemma freeOf_app_sep sep a b : freeOf sep (a ++ String sep b) = false.
Proof.
  induction a as [|c a IH]; simpl.
  - now rewrite Ascii.eqb_refl.
  - rewrite IH. apply andb_false_r.
Qed.

(** The text before the last separator and the text after it determine
    each other's place. *)
Lemma last_field_inj sep : forall a a' y y',
  freeOf sep y = true -> freeOf sep y' = true ->
  a ++ String sep y = a' ++ String sep y' -> a = a' /\ y = y'.
Proof.
  induction a as [|c a IH]; intros [|c' a'] y y' Hy Hy'; simpl.
  - intros [= ->]. now split.
  - intros [= <- ->]. now rewrite freeOf_app_sep in Hy.
  - intros [= -> <-]. now rewrite freeOf_app_sep in Hy'.
  - intros [= <- H]. destruct (IH a' y y' Hy Hy' H) as [-> ->]. now split.
Qed.

(** Two serial numbers never share a payload: the payload carries the
    serial number in clear before its last colon. *)
Lemma payloads_differ a b :
  a <> b -> getSignedQRData a <> getSignedQRData b.
Proof.
  intros Hne H. apply Hne. unfold getSignedQRData in H.
  assert (Hcut : forall x y : string, "LS:" ++ x = "LS:" ++ y -> x = y).
  { intros x y. simpl. now intros [= ->]. }
  apply Hcut in H.
  change (":" ++ ?x) with (String ":" x) in H.
  now apply last_field_inj in H; [|apply freeOf_toString16..].
Qed.

Lemma payloads_differ_witness :
  getSignedQRData "100000" <> getSignedQRData "100001".
Proof. apply payloads_differ. discriminate. Defined.

(** ** What the inventory getters show and what a checkout sells *)

Lemma isStockOf_isFor productId seller st :
  isStockOf productId (Some seller) st = BulkStock.isFor productId seller st.
Proof. reflexivity. Qed.

Lemma find_ext {A} (p q : A -> bool) l :
  (forall x, p x = q x) -> find p l = find q l.
Proof.
  intros H. induction l as [|x r IH]; simpl; [reflexivity|].
  now rewrite H, IH.
Qed.

(** For a bulk line that asks for a positive quantity, step A of the
    checkout passes exactly when the quantity is within the stock that
    [getProductStockForOwner] reports for the seller of the line. *)
Theorem shown_bulk_stock_decides_checkout s item seller :
  CartItem.isSerialized item = false ->
  validationSeller (products s) item = Some seller -> seller <> "" ->
  0 < CartItem.quantity item ->
  validateItem (products s) (units s) (bulkStock s) item = None
  <-> CartItem.quantity item
      <= getProductStockForOwner (CartItem.productId item) seller false s.
Proof.
  intros Hbulk Hseller Hne Hpos.
  unfold validateItem, getProductStockForOwner.
  rewrite Hseller, Hbulk. apply String.eqb_neq in Hne.
  cbn [JS.truthy negb]. rewrite Hne. cbn [negb].
  rewrite (find_ext _ (BulkStock.isFor (CartItem.productId item) seller))
    by (intros; apply isStockOf_isFor).
  destruct (find _ (bulkStock s)) as [stock|].
  - destruct (Z.ltb_spec (BulkStock.quantity stock) (CartItem.quantity item));
      split; intros; try discriminate; try lia; reflexivity.
  - split; [discriminate|lia].
Qed.

Lemma shown_bulk_stock_witness :
  validateItem (products shopOfTwo) (units shopOfTwo) (bulkStock shopOfTwo)
    (bulkLine "c1" 2 (Some "S1")) = None.
Proof.
  apply (shown_bulk_stock_decides_checkout shopOfTwo
           (bulkLine "c1" 2 (Some "S1")) "S1");
    try reflexivity; try discriminate.
Defined.

Lemma filter_length_le {A} (p q : A -> bool) l :
  (forall x, p x = true -> q x = true) ->
  (List.length (filter p l) <= List.length (filter q l))%nat.
Proof.
  intros Hpq. induction l as [|x r IH]; simpl; [lia|].
  destruct (p x) eqn:Hp.
  - rewrite (Hpq x Hp). simpl. lia.
  - destruct (q x); simpl; lia.
Qed.

Lemma UnitStatus_eqb_eq a b : UnitStatus_eqb a b = true <-> a = b.
Proof. destruct a, b; simpl; split; intros; congruence. Qed.

(** For a serialized line, step A of the checkout passes exactly when the
    quantity is within the units that [getAvailableSerialNumbers] lists for
    the seller in the statuses AT_SELLER and RETURNED_TO_SELLER together;
    the stock that [getProductStockForOwner] reports is never below that
    number, as it also counts the units its owner holds in the factory. *)
Theorem sellable_units_decide_checkout s item seller :
  CartItem.isSerialized item = true ->
  validationSeller (products s) item = Some seller -> seller <> "" ->
  let listed (status : UnitStatus) :=
    Z.of_nat
      (List.length
         (getAvailableSerialNumbers (CartItem.productId item) status
            sellerIdField seller s)) in
  (validateItem (products s) (units s) (bulkStock s) item = None
   <-> CartItem.quantity item <= listed AT_SELLER + listed RETURNED_TO_SELLER)
  /\ listed AT_SELLER + listed RETURNED_TO_SELLER
     <= getProductStockForOwner (CartItem.productId item) seller true s.
Proof.
  intros Hser Hseller Hne. cbv zeta.
  unfold validateItem, getProductStockForOwner, getAvailableSerialNumbers.
  rewrite Hseller, Hser. apply String.eqb_neq in Hne.
  cbn [JS.truthy negb ownerOf]. rewrite Hne. cbn [negb].
  set (pid := CartItem.productId item).
  assert (Hcount :
    List.length (filter (isAvailable pid (Some seller)) (units s))
    = (List.length
         (filter
            (fun u =>
               (ProductUnit.productId u =? pid)%string
               && UnitStatus_eqb (ProductUnit.status u) AT_SELLER
               && JS.strictEq (ProductUnit.sellerId u) (Some seller))
            (units s))
       + List.length
           (filter
              (fun u =>
                 (ProductUnit.productId u =? pid)%string
                 && UnitStatus_eqb (ProductUnit.status u) RETURNED_TO_SELLER
                 && JS.strictEq (ProductUnit.sellerId u) (Some seller))
              (units s)))%nat).
  { induction (units s) as [|u r IH]; simpl; [reflexivity|].
    unfold isAvailable at 1.
    destruct (ProductUnit.productId u =? pid)%string; simpl; [|exact IH].
    destruct (JS.strictEq (ProductUnit.sellerId u) (Some seller)); simpl.
    - destruct (ProductUnit.status u); simpl; lia.
    - rewrite !andb_false_r. exact IH. }
  split.
  - rewrite <- Nat2Z.inj_add, <- Hcount.
    destruct (Z.ltb_spec
                (Z.of_nat
                   (List.length (filter (isAvailable pid (Some seller)) (units s))))
                (CartItem.quantity item));
      split; intros; try discriminate; try lia; reflexivity.
  - rewrite <- Nat2Z.inj_add, <- Hcount. apply inj_le.
    apply filter_length_le. intros u. unfold isAvailable, isStockHeldBy.
    destruct (ProductUnit.productId u =? pid)%string; simpl;
      [|intros H; discriminate H].
    destruct (JS.strictEq _ _); simpl; [|intros H; discriminate H].
    intros ->. apply orb_true_r.
Qed.

Lemma sellable_units_witness :
  validateItem (products freshShop) (units freshShop) (bulkStock freshShop)
    (serializedLine "c1" 1) = None.
Proof.
  apply (proj1 (sellable_units_decide_checkout freshShop
                  (serializedLine "c1" 1) "S1" eq_refl eq_refl
                  ltac:(discriminate))).
  vm_compute. discriminate.
Defined.

(** [getProductsWithStock] lists a product with the quantity that
    [getProductStockForOwner] reports for the owner: for a manufacturer the
    products it makes, whatever the quantity, and for any other role the
    products of which the owner holds a positive quantity.  The products
    come in the order of the catalogue. *)
Lemma listing_shows_held_products ownerId role s :
  (forall p q,
     In (p, q) (getProductsWithStock ownerId role s)
     <-> In p (products s)
         /\ q = getProductStockForOwner (Product.id p) ownerId
                  (Product.isSerialized p) s
         /\ (if UserRole_eqb role MANUFACTURER
             then Product.manufacturerId p = ownerId
             else 0 < q))
  /\ map fst (getProductsWithStock ownerId role s)
     = filter
         (fun p =>
            if UserRole_eqb role MANUFACTURER
            then (Product.manufacturerId p =? ownerId)%string
            else 0 <? getProductStockForOwner (Product.id p) ownerId
                        (Product.isSerialized p) s)
         (products s).
Proof.
  unfold getProductsWithStock. split.
  - intros p q. rewrite in_flat_map. split.
    + intros (p' & Hin & Hp). revert Hp.
      destruct (UserRole_eqb role MANUFACTURER); simpl.
      * destruct (String.eqb_spec (Product.manufacturerId p') ownerId);
          simpl; [|intros []].
        intros [[= <- <-]|[]]. auto.
      * destruct (Z.ltb_spec 0
                    (getProductStockForOwner (Product.id p') ownerId
                       (Product.isSerialized p') s)); simpl; [|intros []].
        intros [[= <- <-]|[]]. auto.
    + intros (Hin & -> & Hrole). exists p. split; [exact Hin|].
      destruct (UserRole_eqb role MANUFACTURER); simpl.
      * apply String.eqb_eq in Hrole. rewrite Hrole. now left.
      * apply Z.ltb_lt in Hrole. rewrite Hrole. now left.
  - induction (products s) as [|p r IH]; simpl; [reflexivity|].
    rewrite map_app, IH.
    destruct (UserRole_eqb role MANUFACTURER); simpl.
    + now destruct (_ =? _)%string.
    + now destruct (0 <? _).
Qed.

(** ** What a checkout sells *)

Lemma NoDup_map_eq {A B} (f : A -> B) l x y :
  NoDup (map f l) -> In x l -> In y l -> f x = f y -> x = y.
Proof.
  induction l as [|a r IH]; simpl; intros Hnd Hx Hy Hf; [destruct Hx|].
  apply NoDup_cons_iff in Hnd. destruct Hnd as [Ha Hnd].
  destruct Hx as [->|Hx], Hy as [->|Hy]; auto.
  - exfalso. apply Ha. rewrite Hf. now apply in_map.
  - exfalso. apply Ha. rewrite <- Hf. now apply in_map.
Qed.

Lemma Forall2_map_r_in {A B} (R R' : A -> B -> Prop) (g : B -> B) l l' :
  Forall2 R l l' ->
  (forall a b, In b l' -> R a b -> R' a (g b)) ->
  Forall2 R' l (map g l').
Proof.
  induction 1 as [|a b l l' Hab Hrest IH]; simpl; intros Hg; constructor.
  - apply Hg; [now left|exact Hab].
  - apply IH. intros a' b' Hin. apply Hg. now right.
Qed.

Lemma slice0_In {A} e (l : list A) x : In x (JS.slice0 e l) -> In x l.
Proof. unfold JS.slice0. destruct (e <? 0); apply firstn_In. Qed.

Section Sale.

Variable today : string.
Variable generateId : nat -> string.
Variable user : User.t.
Variable ps : list Product.t.

Local Abbreviation step := (executeItem today generateId user ps).

Local Abbreviation keptOrSold := (keptOrSold today user).

Lemma keptOrSold_id l l' :
  Forall2 keptOrSold l l' -> map ProductUnit.id l' = map ProductUnit.id l.
Proof.
  induction 1 as [|u u' l l' [->|[-> _]] _ IH]; simpl; now rewrite ?IH.
Qed.

Lemma executeItem_keptOrSold original w item :
  NoDup (map ProductUnit.id original) ->
  Forall2 keptOrSold original (allUnits w) ->
  Forall2 keptOrSold original (allUnits (step w item)).
Proof.
  intros Hnd Hinv. unfold executeItem.
  destruct (executionSeller ps item) as [seller|]; [|exact Hinv].
  destruct (negb _); [exact Hinv|].
  destruct (CartItem.isSerialized item); [|exact Hinv].
  cbn [allUnits].
  apply (Forall2_map_r_in keptOrSold); [exact Hinv|].
  intros u u' Hin Hu.
  destruct (JS.includes _ (ProductUnit.id u')) eqn:Hinc; [|exact Hu].
  apply includes_true_iff, in_map_iff in Hinc.
  destruct Hinc as (v & Hid & Hv).
  apply slice0_In, filter_In in Hv. destruct Hv as [Hv Havail].
  assert (v = u').
  { apply (NoDup_map_eq ProductUnit.id (allUnits w)); auto.
    now rewrite (keptOrSold_id _ _ Hinv). }
  subst v. unfold isAvailable in Havail.
  apply andb_prop in Havail. destruct Havail as [_ Hst].
  apply orb_prop in Hst.
  assert (Hsellable : sellable u').
  { destruct Hst as [H|H]; apply UnitStatus_eqb_eq in H; [now left|now right]. }
  destruct Hu as [->|[-> _]].
  - right. now split.
  - destruct Hsellable as [H|H]; discriminate H.
Qed.

Lemma fold_keptOrSold original cart : forall w,
  NoDup (map ProductUnit.id original) ->
  Forall2 keptOrSold original (allUnits w) ->
  Forall2 keptOrSold original (allUnits (fold_left step cart w)).
Proof.
  induction cart as [|item rest IH]; intros w Hnd Hinv; simpl; [exact Hinv|].
  apply IH; [exact Hnd|]. now apply executeItem_keptOrSold.
Qed.

End Sale.

Lemma Forall2_refl_or {A} (R : A -> A -> Prop) l :
  (forall x, R x x) -> Forall2 R l l.
Proof. intros H. induction l; constructor; auto. Qed.

(** Where unit ids are unique, a successful checkout leaves every unit as it
    was or, if the unit was in status AT_SELLER or RETURNED_TO_SELLER, marks
    it sold to the buyer on the day of the checkout; it adds and removes no
    unit.  A unit in the factory, in transit, sold, or in a return is never
    touched. *)
Theorem checkout_sells_only_sellable_units today generateId user cart s s1 :
  unitIdsUnique s ->
  processCheckout today generateId user cart s = (s1, Return tt) ->
  Forall2 (keptOrSold today user) (units s) (units s1).
Proof.
  intros Hnd Hrun. apply checkout_commits in Hrun.
  destruct Hrun as (_ & -> & _).
  apply (fold_keptOrSold today generateId user (products s) (units s));
    [exact Hnd|].
  apply Forall2_refl_or. intros u. now left.
Qed.

Lemma checkout_sells_witness :
  Forall2 (keptOrSold "2024-01-02" buyer) (units freshShop)
    (units (fst (processCheckout "2024-01-02" orderIds buyer
                   [serializedLine "c1" 1] freshShop))).
Proof.
  apply (checkout_sells_only_sellable_units "2024-01-02" orderIds buyer
           [serializedLine "c1" 1] freshShop).
  - unfold unitIdsUnique. simpl. repeat constructor. intros [].
  - reflexivity.
Defined.

(** ** What a checkout takes from the bulk ledger *)

(** A successful checkout takes from every counter the quantities of the
    bulk lines that name its product and its owner, and from no counter
    anything else; it adds and removes no counter. *)
Lemma checkout_debits_each_counter today generateId user cart s s1 :
  processCheckout today generateId user cart s = (s1, Return tt) ->
  bulkStock s1
  = map (fun st => BulkStock.subQuantity (drawn (products s) cart st) st)
      (bulkStock s).
Proof.
  intros Hrun. apply checkout_commits in Hrun.
  destruct Hrun as (_ & _ & -> & _). now rewrite fold_stock.
Qed.

Lemma checkout_debits_witness :
  bulkStock (fst (processCheckout "2024-01-02" orderIds buyer
                    sharedCounterCart sharedCounterShop))
  = map (fun st =>
           BulkStock.subQuantity
             (drawn (products sharedCounterShop) sharedCounterCart st) st)
      (bulkStock sharedCounterShop).
Proof.
  apply (checkout_debits_each_counter "2024-01-02" orderIds buyer).
  reflexivity.
Defined.

Lemma takes_line ps item st :
  takes ps item st <> 0 ->
  CartItem.isSerialized item = false
  /\ lineCounter ps item = (BulkStock.productId st, Some (BulkStock.ownerId st))
  /\ isStockOf (CartItem.productId item) (executionSeller ps item) st = true
  /\ JS.truthy (executionSeller ps item) = true
  /\ takes ps item st = CartItem.quantity item.
Proof.
  unfold takes, lineCounter.
  destruct (JS.truthy (executionSeller ps item)) eqn:Ht; simpl;
    [|congruence].
  destruct (CartItem.isSerialized item); simpl; [congruence|].
  destruct (isStockOf _ _ st) eqn:Hst; [|congruence].
  intros _. repeat split; auto. unfold isStockOf in Hst.
  apply andb_prop in Hst. destruct Hst as [Hp Ho].
  apply String.eqb_eq in Hp.
  destruct (executionSeller ps item) as [seller|]; [|discriminate].
  simpl in Ho. apply String.eqb_eq in Ho. congruence.
Qed.

Lemma drawn_none ps cart st :
  (forall item, In item cart -> takes ps item st = 0) ->
  drawn ps cart st = 0.
Proof.
  induction cart as [|item rest IH]; simpl; intros H; [reflexivity|].
  rewrite (H item), IH by auto. reflexivity.
Qed.

(** With one bulk line per counter, what the cart takes from a counter is
    what one of its lines asks for, or nothing. *)
Lemma drawn_one_line ps cart st bound :
  NoDup (map (lineCounter ps) (bulkLines cart)) ->
  0 <= bound ->
  (forall item,
     In item cart -> takes ps item st <> 0 -> CartItem.quantity item <= bound) ->
  drawn ps cart st <= bound.
Proof.
  induction cart as [|item rest IH]; simpl; intros Hnd Hb Hle; [exact Hb|].
  destruct (Z.eq_dec (takes ps item st) 0) as [Hz|Hnz].
  - rewrite Hz. simpl. apply IH; auto.
    destruct (CartItem.isSerialized item); simpl in Hnd; [exact Hnd|].
    now apply NoDup_cons_iff in Hnd.
  - destruct (takes_line ps item st Hnz) as (Hbulk & Hkey & _ & _ & Hq).
    rewrite Hbulk in Hnd. simpl in Hnd. apply NoDup_cons_iff in Hnd.
    destruct Hnd as [Hfresh _].
    rewrite drawn_none.
    + rewrite Hq, Z.add_0_r. apply Hle; auto.
    + intros other Hin.
      destruct (Z.eq_dec (takes ps other st) 0) as [|Hother]; [assumption|].
      exfalso. apply Hfresh.
      destruct (takes_line ps other st Hother) as (Hbulk' & Hkey' & _).
      rewrite Hkey, <- Hkey'. apply in_map. unfold bulkLines.
      apply filter_In. split; [exact Hin|]. now rewrite Hbulk'.
Qed.

Lemma isStockOf_key productId sellerId st :
  isStockOf productId sellerId st = true ->
  counterKey st = (productId, BulkStock.ownerId st)
  /\ sellerId = Some (BulkStock.ownerId st).
Proof.
  unfold isStockOf, counterKey. intros H. apply andb_prop in H.
  destruct H as [Hp Ho]. apply String.eqb_eq in Hp.
  destruct sellerId as [seller|]; [|discriminate].
  simpl in Ho. apply String.eqb_eq in Ho. subst. now split.
Qed.

(** Where every product and owner has one counter and no two bulk lines of
    the cart draw from the same counter, a successful checkout leaves no
    counter negative. *)
Theorem checkout_keeps_counters_non_negative
    today generateId user cart s s1 :
  countersUnique s -> bulkNonNegative s ->
  NoDup (map (lineCounter (products s)) (bulkLines cart)) ->
  processCheckout today generateId user cart s = (s1, Return tt) ->
  bulkNonNegative s1.
Proof.
  intros Huniq Hpos Hlines Hrun.
  pose proof (checkout_commits _ _ _ _ _ _ Hrun) as (Hvalid & _ & Hstock & _).
  unfold bulkNonNegative in *. rewrite Hstock, fold_stock. cbn [allStock].
  apply Forall_forall. intros st' Hin. apply in_map_iff in Hin.
  destruct Hin as (st & <- & Hin). simpl.
  assert (0 <= BulkStock.quantity st).
  { rewrite Forall_forall in Hpos. now apply Hpos. }
  assert (drawn (products s) cart st <= BulkStock.quantity st); [|lia].
  apply drawn_one_line; auto.
  intros item Hitem Htakes.
  destruct (takes_line _ _ _ Htakes) as (Hbulk & _ & Hst & Ht & _).
  rewrite Forall_forall in Hvalid. specialize (Hvalid item Hitem).
  pose proof (validateItem_seller _ _ _ _ Hvalid) as Hseller.
  rewrite (sellers_agree _ _ Hseller) in Hst.
  unfold validateItem in Hvalid. rewrite Hseller, Hbulk in Hvalid.
  cbn [negb] in Hvalid.
  destruct (find _ (bulkStock s)) as [found|] eqn:Hfind; [|discriminate].
  destruct (Z.ltb_spec (BulkStock.quantity found) (CartItem.quantity item));
    [discriminate|].
  apply find_some in Hfind. destruct Hfind as [Hfound Hmatch].
  assert (found = st); [|now subst].
  apply (NoDup_map_eq counterKey (bulkStock s)); auto.
  apply isStockOf_key in Hmatch, Hst.
  destruct Hmatch as [-> Ho], Hst as [-> Ho']. congruence.
Qed.

Lemma checkout_keeps_counters_witness :
  bulkNonNegative
    (fst (processCheckout "2024-01-02" orderIds buyer
            [bulkLine "c1" 2 (Some "S1")] shopOfTwo)).
Proof.
  apply (checkout_keeps_counters_non_negative "2024-01-02" orderIds buyer
           [bulkLine "c1" 2 (Some "S1")] shopOfTwo).
  - unfold countersUnique. simpl. repeat constructor. intros [].
  - unfold bulkNonNegative. simpl.
    constructor; [vm_compute; discriminate|constructor].
  - simpl. repeat constructor. intros [].
  - reflexivity.
Defined.

(** ** The orders a checkout writes *)

Section NewOrders.

Variable today : string.
Variable generateId : nat -> string.
Variable user : User.t.
Variable ps : list Product.t.

Local Abbreviation step := (executeItem today generateId user ps).

Lemma executeItem_order w item :
  JS.truthy (executionSeller ps item) = true ->
  exists o,
    newOrders (step w item) = (newOrders w ++ [o])%list
    /\ orderFor today user ps item o
    /\ Order.id o = generateId (List.length (newOrders w)).
Proof.
  intros Ht. unfold executeItem.
  destruct (executionSeller ps item) as [seller|] eqn:Hseller;
    [|discriminate].
  rewrite Ht. cbn [negb].
  destruct (CartItem.isSerialized item) eqn:Hser; cbn [newOrders];
    eexists; (split; [reflexivity|]); split; try reflexivity;
    unfold orderFor, orderOfLine; simpl; rewrite ?Hseller;
    repeat split; auto; discriminate.
Qed.

Lemma fold_new_orders cart : forall w,
  Forall (fun item => JS.truthy (executionSeller ps item) = true) cart ->
  exists created,
    newOrders (fold_left step cart w) = (newOrders w ++ created)%list
    /\ Forall2 (orderFor today user ps) cart created
    /\ map Order.id created
       = map generateId (seq (List.length (newOrders w)) (List.length cart)).
Proof.
  induction cart as [|item rest IH]; intros w Hall; simpl.
  - exists []. rewrite app_nil_r. repeat split. constructor.
  - apply Forall_cons_iff in Hall. destruct Hall as [Hitem Hrest].
    destruct (executeItem_order w item Hitem) as (o & Hw & Ho & Hid).
    destruct (IH (step w item) Hrest) as (created & Hfold & Hall & Hids).
    exists (o :: created). rewrite Hfold, Hw, <- app_assoc.
    split; [reflexivity|]. split; [now constructor|].
    simpl. rewrite Hid, Hids, Hw, length_app. simpl.
    now rewrite Nat.add_1_r.
Qed.

End NewOrders.

(** A successful checkout keeps the orders there were and appends one order
    for each line of the cart, in the order of the cart: an order awaiting
    confirmation, of the product and the quantity of the line, from the
    seller of the line to the buyer, dated with the day of the checkout,
    whose id is the next id generated. *)
Theorem checkout_writes_one_order_per_line today generateId user cart s s1 :
  processCheckout today generateId user cart s = (s1, Return tt) ->
  firstn (List.length (orders s)) (orders s1) = orders s
  /\ Forall2 (orderFor today user (products s)) cart (createdOrders s s1)
  /\ map Order.id (createdOrders s s1)
     = map generateId (seq 0 (List.length cart)).
Proof.
  intros Hrun. apply checkout_commits in Hrun.
  destruct Hrun as (Hvalid & _ & _ & Horders).
  destruct (fold_new_orders today generateId user (products s) cart
              (mkWorking (units s) (bulkStock s) [])) as (created & Hc & Hall & Hids).
  { eapply Forall_impl; [|exact Hvalid]. intros item Hitem. simpl in Hitem.
    apply validateItem_seller in Hitem.
    now rewrite (sellers_agree _ _ Hitem). }
  simpl in Hc, Hids. unfold createdOrders. rewrite Horders, Hc.
  rewrite skipn_length_app. split; [|now split].
  rewrite firstn_app, Nat.sub_diag, firstn_all. simpl. apply app_nil_r.
Qed.

Lemma checkout_writes_witness :
  map Order.id
    (createdOrders freshShop
       (fst (processCheckout "2024-01-02" orderIds buyer
               [serializedLine "c1" 1] freshShop)))
  = map orderIds (seq 0 1).
Proof.
  apply (checkout_writes_one_order_per_line "2024-01-02" orderIds buyer
           [serializedLine "c1" 1] freshShop).
  reflexivity.
Defined.

(** ** Carts *)

Lemma find_key_filter_other {V} (k k' : string) (l : list (string * V)) :
  k <> k' ->
  find (fun kv => (fst kv =? k)%string)
    (filter (fun kv => negb (fst kv =? k')%string) l)
  = find (fun kv => (fst kv =? k)%string) l.
Proof.
  intros Hne. induction l as [|[a v] r IH]; simpl; [reflexivity|].
  destruct (String.eqb_spec a k') as [->|]; simpl.
  - destruct (String.eqb_spec k' k); [congruence|exact IH].
  - now rewrite IH.
Qed.

Lemma find_key_filter_same {V} (k : string) (l : list (string * V)) :
  find (fun kv => (fst kv =? k)%string)
    (filter (fun kv => negb (fst kv =? k)%string) l) = None.
Proof.
  induction l as [|[a v] r IH]; simpl; [reflexivity|].
  destruct (String.eqb_spec a k) as [->|Hne]; simpl; [exact IH|].
  apply String.eqb_neq in Hne. now rewrite Hne.
Qed.

Lemma getCart_removeCart userId other s :
  getCart other (removeCart userId s)
  = if (other =? userId)%string then [] else getCart other s.
Proof.
  unfold getCart, removeCart. cbn [carts].
  destruct (String.eqb_spec other userId) as [->|Hne].
  - now rewrite find_key_filter_same.
  - now rewrite find_key_filter_other.
Qed.

Lemma getCart_setCart userId other cart s :
  getCart other (setCart userId cart s)
  = if (other =? userId)%string then cart else getCart other s.
Proof.
  unfold getCart, setCart. cbn [carts].
  destruct (find _ (carts s)) as [kv|] eqn:Hfind.
  - destruct (String.eqb_spec other userId) as [->|Hne].
    + rewrite find_updateFirst_hit, Hfind; [reflexivity|].
      intros x _. simpl. apply String.eqb_refl.
    + rewrite find_updateFirst_other; [reflexivity|].
      intros x Hx. apply String.eqb_eq in Hx.
      simpl. rewrite Hx. split; apply String.eqb_neq; congruence.
  - destruct (String.eqb_spec other userId) as [->|Hne].
    + rewrite find_app_none by exact Hfind. simpl.
      now rewrite String.eqb_refl.
    + destruct (find (fun kv => (fst kv =? other)%string) (carts s)) eqn:Ho.
      * now rewrite (find_app_some _ _ _ _ Ho).
      * rewrite find_app_none by exact Ho. simpl.
        apply not_eq_sym, String.eqb_neq in Hne. now rewrite Hne.
Qed.

Lemma checkout_clears today generateId user cart s s1 :
  processCheckout today generateId user cart s = (s1, Return tt) ->
  carts s1 = carts (removeCart (User.id user) s)
  /\ products s1 = products s /\ settings s1 = settings s.
Proof.
  unfold processCheckout, bind, read, write. simpl.
  destruct (validateCart (products s) (units s) (bulkStock s) cart s)
    as [s' [[]|e]] eqn:Hv; [|discriminate].
  apply validateCart_passes in Hv. destruct Hv as [-> Hall].
  intros [= <-]. simpl. auto.
Qed.

(** A successful checkout empties the cart of the buyer and leaves the
    carts of the other users, the catalogue and the settings as they
    were. *)
Theorem checkout_empties_the_buyers_cart today generateId user cart s s1 :
  processCheckout today generateId user cart s = (s1, Return tt) ->
  getCart (User.id user) s1 = []
  /\ (forall other, other <> User.id user -> getCart other s1 = getCart other s)
  /\ products s1 = products s /\ settings s1 = settings s.
Proof.
  intros Hrun. apply checkout_clears in Hrun.
  destruct Hrun as (Hcarts & Hproducts & Hsettings).
  assert (Hcart : forall other,
    getCart other s1 = getCart other (removeCart (User.id user) s)).
  { intros other. unfold getCart. now rewrite Hcarts. }
  repeat split; auto.
  - now rewrite Hcart, getCart_removeCart, String.eqb_refl.
  - intros other Hne. rewrite Hcart, getCart_removeCart.
    apply String.eqb_neq in Hne. now rewrite Hne.
Qed.

Lemma checkout_empties_witness :
  getCart "B1"
    (fst (processCheckout "2024-01-02" orderIds buyer
            [serializedLine "c1" 1] freshShop)) = [].
Proof.
  apply (checkout_empties_the_buyers_cart "2024-01-02" orderIds buyer
           [serializedLine "c1" 1] freshShop).
  reflexivity.
Defined.

Lemma strictEq_eq a b : JS.strictEq a b = true <-> a = b.
Proof.
  destruct a, b; simpl; split; intros H; try congruence.
  - apply String.eqb_eq in H. congruence.
  - injection H as ->. apply String.eqb_refl.
Qed.

Lemma sameLine_key item c : sameLine item c = true <-> lineKey c = lineKey item.
Proof.
  unfold sameLine, lineKey. rewrite andb_true_iff, String.eqb_eq, strictEq_eq.
  split; [intros [-> ->]; reflexivity|intros [= -> ->]; now split].
Qed.

Lemma sameLine_mergeLine item other c :
  sameLine other (mergeLine item c) = sameLine other c.
Proof. reflexivity. Qed.

(** [addToCart] raises the quantity that the cart holds under the key of
    the line (its product and seller) by the quantity of the line, keeps the
    first line of every other key, keeps the carts of the other users, and
    keeps a cart with one line per key such a cart. *)
Theorem cart_add_merges_by_product_and_seller userId item s :
  let s' := addToCart userId item s in
  quantityOf item (getCart userId s')
  = quantityOf item (getCart userId s) + CartItem.quantity item
  /\ (forall other,
        lineKey other <> lineKey item ->
        find (sameLine other) (getCart userId s')
        = find (sameLine other) (getCart userId s))
  /\ (forall otherUser,
        otherUser <> userId -> getCart otherUser s' = getCart otherUser s)
  /\ (NoDup (map lineKey (getCart userId s)) ->
      NoDup (map lineKey (getCart userId s'))).
Proof.
  cbv zeta. unfold addToCart.
  set (cart := getCart userId s).
  assert (Hself : sameLine item item = true) by now apply sameLine_key.
  destruct (find (sameLine item) cart) as [existing|] eqn:Hfind;
    rewrite !getCart_setCart, String.eqb_refl; repeat split.
  - unfold quantityOf.
    rewrite find_updateFirst, Hfind by (intros; apply sameLine_mergeLine).
    reflexivity.
  - intros other Hother. apply find_updateFirst_other. intros x Hx.
    rewrite sameLine_mergeLine. split; apply not_true_is_false;
      intros Hy; apply Hother; apply sameLine_key in Hx, Hy; congruence.
  - intros otherUser Hne. rewrite getCart_setCart.
    apply String.eqb_neq in Hne. now rewrite Hne.
  - intros Hnd. now rewrite map_updateFirst.
  - unfold quantityOf. rewrite Hfind, find_app_none by exact Hfind.
    simpl. rewrite Hself. lia.
  - intros other Hother.
    destruct (find (sameLine other) cart) eqn:Ho.
    + now rewrite (find_app_some _ _ _ _ Ho).
    + rewrite find_app_none by exact Ho. simpl.
      destruct (sameLine other item) eqn:Hs; [|reflexivity].
      apply sameLine_key in Hs. congruence.
  - intros otherUser Hne. rewrite getCart_setCart.
    apply String.eqb_neq in Hne. now rewrite Hne.
  - intros Hnd. rewrite map_app. simpl. apply NoDup_app; auto.
    + constructor; [intros []|constructor].
    + intros k Hk [<-|[]]. apply in_map_iff in Hk.
      destruct Hk as (c & Hkey & Hc).
      apply (find_none _ _ Hfind) in Hc.
      apply sameLine_key in Hkey. congruence.
Qed.

(** Adding a line whose key and id the cart does not have, and removing it
    again by its id, gives the cart back. *)
Theorem cart_remove_undoes_add userId item s :
  find (sameLine item) (getCart userId s) = None ->
  Forall (fun c => CartItem.id c <> CartItem.id item) (getCart userId s) ->
  getCart userId (removeFromCart userId (CartItem.id item)
                    (addToCart userId item s))
  = getCart userId s.
Proof.
  intros Hnew Hids. unfold removeFromCart, addToCart. rewrite Hnew.
  rewrite !getCart_setCart, String.eqb_refl.
  rewrite filter_app. simpl. rewrite String.eqb_refl. simpl.
  rewrite app_nil_r.
  induction (getCart userId s) as [|c r IH]; simpl; [reflexivity|].
  apply Forall_cons_iff in Hids. destruct Hids as [Hc Hr].
  apply String.eqb_neq in Hc. rewrite Hc. simpl. f_equal.
  apply IH; [|exact Hr]. simpl in Hnew.
  now destruct (sameLine item c).
Qed.

Lemma cart_remove_undoes_add_witness :
  getCart "B2"
    (removeFromCart "B2" "c1" (addToCart "B2" (serializedLine "c1" 1) freshShop))
  = getCart "B2" freshShop.
Proof.
  apply (cart_remove_undoes_add "B2" (serializedLine "c1" 1) freshShop).
  - reflexivity.
  - constructor.
Defined.

(** ** Orders cancelled, saved and returned *)

Lemma removeAt_filter orderId : forall os i,
  NoDup (map Order.id os) ->
  JS.findIndex (orderHasId orderId) os = Some i ->
  JS.removeAt i os = filter (fun o => negb (orderHasId orderId o)) os.
Proof.
  induction os as [|o r IH]; simpl; intros i Hnd; [discriminate|].
  apply NoDup_cons_iff in Hnd. destruct Hnd as [Ho Hnd].
  destruct (orderHasId orderId o) eqn:Hid; simpl.
  - intros [= <-]. symmetry. apply forallb_filter_id.
    apply forallb_forall. intros x Hx. apply negb_true_iff.
    unfold orderHasId in *. apply String.eqb_eq in Hid.
    apply String.eqb_neq. intros Heq. apply Ho. rewrite Hid, <- Heq.
    now apply in_map.
  - destruct (JS.findIndex (orderHasId orderId) r) as [j|] eqn:Hj;
      [|discriminate].
    intros [= <-]. simpl. f_equal. now apply IH.
Qed.

Lemma find_filter_negb {A} (p : A -> bool) l :
  find p (filter (fun x => negb (p x)) l) = None.
Proof.
  induction l as [|x r IH]; simpl; [reflexivity|].
  destruct (p x) eqn:Hp; simpl; [exact IH|now rewrite Hp].
Qed.

Lemma cancelOrder_orders newId orderId s :
  orders (cancelOrder newId orderId s)
  = match JS.findIndex (orderHasId orderId) (orders s) with
    | Some i => JS.removeAt i (orders s)
    | None => orders s
    end.
Proof.
  unfold cancelOrder.
  destruct (JS.findIndex _ (orders s)) as [i|] eqn:Hi; [|reflexivity].
  destruct (nth_error (orders s) i) as [order|] eqn:Hn; [reflexivity|].
  exfalso. revert i Hi Hn.
  induction (orders s) as [|o r IH]; simpl; intros i; [discriminate|].
  destruct (orderHasId orderId o).
  - intros [= <-]. discriminate.
  - destruct (JS.findIndex _ r) as [j|]; [|discriminate].
    intros [= <-]. simpl. now apply IH.
Qed.

(** Where order ids are unique, [cancelOrder] deletes the order with the id
    and keeps every other order, in order; cancelling the same id again
    changes nothing, so that nothing is released twice. *)
Theorem cancel_deletes_the_order_once newId orderId s :
  orderIdsUnique s ->
  orders (cancelOrder newId orderId s)
  = filter (fun o => negb (orderHasId orderId o)) (orders s)
  /\ forall newId',
       cancelOrder newId' orderId (cancelOrder newId orderId s)
       = cancelOrder newId orderId s.
Proof.
  intros Hnd.
  assert (Horders :
    orders (cancelOrder newId orderId s)
    = filter (fun o => negb (orderHasId orderId o)) (orders s)).
  { rewrite cancelOrder_orders.
    destruct (JS.findIndex _ (orders s)) as [i|] eqn:Hi.
    - now apply removeAt_filter.
    - apply findIndex_none in Hi. symmetry. apply forallb_filter_id.
      apply forallb_forall. intros x Hx. apply negb_true_iff.
      now apply (find_none _ _ Hi). }
  split; [exact Horders|].
  intros newId'. unfold cancelOrder at 1.
  assert (Hgone :
    JS.findIndex (orderHasId orderId) (orders (cancelOrder newId orderId s))
    = None).
  { apply findIndex_none. rewrite Horders. apply find_filter_negb. }
  now rewrite Hgone.
Qed.

Lemma cancel_deletes_witness :
  orders (cancelOrder "b9" "o1" deliveredShop)
  = filter (fun o => negb (orderHasId "o1" o)) (orders deliveredShop).
Proof.
  refine (proj1 (cancel_deletes_the_order_once "b9" "o1" deliveredShop _)).
  unfold orderIdsUnique. simpl.
  constructor; [intros [H|[]]; discriminate H|].
  constructor; [intros []|constructor].
Defined.

(** With unique unit ids, an update through [find] is an update of every
    unit with the id. *)
Lemma updateFirst_unique f k : forall us,
  NoDup (map ProductUnit.id us) ->
  JS.updateFirst (hasId k) f us
  = map (fun u => if hasId k u then f u else u) us.
Proof.
  induction us as [|u r IH]; simpl; intros Hnd; [reflexivity|].
  apply NoDup_cons_iff in Hnd. destruct Hnd as [Hu Hnd].
  destruct (hasId k u) eqn:Hk.
  - f_equal. rewrite <- (map_id r) at 1. apply map_ext_in.
    intros x Hx. destruct (hasId k x) eqn:Hx'; [|reflexivity].
    exfalso. apply Hu. unfold hasId in *.
    apply String.eqb_eq in Hk, Hx'. rewrite Hk, <- Hx'. now apply in_map.
  - now rewrite IH.
Qed.

Lemma forEachUnit_unique f ids : forall us,
  keepsId f -> (forall u, f (f u) = f u) ->
  NoDup (map ProductUnit.id us) ->
  forEachUnit ids f us
  = map (fun u => if JS.includes ids (ProductUnit.id u) then f u else u) us.
Proof.
  unfold forEachUnit.
  induction ids as [|k ids IH]; intros us Hid Hidem Hnd; simpl.
  - now rewrite map_id.
  - rewrite IH; auto.
    + rewrite updateFirst_unique by exact Hnd. rewrite map_map.
      apply map_ext. intros u. unfold hasId.
      destruct (ProductUnit.id u =? k)%string eqn:Hk; simpl.
      * rewrite Hid. now destruct (JS.includes ids (ProductUnit.id u)).
      * reflexivity.
    + now rewrite map_updateFirst.
Qed.

Lemma updateFirst_twice {A} (p : A -> bool) f g l :
  (forall x, p (f x) = p x) ->
  JS.updateFirst p g (JS.updateFirst p f l)
  = JS.updateFirst p (fun x => g (f x)) l.
Proof.
  intros Hp. induction l as [|x r IH]; simpl; [reflexivity|].
  destruct (p x) eqn:Hx; simpl.
  - now rewrite Hp, Hx.
  - now rewrite Hx, IH.
Qed.

Lemma updateFirst_fixed {A} (p : A -> bool) f l x :
  find p l = Some x -> f x = x -> JS.updateFirst p f l = l.
Proof.
  induction l as [|y r IH]; simpl; [discriminate|].
  destruct (p y).
  - intros [= ->] ->. reflexivity.
  - intros H Hf. now rewrite IH.
Qed.

(** Declining a return request undoes it: where unit ids are unique, for a
    delivered order whose units are in status SOLD_TO_BUYER,
    [requestOrderReturn] followed by [processBuyerReturn] with the answer no
    gives the store back. *)
Theorem declined_return_restores_the_store orderId order s :
  unitIdsUnique s ->
  find (orderHasId orderId) (orders s) = Some order ->
  Order.status order = Delivered ->
  (forall u,
     In u (units s) -> In (ProductUnit.id u) (reservedUnits order) ->
     ProductUnit.status u = SOLD_TO_BUYER) ->
  processBuyerReturn orderId false (requestOrderReturn orderId s) = s.
Proof.
  intros Hnd Hfind Hstatus Hsold.
  assert (Horders :
    JS.updateFirst (orderHasId orderId) (Order.withStatus Delivered)
      (JS.updateFirst (orderHasId orderId) (Order.withStatus ReturnRequested)
         (orders s)) = orders s).
  { rewrite updateFirst_twice by reflexivity.
    apply (updateFirst_fixed _ _ _ order Hfind).
    destruct order. simpl in Hstatus. subst. reflexivity. }
  assert (Hfound :
    find (orderHasId orderId)
      (JS.updateFirst (orderHasId orderId) (Order.withStatus ReturnRequested)
         (orders s))
    = Some (Order.withStatus ReturnRequested order)).
  { now apply find_order_updated. }
  unfold requestOrderReturn. rewrite Hfind.
  unfold reservedUnits in Hsold.
  destruct (Order.assignedUnitIds order) as [ids|] eqn:Hids.
  - unfold processBuyerReturn. cbn [orders setOrders setUnits units].
    rewrite Hfound. cbn [Order.withStatus Order.assignedUnitIds].
    rewrite Hids, Horders.
    assert (Hunits :
      forEachUnit ids (ProductUnit.withStatus SOLD_TO_BUYER)
        (forEachUnit ids (ProductUnit.withStatus RETURN_REQUESTED) (units s))
      = units s).
    { rewrite (forEachUnit_unique _ ids (units s)); auto;
        [|apply withStatus_keepsId].
      rewrite forEachUnit_unique; auto;
        [|apply withStatus_keepsId|].
      2:{ rewrite map_map. erewrite map_ext; [exact Hnd|].
          intros u. cbv beta. now destruct (JS.includes _ _). }
      rewrite map_map. rewrite <- (map_id (units s)) at 2.
      apply map_ext_in. intros u Hu.
      destruct (JS.includes ids (ProductUnit.id u)) eqn:Hinc.
      - cbn [ProductUnit.withStatus ProductUnit.id]. rewrite Hinc.
        apply includes_true_iff in Hinc.
        specialize (Hsold u Hu Hinc). destruct u. simpl in Hsold. subst.
        reflexivity.
      - now rewrite Hinc. }
    rewrite Hunits. clear. now destruct s.
  - unfold processBuyerReturn. cbn [orders setOrders].
    rewrite Hfound. cbn [Order.withStatus Order.assignedUnitIds].
    rewrite Hids, Horders. clear. now destruct s.
Qed.

Lemma declined_return_witness :
  processBuyerReturn "o1" false (requestOrderReturn "o1" deliveredShop)
  = deliveredShop.
Proof.
  apply (declined_return_restores_the_store "o1"
           (orderOf "o1" 1 Delivered (Some ["u1"])) deliveredShop).
  - unfold unitIdsUnique. simpl.
    constructor; [intros [H|[]]; discriminate H|].
    constructor; [intros []|constructor].
  - reflexivity.
  - reflexivity.
  - simpl. intros u [<-|[<-|[]]] [H|[]]; [reflexivity|discriminate H].
Defined.

(** [saveOrder] stores the order under its id: afterwards the first order
    with the id is the order saved, the first order of every other id is
    what it was, the number of orders grows by one when the id is new and
    not at all otherwise, and the order is listed for its buyer and for its
    seller. *)
Theorem saved_order_is_found order s :
  let s' := saveOrder order s in
  find (orderHasId (Order.id order)) (orders s') = Some order
  /\ (forall orderId,
        orderId <> Order.id order ->
        find (orderHasId orderId) (orders s')
        = find (orderHasId orderId) (orders s))
  /\ List.length (orders s')
     = (List.length (orders s)
        + if isSome (find (orderHasId (Order.id order)) (orders s))
          then 0 else 1)%nat
  /\ In order (getOrdersForBuyer (Order.buyerId order) s')
  /\ In order (getOrdersForSeller (Order.sellerId order) s').
Proof.
  cbv zeta.
  assert (Hfirst :
    find (orderHasId (Order.id order)) (orders (saveOrder order s))
    = Some order).
  { unfold saveOrder.
    destruct (JS.findIndex _ (orders s)) as [i|] eqn:Hi; cbn [orders setOrders].
    - rewrite find_updateFirst_hit
        by (intros; unfold orderHasId; apply String.eqb_refl).
      destruct (find _ (orders s)) eqn:Hf; [reflexivity|].
      apply findIndex_none in Hf. congruence.
    - apply findIndex_none in Hi. rewrite find_app_none by exact Hi.
      unfold orderHasId. now rewrite String.eqb_refl. }
  assert (Hin : In order (orders (saveOrder order s))).
  { now apply find_some in Hfirst. }
  split; [exact Hfirst|]. split; [|split; [|split]].
  - intros orderId Hne. unfold saveOrder.
    destruct (JS.findIndex _ (orders s)) as [i|] eqn:Hi; cbn [orders setOrders].
    + apply find_updateFirst_other. intros x Hx. unfold orderHasId in *.
      apply String.eqb_eq in Hx. rewrite Hx.
      split; apply String.eqb_neq; congruence.
    + destruct (find (orderHasId orderId) (orders s)) eqn:Ho.
      * now rewrite (find_app_some _ _ _ _ Ho).
      * rewrite find_app_none by exact Ho. unfold orderHasId.
        apply not_eq_sym, String.eqb_neq in Hne. now rewrite Hne.
  - unfold saveOrder.
    destruct (JS.findIndex _ (orders s)) as [i|] eqn:Hi; cbn [orders setOrders].
    + destruct (find _ (orders s)) eqn:Hf.
      * simpl. rewrite Nat.add_0_r.
        rewrite <- (length_map (fun _ => tt)), map_updateFirst by reflexivity.
        apply length_map.
      * apply findIndex_none in Hf. congruence.
    + apply findIndex_none in Hi. rewrite Hi, length_app. reflexivity.
  - unfold getOrdersForBuyer. apply filter_In. split; [exact Hin|].
    apply String.eqb_refl.
  - unfold getOrdersForSeller. apply filter_In. split; [exact Hin|].
    apply String.eqb_refl.
Qed.
